(** * Watch streams of the Kubernetes JavaScript client

    A shallow embedding of the two watch implementations of the client,
    [WatchIterator.watch] (src/watch_iterator.ts, whole-body transport) and
    [WatchApi.watch] (streaming transport over node-fetch and readline),
    together with the parts of the JavaScript runtime they rely on:
    strings of UTF-16 code units, [String.prototype.trim] and [split],
    [JSON.parse], property reads, [URLSearchParams] and the line reader of
    node:readline.

    An async generator is modelled by the list of values it yields when it
    is pulled until it finishes, together with the way it finishes (normal
    return or a thrown failure). *)

From Stdlib Require Import List NArith ZArith String Ascii Bool Lia FunInd.
From Stdlib Require Import DecimalString.
Import ListNotations.

Set Implicit Arguments.
Set Warnings "-register-all".

(** ** JavaScript strings *)

Module JS.

Local Open Scope N_scope.

(** A JavaScript string is a sequence of UTF-16 code units. *)
Definition jsstring := list N.

(** Literals: [js "abc"] is the string of the ASCII characters of the Rocq
    literal.  [jsq] is the same with every apostrophe standing for the
    double quote U+0022, which keeps JSON texts readable. *)
Definition js (s : string) : jsstring :=
  map N_of_ascii (list_ascii_of_string s).

Definition jsq (s : string) : jsstring :=
  map (fun c => if c =? 39 then 34 else c) (js s).

Fixpoint eqb (s t : jsstring) : bool :=
  match s, t with
  | [], [] => true
  | c :: s', d :: t' => (c =? d) && eqb s' t'
  | _, _ => false
  end.

(** Code units named in the sources and in the grammars below. *)
Definition LF : N := 10.
Definition CR : N := 13.
Definition LS : N := 8232.  (* U+2028 LINE SEPARATOR *)
Definition PS : N := 8233.  (* U+2029 PARAGRAPH SEPARATOR *)

(** ECMAScript LineTerminator. *)
Definition isLineTerminator (c : N) : bool :=
  (c =? LF) || (c =? CR) || (c =? LS) || (c =? PS).

(** ECMAScript WhiteSpace: TAB, VT, FF, SP, NBSP, ZWNBSP and the category
    Zs. *)
Definition isWhiteSpace (c : N) : bool :=
  (c =? 9) || (c =? 11) || (c =? 12) || (c =? 32) || (c =? 160) ||
  (c =? 5760) || ((8192 <=? c) && (c <=? 8202)) || (c =? 8239) ||
  (c =? 8287) || (c =? 12288) || (c =? 65279).

(** The code units that [String.prototype.trim] strips: WhiteSpace and
    LineTerminator. *)
Definition isTrimmed (c : N) : bool := isWhiteSpace c || isLineTerminator c.

Fixpoint trimStart (s : jsstring) : jsstring :=
  match s with
  | [] => []
  | c :: r => if isTrimmed c then trimStart r else s
  end.

Definition trimEnd (s : jsstring) : jsstring := rev (trimStart (rev s)).

(** [s.trim()] *)
Definition trim (s : jsstring) : jsstring := trimEnd (trimStart s).

(** [s.split(sep)] for a separator of one code unit: the pieces between
    the occurrences of [sep]; the empty string gives one empty piece. *)
Fixpoint split (sep : N) (s : jsstring) : list jsstring :=
  match s with
  | [] => [[]]
  | c :: r =>
      if c =? sep then [] :: split sep r
      else match split sep r with
           | piece :: pieces => (c :: piece) :: pieces
           | [] => [[c]]
           end
  end.

(** [pieces.join(sep)] *)
Fixpoint join (sep : jsstring) (pieces : list jsstring) : jsstring :=
  match pieces with
  | [] => []
  | [p] => p
  | p :: ps => p ++ sep ++ join sep ps
  end.

(** [a || b] on strings that may be undefined: the empty string and
    undefined are falsy. *)
Definition or_else (a : option jsstring) (b : jsstring) : jsstring :=
  match a with
  | Some (c :: s) => c :: s
  | _ => b
  end.

(** ** JSON values and [JSON.parse] *)

(** The value of a JSON text.  A number is kept as its lexeme: the watch
    code never computes with it. An object keeps its members in source
    order, duplicates included. *)
Inductive JSON : Type :=
  | JNull
  | JBool (b : bool)
  | JNumber (lexeme : jsstring)
  | JString (s : jsstring)
  | JArray (items : list JSON)
  | JObject (members : list (jsstring * JSON)).

(** A JavaScript value as the watch code sees it: a parsed JSON value, or
    [undefined]. *)
Inductive jsvalue : Type :=
  | undefined
  | Val (v : JSON).

Inductive JsError : Type := SyntaxError | TypeError | RangeError.

Definition QUOTE : N := 34.
Definition BACKSLASH : N := 92.
Definition chr (a : ascii) : N := N_of_ascii a.

Definition isJsonWhiteSpace (c : N) : bool :=
  (c =? 9) || (c =? LF) || (c =? CR) || (c =? 32).

Definition isDigit (c : N) : bool := (chr "0" <=? c) && (c <=? chr "9").

Definition hexValue (c : N) : option N :=
  if isDigit c then Some (c - chr "0")
  else if (chr "a" <=? c) && (c <=? chr "f") then Some (c - chr "a" + 10)
  else if (chr "A" <=? c) && (c <=? chr "F") then Some (c - chr "A" + 10)
  else None.

Fixpoint skipWhiteSpace (s : jsstring) : jsstring :=
  match s with
  | [] => []
  | c :: r => if isJsonWhiteSpace c then skipWhiteSpace r else s
  end.

(** The longest prefix of digits, and what follows it. *)
Fixpoint digits (s : jsstring) : jsstring * jsstring :=
  match s with
  | [] => ([], [])
  | c :: r =>
      if isDigit c then let '(ds, r') := digits r in (c :: ds, r')
      else ([], s)
  end.

(** [startsWith lit s] is what follows the literal [lit] at the head of
    [s]. *)
Fixpoint startsWith (lit s : jsstring) : option jsstring :=
  match lit, s with
  | [], _ => Some s
  | l :: lit', c :: s' => if c =? l then startsWith lit' s' else None
  | _ :: _, [] => None
  end.

(** The characters of a JSON string after its opening quote, up to the
    closing quote: escapes are decoded, raw control characters are
    refused. *)
Fixpoint parseString (s : jsstring) (acc : jsstring)
  : option (jsstring * jsstring) :=
  match s with
  | [] => None
  | c :: r =>
      if c =? QUOTE then Some (rev acc, r)
      else if c =? BACKSLASH then
        match r with
        | [] => None
        | e :: r1 =>
            if e =? QUOTE then parseString r1 (QUOTE :: acc)
            else if e =? BACKSLASH then parseString r1 (BACKSLASH :: acc)
            else if e =? chr "/" then parseString r1 (chr "/" :: acc)
            else if e =? chr "b" then parseString r1 (8 :: acc)
            else if e =? chr "f" then parseString r1 (12 :: acc)
            else if e =? chr "n" then parseString r1 (LF :: acc)
            else if e =? chr "r" then parseString r1 (CR :: acc)
            else if e =? chr "t" then parseString r1 (9 :: acc)
            else if e =? chr "u" then
              match r1 with
              | h1 :: h2 :: h3 :: h4 :: r2 =>
                  match hexValue h1, hexValue h2, hexValue h3, hexValue h4 with
                  | Some a, Some b, Some c', Some d =>
                      parseString r2 (((a * 16 + b) * 16 + c') * 16 + d :: acc)
                  | _, _, _, _ => None
                  end
              | _ => None
              end
            else None
        end
      else if c <? 32 then None
      else parseString r (c :: acc)
  end.

(** The parts of a JSON number.  Each gives the code units it read and
    what follows them; the fraction and the exponent read nothing when
    they are absent, and fail when they start and hold no digit. *)
Definition minusSign (s : jsstring) : jsstring * jsstring :=
  match s with
  | c :: r => if c =? chr "-" then ([c], r) else ([], s)
  | [] => ([], s)
  end.

(** A single zero, or a digit that is not zero and the digits after it. *)
Definition integerPart (s : jsstring) : option (jsstring * jsstring) :=
  match s with
  | [] => None
  | d :: r =>
      if negb (isDigit d) then None
      else if d =? chr "0" then Some ([d], r)
      else let '(ds, r') := digits r in Some (d :: ds, r')
  end.

(** A dot and at least one digit. *)
Definition fractionPart (s : jsstring) : option (jsstring * jsstring) :=
  match s with
  | p :: r =>
      if p =? chr "." then
        match digits r with
        | ([], _) => None
        | (ds, r') => Some (p :: ds, r')
        end
      else Some ([], s)
  | [] => Some ([], s)
  end.

Definition exponentSign (s : jsstring) : jsstring * jsstring :=
  match s with
  | g :: r => if (g =? chr "+") || (g =? chr "-") then ([g], r) else ([], s)
  | [] => ([], s)
  end.

(** [e] or [E], an optional sign and at least one digit. *)
Definition exponentPart (s : jsstring) : option (jsstring * jsstring) :=
  match s with
  | e :: r =>
      if (e =? chr "e") || (e =? chr "E") then
        let '(sg, r1) := exponentSign r in
        match digits r1 with
        | ([], _) => None
        | (ds, r2) => Some (e :: sg ++ ds, r2)
        end
      else Some ([], s)
  | [] => Some ([], s)
  end.

(** A JSON number: an optional minus sign, the integer part, an optional
    fraction and an optional exponent. *)
Definition parseNumber (s : jsstring) : option (jsstring * jsstring) :=
  let '(sign, s0) := minusSign s in
  match integerPart s0 with
  | None => None
  | Some (int, s1) =>
      match fractionPart s1 with
      | None => None
      | Some (fr, s2) =>
          match exponentPart s2 with
          | None => None
          | Some (ex, s3) => Some (sign ++ int ++ fr ++ ex, s3)
          end
      end
  end.

(** Outcome of a parser that runs on fuel. *)
Inductive result (A : Type) : Type :=
  | Parsed (a : A) (rest : jsstring)
  | Rejected
  | Exhausted.
Arguments Rejected {A}.
Arguments Exhausted {A}.

(** [parseValue] reads one JSON value after optional white space.
    [parseElements] reads the elements of an array after its bracket (or
    after a comma), [parseMembers] the members of an object; both get their
    input with the leading white space already skipped. *)
Fixpoint parseValue (fuel : nat) (s : jsstring) {struct fuel} : result JSON :=
  match fuel with
  | O => Exhausted
  | S fuel' =>
      match skipWhiteSpace s with
      | [] => Rejected
      | c :: r =>
          if c =? chr "{" then
            match skipWhiteSpace r with
            | [] => Rejected
            | d :: r' =>
                if d =? chr "}" then Parsed (JObject []) r'
                else parseMembers fuel' (d :: r') []
            end
          else if c =? chr "[" then
            match skipWhiteSpace r with
            | [] => Rejected
            | d :: r' =>
                if d =? chr "]" then Parsed (JArray []) r'
                else parseElements fuel' (d :: r') []
            end
          else if c =? QUOTE then
            match parseString r [] with
            | Some (str, r') => Parsed (JString str) r'
            | None => Rejected
            end
          else if c =? chr "t" then
            match startsWith (js "rue") r with
            | Some r' => Parsed (JBool true) r'
            | None => Rejected
            end
          else if c =? chr "f" then
            match startsWith (js "alse") r with
            | Some r' => Parsed (JBool false) r'
            | None => Rejected
            end
          else if c =? chr "n" then
            match startsWith (js "ull") r with
            | Some r' => Parsed JNull r'
            | None => Rejected
            end
          else
            match parseNumber (c :: r) with
            | Some (lexeme, r') => Parsed (JNumber lexeme) r'
            | None => Rejected
            end
      end
  end

with parseElements (fuel : nat) (s : jsstring) (acc : list JSON)
  {struct fuel} : result JSON :=
  match fuel with
  | O => Exhausted
  | S fuel' =>
      match parseValue fuel' s with
      | Parsed v r =>
          match skipWhiteSpace r with
          | [] => Rejected
          | c :: r' =>
              if c =? chr "," then
                parseElements fuel' (skipWhiteSpace r') (v :: acc)
              else if c =? chr "]" then Parsed (JArray (rev (v :: acc))) r'
              else Rejected
          end
      | Rejected => Rejected
      | Exhausted => Exhausted
      end
  end

with parseMembers (fuel : nat) (s : jsstring) (acc : list (jsstring * JSON))
  {struct fuel} : result JSON :=
  match fuel with
  | O => Exhausted
  | S fuel' =>
      match s with
      | [] => Rejected
      | q :: r =>
          if negb (q =? QUOTE) then Rejected else
          match parseString r [] with
          | None => Rejected
          | Some (key, r1) =>
              match skipWhiteSpace r1 with
              | [] => Rejected
              | c :: r2 =>
                  if negb (c =? chr ":") then Rejected else
                  match parseValue fuel' r2 with
                  | Parsed v r3 =>
                      match skipWhiteSpace r3 with
                      | [] => Rejected
                      | d :: r4 =>
                          if d =? chr "," then
                            parseMembers fuel' (skipWhiteSpace r4)
                              ((key, v) :: acc)
                          else if d =? chr "}" then
                            Parsed (JObject (rev ((key, v) :: acc))) r4
                          else Rejected
                      end
                  | Rejected => Rejected
                  | Exhausted => Exhausted
                  end
              end
          end
      end
  end.

(** Fuel that [parseValue] cannot exhaust on [s] (see [parseValue_fuel]). *)
Definition fuelFor (s : jsstring) : nat := (2 * List.length s + 1)%nat.

(** [JSON.parse(text)]: the value of a text that is one JSON value between
    optional white space; anything else throws a SyntaxError. *)
Definition JSON_parse (text : jsstring) : JsError + JSON :=
  match parseValue (fuelFor text) text with
  | Parsed v rest =>
      match skipWhiteSpace rest with
      | [] => inr v
      | _ :: _ => inl SyntaxError
      end
  | _ => inl SyntaxError
  end.

(** The own property [key] of an object made by [JSON.parse]: of members
    with the same name the last one wins. *)
Fixpoint ownProperty (key : jsstring) (members : list (jsstring * JSON))
  : jsvalue :=
  match members with
  | [] => undefined
  | (k, v) :: rest =>
      match ownProperty key rest with
      | undefined => if eqb k key then Val v else undefined
      | found => found
      end
  end.

(** [data.key] for a [data] that came out of [JSON.parse], and a [key]
    that no built-in prototype defines (such as [type] and [object], the
    two names the watch code reads): reading a property of [null] throws a
    TypeError, an object gives its own property, and a string, number,
    boolean or array has no such property. *)
Definition getProp (data : JSON) (key : jsstring) : JsError + jsvalue :=
  match data with
  | JNull => inl TypeError
  | JObject members => inr (ownProperty key members)
  | _ => inr undefined
  end.

End JS.

(** ** [URL] and [URLSearchParams] *)

Module URLSearchParams.
Import JS.
Local Open Scope N_scope.

(** The list of name-value tuples of a query. *)
Definition t := list (jsstring * jsstring).

Definition names (params : t) : list jsstring := map fst params.

Definition has (name : jsstring) (params : t) : bool :=
  existsb (fun p => eqb (fst p) name) params.

Definition remove (name : jsstring) (params : t) : t :=
  filter (fun p => negb (eqb (fst p) name)) params.

(** [params.set(name, value)]: the first tuple named [name] takes the
    value and the other tuples of that name are removed; without such a
    tuple a new one is appended. *)
Fixpoint set (name value : jsstring) (params : t) : t :=
  match params with
  | [] => [(name, value)]
  | (k, v) :: rest =>
      if eqb k name then (name, value) :: remove name rest
      else (k, v) :: set name value rest
  end.

(** [params.getAll(name)] *)
Definition getAll (name : jsstring) (params : t) : list jsstring :=
  map snd (filter (fun p => eqb (fst p) name) params).

(** UTF-8 bytes of a string; a surrogate without its partner is encoded
    as U+FFFD. *)
Definition isHighSurrogate (c : N) : bool := (55296 <=? c) && (c <=? 56319).
Definition isLowSurrogate (c : N) : bool := (56320 <=? c) && (c <=? 57343).
Definition replacement : list N := [239; 191; 189].

Fixpoint utf8 (s : jsstring) : list N :=
  match s with
  | [] => []
  | c :: r =>
      if c <? 128 then c :: utf8 r
      else if c <? 2048 then (192 + c / 64) :: (128 + c mod 64) :: utf8 r
      else if isHighSurrogate c then
        match r with
        | d :: r' =>
            if isLowSurrogate d then
              let cp := 65536 + (c - 55296) * 1024 + (d - 56320) in
              (240 + cp / 262144) :: (128 + (cp / 4096) mod 64) ::
              (128 + (cp / 64) mod 64) :: (128 + cp mod 64) :: utf8 r'
            else replacement ++ utf8 r
        | [] => replacement
        end
      else if isLowSurrogate c then replacement ++ utf8 r
      else (224 + c / 4096) :: (128 + (c / 64) mod 64) ::
           (128 + c mod 64) :: utf8 r
  end.

Definition isAlphanumeric (b : N) : bool :=
  isDigit b || ((chr "a" <=? b) && (b <=? chr "z"))
            || ((chr "A" <=? b) && (b <=? chr "Z")).

Definition hexDigit (n : N) : N :=
  if n <? 10 then chr "0" + n else chr "A" + (n - 10).

(** The application/x-www-form-urlencoded byte serializer: a space becomes
    a plus sign; letters, digits and [* - . _] stay; every other byte is
    percent-encoded with upper-case hexadecimal digits. *)
Definition encodeByte (b : N) : jsstring :=
  if b =? 32 then [chr "+"]
  else if isAlphanumeric b || (b =? chr "*") || (b =? chr "-")
          || (b =? chr ".") || (b =? chr "_") then [b]
  else [chr "%"; hexDigit (b / 16); hexDigit (b mod 16)].

Definition encode (s : jsstring) : jsstring := flat_map encodeByte (utf8 s).

Definition component (p : jsstring * jsstring) : jsstring :=
  encode (fst p) ++ chr "=" :: encode (snd p).

(** [params.toString()] *)
Definition toString (params : t) : jsstring :=
  join [chr "&"] (map component params).

End URLSearchParams.

(** A parsed URL: what precedes the query, and the query as a
    [URLSearchParams] list. *)
Record URL : Type := mkURL {
  origin_path : JS.jsstring;
  searchParams : URLSearchParams.t
}.

(** [url.search]: empty for an empty query, else a question mark and the
    serialized tuples. *)
Definition search (url : URL) : JS.jsstring :=
  match searchParams url with
  | [] => []
  | _ :: _ => JS.chr "?" :: URLSearchParams.toString (searchParams url)
  end.

(** ** [JSON.stringify] *)

Section Stringify.
Import JS.
Local Open Scope N_scope.

Definition hexDigitLower (n : N) : N :=
  if n <? 10 then chr "0" + n else chr "a" + (n - 10).

(** [UnicodeEscape]: a backslash, [u] and the four lower-case hexadecimal
    digits of the code unit. *)
Definition unicodeEscape (c : N) : jsstring :=
  [BACKSLASH; chr "u"; hexDigitLower (c / 4096); hexDigitLower ((c / 256) mod 16);
   hexDigitLower ((c / 16) mod 16); hexDigitLower (c mod 16)].

(** [QuoteJSONString] between its quotes: the short escapes of backspace,
    tab, line feed, form feed, carriage return, quote and backslash; a
    [UnicodeEscape] for the other control characters and for a surrogate
    without its partner; every other code point as it is. *)
Fixpoint quoteJSONString (s : jsstring) : jsstring :=
  match s with
  | [] => []
  | c :: r =>
      if c =? 8 then BACKSLASH :: chr "b" :: quoteJSONString r
      else if c =? 9 then BACKSLASH :: chr "t" :: quoteJSONString r
      else if c =? LF then BACKSLASH :: chr "n" :: quoteJSONString r
      else if c =? 12 then BACKSLASH :: chr "f" :: quoteJSONString r
      else if c =? CR then BACKSLASH :: chr "r" :: quoteJSONString r
      else if c =? QUOTE then BACKSLASH :: QUOTE :: quoteJSONString r
      else if c =? BACKSLASH then BACKSLASH :: BACKSLASH :: quoteJSONString r
      else if c <? 32 then unicodeEscape c ++ quoteJSONString r
      else if URLSearchParams.isHighSurrogate c then
        match r with
        | d :: r' =>
            if URLSearchParams.isLowSurrogate d
            then c :: d :: quoteJSONString r'
            else unicodeEscape c ++ quoteJSONString r
        | [] => unicodeEscape c
        end
      else if URLSearchParams.isLowSurrogate c
      then unicodeEscape c ++ quoteJSONString r
      else c :: quoteJSONString r
  end.

(** [JSON.stringify(value)] without indentation, for a value of JSON: the
    literals, a number as its text, a quoted string, the elements of an
    array between brackets and the members of an object between braces,
    separated by commas.  An object is written in the order of its
    members, and a number as its lexeme: the text that JavaScript gives
    for an object whose names are no array indices and for a number
    whose lexeme is a canonical integer (see [plain]). *)
Fixpoint JSON_stringify (value : JSON) : jsstring :=
  match value with
  | JNull => js "null"
  | JBool true => js "true"
  | JBool false => js "false"
  | JNumber lexeme => lexeme
  | JString s => QUOTE :: quoteJSONString s ++ [QUOTE]
  | JArray items =>
      chr "[" :: join [chr ","] (map JSON_stringify items) ++ [chr "]"]
  | JObject members =>
      chr "{" ::
      join [chr ","]
        (map (fun m =>
                QUOTE :: quoteJSONString (fst m) ++
                QUOTE :: chr ":" :: JSON_stringify (snd m))
             members) ++
      [chr "}"]
  end.

End Stringify.

(** ** The line reader of node:readline *)

Module Readline.
Import JS.
Local Open Scope N_scope.

(** The code units that end a line: node:readline ends a line at CR LF,
    at LF and at a CR that no LF follows, and nowhere else (U+2028 and
    U+2029 stay inside their line). *)
Definition isLineEnding (c : N) : bool := (c =? LF) || (c =? CR).

(** The pieces of [s] between line endings.  The last piece is what
    follows the last line ending. *)
Fixpoint splitLines (s : jsstring) : list jsstring :=
  match s with
  | [] => [[]]
  | c :: r =>
      if c =? CR then
        match r with
        | d :: r' => if d =? LF then [] :: splitLines r' else [] :: splitLines r
        | [] => [[]; []]
        end
      else if c =? LF then [] :: splitLines r
      else match splitLines r with
           | piece :: pieces => (c :: piece) :: pieces
           | [] => [[c]]
           end
  end.

Definition hasLineEnding (s : jsstring) : bool := existsb isLineEnding s.

Definition endsWithCR (s : jsstring) : bool :=
  match rev s with
  | c :: _ => c =? CR
  | [] => false
  end.

(** State of an [Interface] between two chunks of its input: the text of
    the line that is not yet terminated, and whether the last chunk ended
    with a carriage return.  (Node keeps the time of that carriage return
    and pairs it with a line feed that opens the next chunk when the chunk
    comes within [crlfDelay]; the flag models a chunk that comes in time.) *)
Record Interface : Type := mkInterface {
  line_buffer : jsstring;
  sawReturn : bool
}.

Definition initial : Interface := mkInterface [] false.

(** One chunk of input: the lines it completes and the next state. *)
Definition write (rl : Interface) (chunk : jsstring)
  : list jsstring * Interface :=
  let text :=
    if sawReturn rl then
      match chunk with
      | c :: r => if c =? LF then r else chunk
      | [] => chunk
      end
    else chunk in
  if hasLineEnding text then
    let all := line_buffer rl ++ text in
    let pieces := splitLines all in
    (removelast pieces, mkInterface (last pieces []) (endsWithCR all))
  else (nil, mkInterface (line_buffer rl ++ text) false).

(** End of input: a non-empty unterminated line is still delivered. *)
Definition onend (rl : Interface) : list jsstring :=
  match line_buffer rl with
  | [] => []
  | _ :: _ => [line_buffer rl]
  end.

Fixpoint feed (rl : Interface) (chunks : list jsstring) : list jsstring :=
  match chunks with
  | [] => onend rl
  | chunk :: more =>
      let '(lines, rl') := write rl chunk in lines ++ feed rl' more
  end.

(** [for await (const line of createInterface(body))]: the lines of a
    readable stream that delivers [chunks] and then ends. *)
Definition createInterface (chunks : list jsstring) : list jsstring :=
  feed initial chunks.

End Readline.

(** ** Generators *)

Module Gen.

Section Gen.
(** [Y]: the values yielded; [E]: what can be thrown. *)
Variables Y E : Type.

Inductive completion (A : Type) : Type :=
  | Return (a : A)
  | Throw (e : E).

(** A run of a generator pulled to its end. *)
Definition t (A : Type) : Type := (list Y * completion A)%type.

Definition yielded {A} (m : t A) : list Y := fst m.
Definition outcome {A} (m : t A) : completion A := snd m.

Definition ret {A} (a : A) : t A := ([], Return a).
Definition throw {A} (e : E) : t A := ([], Throw A e).
Definition yield (y : Y) : t unit := ([y], Return tt).

Definition bind {A B} (m : t A) (k : A -> t B) : t B :=
  match m with
  | (ys, Return a) => let '(zs, c) := k a in (ys ++ zs, c)
  | (ys, Throw _ e) => (ys, Throw B e)
  end.

(** [try { m } catch (e) { handler e }] *)
Definition try_catch {A} (m : t A) (handler : E -> t A) : t A :=
  match m with
  | (ys, Throw _ e) => let '(zs, c) := handler e in (ys ++ zs, c)
  | done => done
  end.

(** An expression that may throw. *)
Definition lift {A} (r : E + A) : t A :=
  match r with
  | inl e => throw e
  | inr a => ret a
  end.

(** [for (const x of xs) { body x }] *)
Fixpoint for_of {X} (xs : list X) (body : X -> t unit) : t unit :=
  match xs with
  | [] => ret tt
  | x :: more => bind (body x) (fun _ => for_of more body)
  end.
End Gen.

Arguments Return {E A} a.
Arguments Throw {E A} e.
Arguments ret {Y E A} a.
Arguments throw {Y E A} e.
Arguments yield {Y E} y.
Arguments lift {Y E A} r.

End Gen.

Declare Scope gen_scope.
Delimit Scope gen_scope with gen.
Notation "x <- m ;; k" := (Gen.bind m (fun x => k))
  (at level 61, m at next level, right associativity) : gen_scope.
Notation "m ;; k" := (Gen.bind m (fun _ => k))
  (at level 61, right associativity) : gen_scope.
Notation "'try' m 'catch' h" := (Gen.try_catch m h)
  (at level 61, m at next level) : gen_scope.

(** ** Watch events *)

(** [WatchEvent<T>]: the interface is declared with the same two fields in
    both source files.  The values are whatever the frame held: the watch
    code copies [data.type] and [data.object] without looking at them. *)
Record WatchEvent : Type := mkWatchEvent {
  type : JS.jsvalue;
  object : JS.jsvalue
}.

(** What an awaited promise of a collaborator rejects with: an [Error]
    object with its message, or some other value. *)
Inductive rejection : Type :=
  | ErrorObject (message : JS.jsstring)
  | NotAnError.

(** ** [WatchIterator]: the whole-body variant (src/watch_iterator.ts) *)

Module WatchIterator.
Import JS.
Local Open Scope gen_scope.

Record WatchOptions : Type := mkWatchOptions {
  resourceVersion : option jsstring;
  labelSelector : option jsstring;
  fieldSelector : option jsstring;
  timeoutMs : option Z;
  allowWatchBookmarks : option bool
}.

(** [{}], the default of the [options] parameter. *)
Definition noOptions : WatchOptions := mkWatchOptions None None None None None.

(** [class WatchError extends Error] *)
Record WatchError : Type := mkWatchError {
  message : jsstring;
  statusCode : option Z
}.

(** Everything a run of [watch] can throw. *)
Inductive thrown : Type :=
  | ThrowWatchError (e : WatchError)
  | ThrowJs (e : JsError)
  | ThrowForeign (e : rejection).

Inductive HttpMethod : Type := GET | POST | PUT | PATCH | DELETE.

(** [AbortSignal.any([controller.signal, AbortSignal.timeout(ms)])]: the
    controller is not aborted by the source, which leaves the timeout. *)
Record AbortSignal : Type := mkSignal { timeout : Z }.

(** [AbortSignal.timeout(delay)]: the delay has to be an unsigned 32-bit
    integer, anything else throws a RangeError.  The delays of the model
    are the integers among the JavaScript numbers. *)
Definition AbortSignal_timeout (delay : Z) : JsError + AbortSignal :=
  if ((0 <=? delay) && (delay <=? 4294967295))%Z then inr (mkSignal delay)
  else inl RangeError.

(** Modelled from the spec: [RequestContext], [ResponseContext],
    [ServerConfiguration], [SecurityAuthentication], the HTTP library and
    [Configuration] come from the generated client (gen/), which is not
    among the sources.  A request is its URL, method, headers and
    cancellation signal; [setQueryParam] sets a tuple of the URL's
    [searchParams]; a response is a status code and a body that is read
    whole as text; the three collaborators are interfaces. *)
Record RequestContext : Type := mkRequestContext {
  url : URL;
  httpMethod : HttpMethod;
  headers : list (jsstring * jsstring);
  signal : option AbortSignal
}.

Definition setQueryParam (name value : jsstring) (r : RequestContext)
  : RequestContext :=
  mkRequestContext
    (mkURL (origin_path (url r))
           (URLSearchParams.set name value (searchParams (url r))))
    (httpMethod r) (headers r) (signal r).

Definition setSignal (s : AbortSignal) (r : RequestContext) : RequestContext :=
  mkRequestContext (url r) (httpMethod r) (headers r) (Some s).

Record ResponseContext : Type := mkResponseContext {
  httpStatusCode : Z;
  body_text : jsstring
}.

Record ServerConfiguration : Type := mkServerConfiguration {
  makeRequestContext : jsstring -> HttpMethod -> rejection + RequestContext
}.

Record SecurityAuthentication : Type := mkSecurityAuthentication {
  applySecurityAuthentication : RequestContext -> rejection + RequestContext
}.

Record HttpLibrary : Type := mkHttpLibrary {
  send : RequestContext -> rejection + ResponseContext
}.

Record Configuration : Type := mkConfiguration {
  baseServer : ServerConfiguration;
  authMethods_default : option SecurityAuthentication;
  httpApi : HttpLibrary
}.

Definition G := Gen.t WatchEvent thrown.

Definition liftJs {A} (r : JsError + A) : G A :=
  match r with
  | inl e => Gen.throw (ThrowJs e)
  | inr a => Gen.ret a
  end.

Definition liftForeign {A} (r : rejection + A) : G A :=
  match r with
  | inl e => Gen.throw (ThrowForeign e)
  | inr a => Gen.ret a
  end.

Section Watch.
(** [STATUS_CODES] of node:http. *)
Variable STATUS_CODES : Z -> option jsstring.
Variable configuration : Configuration.

(** Lines 233 to 246: the query parameters. [allowWatchBookmarks] comes
    with its default already applied. *)
Definition addQuery (options : WatchOptions) (allowWatchBookmarks : bool)
  (requestContext : RequestContext) : RequestContext :=
  let requestContext := setQueryParam (js "watch") (js "true") requestContext in
  let requestContext :=
    match resourceVersion options with
    | Some v => setQueryParam (js "resourceVersion") v requestContext
    | None => requestContext
    end in
  let requestContext :=
    match labelSelector options with
    | Some v => setQueryParam (js "labelSelector") v requestContext
    | None => requestContext
    end in
  let requestContext :=
    match fieldSelector options with
    | Some v => setQueryParam (js "fieldSelector") v requestContext
    | None => requestContext
    end in
  if allowWatchBookmarks
  then setQueryParam (js "allowWatchBookmarks") (js "true") requestContext
  else requestContext.

(** Lines 223 to 256: the request as it is handed to the HTTP library. *)
Definition outbound (path : jsstring) (options : WatchOptions)
  : G RequestContext :=
  let timeoutMs := match timeoutMs options with Some ms => ms | None => 30000%Z end in
  let allowWatchBookmarks :=
    match allowWatchBookmarks options with Some b => b | None => true end in
  requestContext <- liftForeign (makeRequestContext (baseServer configuration) path GET) ;;
  let requestContext := addQuery options allowWatchBookmarks requestContext in
  requestContext <-
    match authMethods_default configuration with
    | Some auth => liftForeign (applySecurityAuthentication auth requestContext)
    | None => Gen.ret requestContext
    end ;;
  timeoutSignal <- liftJs (AbortSignal_timeout timeoutMs) ;;
  Gen.ret (setSignal timeoutSignal requestContext).

(** One pass of the loop of lines 284 to 294. *)
Definition frame (line : jsstring) : G unit :=
  try (data <- liftJs (JSON_parse line) ;;
       type_ <- liftJs (getProp data (js "type")) ;;
       object_ <- liftJs (getProp data (js "object")) ;;
       Gen.yield (mkWatchEvent type_ object_))
  catch (fun _ => Gen.ret tt).

(** Lines 270 to 294: what [watch] does with the response. *)
Definition consume (response : ResponseContext) : G unit :=
  if negb (httpStatusCode response =? 200)%Z then
    let statusText :=
      or_else (STATUS_CODES (httpStatusCode response)) (js "Unknown Error") in
    Gen.throw (ThrowWatchError
                 (mkWatchError statusText (Some (httpStatusCode response))))
  else
    let bodyText := body_text response in
    let lines :=
      filter (fun line => negb (eqb (trim line) []))
             (split LF bodyText) in
    Gen.for_of lines frame.

(** [async *watch(path, options = {})] *)
Definition watch (path : jsstring) (options : WatchOptions) : G unit :=
  requestContext <- outbound path options ;;
  response <-
    match send (httpApi configuration) requestContext with
    | inr response => Gen.ret response
    | inl (ErrorObject message) =>
        Gen.throw (ThrowWatchError (mkWatchError message None))
    | inl NotAnError =>
        Gen.throw (ThrowWatchError
                     (mkWatchError (js "Failed to connect to watch endpoint") None))
    end ;;
  consume response.
End Watch.

End WatchIterator.

(** ** [WatchApi]: the streaming variant *)

Module WatchApi.
Import JS.
Local Open Scope gen_scope.

(** Modelled from the spec: [ApiException] comes from the generated client
    (gen/), which is not among the sources.  It keeps what its constructor
    is given: the status code, a message, the body and the headers. *)
Record ApiException : Type := mkApiException {
  code : Z;
  message : jsstring;
  body : jsstring;
  headers : list (jsstring * jsstring)
}.

Inductive thrown : Type :=
  | ThrowApiException (e : ApiException)
  | ThrowJs (e : JsError)
  | ThrowForeign (e : rejection).

Inductive HttpMethod : Type := GET | POST | PUT | PATCH | DELETE.

Record AbortSignal : Type := mkSignal { timeout : Z }.

(** [AbortSignal.timeout(delay)]: a RangeError unless the delay is an
    unsigned 32-bit integer. *)
Definition AbortSignal_timeout (delay : Z) : JsError + AbortSignal :=
  if ((0 <=? delay) && (delay <=? 4294967295))%Z then inr (mkSignal delay)
  else inl RangeError.

(** [RequestInit] of node-fetch, as far as the source fills it. *)
Record RequestInit : Type := mkRequestInit {
  init_headers : list (jsstring * jsstring);
  init_signal : option AbortSignal;
  init_method : option HttpMethod
}.

(** [Response] of node-fetch: the body is a stream, given by the chunks of
    text it delivers before it ends. *)
Record Response : Type := mkResponse {
  status : Z;
  statusText : jsstring;
  response_body : list jsstring
}.

(** [response.text()] *)
Definition text (response : Response) : jsstring :=
  List.concat (response_body response).

Record Cluster : Type := mkCluster { server : jsstring }.

(** Modelled from the spec: [KubeConfig] (config.ts) is not among the
    sources.  It is the connection resolver: it names the current cluster,
    if any, and decorates the options of a request, which may fail. *)
Record KubeConfig : Type := mkKubeConfig {
  getCurrentCluster : option Cluster;
  applyToFetchOptions : RequestInit -> rejection + RequestInit
}.

(** An authentication method has [getCurrentCluster] exactly when it is a
    [KubeConfig]. *)
Inductive SecurityAuthentication : Type :=
  | IsKubeConfig (kubeConfig : KubeConfig)
  | OtherAuthentication.

Record Configuration : Type := mkConfiguration {
  authMethods_default : option SecurityAuthentication
}.

Record WatchApi : Type := mkWatchApi {
  configuration : Configuration;
  requestTimeoutMs : Z
}.

(** [new WatchApi(configuration)]; the field initializer gives the
    timeout. *)
Definition new (configuration : Configuration) : WatchApi :=
  mkWatchApi configuration 30000.

Definition setRequestTimeout (this : WatchApi) (timeout : Z) : WatchApi :=
  mkWatchApi (configuration this) timeout.

Definition G := Gen.t WatchEvent thrown.

Definition liftJs {A} (r : JsError + A) : G A :=
  match r with
  | inl e => Gen.throw (ThrowJs e)
  | inr a => Gen.ret a
  end.

Definition liftForeign {A} (r : rejection + A) : G A :=
  match r with
  | inl e => Gen.throw (ThrowForeign e)
  | inr a => Gen.ret a
  end.

Section Watch.
(** The runtime: [STATUS_CODES] of node:http, the [URL] constructor
    (which throws a TypeError for a text that is no URL), [fetch] of
    node-fetch, and JavaScript numbers with their [toString]. *)
Variable STATUS_CODES : Z -> option jsstring.
Variable new_URL : jsstring -> JsError + URL.
Variable fetch : URL -> RequestInit -> rejection + Response.
Variable number : Type.
Variable Number_toString : number -> jsstring.

(** A value of type [string | number | boolean]. *)
Inductive param : Type :=
  | PString (s : jsstring)
  | PNumber (n : number)
  | PBoolean (b : bool).

(** [val.toString()] *)
Definition toString (val : param) : jsstring :=
  match val with
  | PString s => s
  | PNumber n => Number_toString n
  | PBoolean true => js "true"
  | PBoolean false => js "false"
  end.

(** [Object.entries(queryParams)]: the own properties in order; [None]
    is a property whose value is [undefined]. *)
Definition entries := list (jsstring * option param).

(** Lines 157 to 161. *)
Fixpoint forward (queryParams : entries) (watchURL : URL) : URL :=
  match queryParams with
  | [] => watchURL
  | (key, val) :: more =>
      forward more
        match val with
        | Some v =>
            mkURL (origin_path watchURL)
                  (URLSearchParams.set key (toString v) (searchParams watchURL))
        | None => watchURL
        end
  end.

(** Lines 143 to 168: the URL and the options handed to [fetch]. *)
Definition outbound (this : WatchApi) (path : jsstring) (queryParams : entries)
  : G (URL * RequestInit) :=
  kubeConfig <-
    match authMethods_default (configuration this) with
    | Some (IsKubeConfig kubeConfig) => Gen.ret kubeConfig
    | _ =>
        Gen.throw (ThrowApiException
          (mkApiException 500
             (js "WatchApi requires KubeConfig as the authentication method")
             [] []))
    end ;;
  cluster <-
    match getCurrentCluster kubeConfig with
    | Some cluster => Gen.ret cluster
    | None =>
        Gen.throw (ThrowApiException
          (mkApiException 500 (js "No active cluster") [] []))
    end ;;
  watchURL <- liftJs (new_URL (server cluster ++ path)) ;;
  let watchURL :=
    mkURL (origin_path watchURL)
          (URLSearchParams.set (js "watch") (js "true") (searchParams watchURL)) in
  let watchURL := forward queryParams watchURL in
  requestInit <- liftForeign (applyToFetchOptions kubeConfig (mkRequestInit [] None None)) ;;
  timeoutSignal <- liftJs (AbortSignal_timeout (requestTimeoutMs this)) ;;
  let requestInit :=
    mkRequestInit (init_headers requestInit) (Some timeoutSignal) (Some GET) in
  Gen.ret (watchURL, requestInit).

(** One pass of the loop of lines 198 to 208. *)
Definition frame (line : jsstring) : G unit :=
  try (data <- liftJs (JSON_parse line) ;;
       type_ <- liftJs (getProp data (js "type")) ;;
       object_ <- liftJs (getProp data (js "object")) ;;
       Gen.yield (mkWatchEvent type_ object_))
  catch (fun _ => Gen.ret tt).

(** Lines 186 to 208: what [watch] does with the response. *)
Definition consume (response : Response) : G unit :=
  if negb (status response =? 200)%Z then
    let statusText :=
      or_else (Some (statusText response))
        (or_else (STATUS_CODES (status response)) (js "Internal Server Error")) in
    let body := text response in
    Gen.throw (ThrowApiException
                 (mkApiException (status response) statusText body []))
  else
    let lines := Readline.createInterface (response_body response) in
    Gen.for_of lines frame.

(** [async *watch(path, queryParams = {})].  The [finally] clause aborts
    the controller of the request; it changes neither what is yielded
    nor how the run ends. *)
Definition watch (this : WatchApi) (path : jsstring) (queryParams : entries)
  : G unit :=
  request <- outbound this path queryParams ;;
  response <- liftForeign (fetch (fst request) (snd request)) ;;
  consume response.
End Watch.

End WatchApi.

(** ** Fixtures: the mock collaborators of the test files *)

Module Fixtures.
Import JS.

(** Some entries of [STATUS_CODES]. *)
Definition STATUS_CODES (status : Z) : option jsstring :=
  if (status =? 200)%Z then Some (js "OK")
  else if (status =? 404)%Z then Some (js "Not Found")
  else if (status =? 410)%Z then Some (js "Gone")
  else if (status =? 500)%Z then Some (js "Internal Server Error")
  else None.

Definition server : jsstring := js "https://foo.company.com".
Definition pods : jsstring := js "/api/v1/namespaces/default/pods".

(** [Number.prototype.toString] on integers of moderate size: the decimal
    digits, after a minus sign for a negative number. *)
Definition Number_toString (n : Z) : jsstring :=
  js (NilZero.string_of_int (Z.to_int n)).

(** A [URL] constructor for texts without a query. *)
Definition new_URL (href : jsstring) : JsError + URL := inr (mkURL href []).

(** [createMockConfiguration(baseUrl, responseBody, statusCode)] of
    watch_iterator_test.ts: the HTTP library answers every request with
    the given body and status, and authentication does nothing. *)
Definition createMockConfiguration (baseUrl responseBody : jsstring)
  (statusCode : Z) : WatchIterator.Configuration :=
  WatchIterator.mkConfiguration
    (WatchIterator.mkServerConfiguration
       (fun path method =>
          inr (WatchIterator.mkRequestContext (mkURL (baseUrl ++ path) []) method [] None)))
    (Some (WatchIterator.mkSecurityAuthentication (fun r => inr r)))
    (WatchIterator.mkHttpLibrary
       (fun _ => inr (WatchIterator.mkResponseContext statusCode responseBody))).

(** [createKubeConfigForServer(serverUrl)] and the test server of
    watch_api_test.ts: every request is answered with the given body,
    delivered in chunks, and status. *)
Definition createKubeConfigForServer (serverUrl : jsstring) : WatchApi.KubeConfig :=
  WatchApi.mkKubeConfig (Some (WatchApi.mkCluster serverUrl)) (fun init => inr init).

Definition makeApiClient (kc : WatchApi.KubeConfig) : WatchApi.WatchApi :=
  WatchApi.new (WatchApi.mkConfiguration (Some (WatchApi.IsKubeConfig kc))).

Definition createTestServer (chunks : list jsstring) (statusCode : Z)
  : URL -> WatchApi.RequestInit -> rejection + WatchApi.Response :=
  fun _ _ => inr (WatchApi.mkResponse statusCode [] chunks).

(** The two watches the tests run. *)
Definition runIterator (responseBody : jsstring) (statusCode : Z)
  (options : WatchIterator.WatchOptions) : WatchIterator.G unit :=
  WatchIterator.watch STATUS_CODES
    (createMockConfiguration server responseBody statusCode) pods options.

Definition runApi (chunks : list jsstring) (statusCode : Z)
  (queryParams : WatchApi.entries Z) : WatchApi.G unit :=
  WatchApi.watch STATUS_CODES new_URL (createTestServer chunks statusCode)
    Number_toString
    (makeApiClient (createKubeConfigForServer server)) pods queryParams.

Definition added : jsstring :=
  jsq "{'type':'ADDED','object':{'apiVersion':'v1','kind':'Pod','metadata':{'name':'pod1'}}}".
Definition modified : jsstring :=
  jsq "{'type':'MODIFIED','object':{'apiVersion':'v1','kind':'Pod','metadata':{'name':'pod1'}}}".
Definition deleted : jsstring :=
  jsq "{'type':'DELETED','object':{'apiVersion':'v1','kind':'Pod','metadata':{'name':'pod1'}}}".
Definition gone : jsstring :=
  jsq "{'type':'ERROR','object':{'code':410,'message':'Gone','reason':'Expired'}}".

(** The query of the request that the mock HTTP library receives, as
    [url.search] gives it. *)
Definition iteratorSearch (options : WatchIterator.WatchOptions) : jsstring :=
  match Gen.outcome (WatchIterator.outbound
                       (createMockConfiguration server [] 200) pods options) with
  | Gen.Return requestContext => search (WatchIterator.url requestContext)
  | Gen.Throw _ => []
  end.

(** The query of the URL that the test server receives. *)
Definition apiSearch (queryParams : WatchApi.entries Z) : jsstring :=
  match Gen.outcome (WatchApi.outbound new_URL Number_toString
                       (makeApiClient (createKubeConfigForServer server))
                       pods queryParams) with
  | Gen.Return request => search (fst request)
  | Gen.Throw _ => []
  end.

(** The options of the tests of the query parameters. *)
Definition testOptions : WatchIterator.WatchOptions :=
  WatchIterator.mkWatchOptions (Some (js "12345")) (Some (js "app=nginx"))
    (Some (js "metadata.name=my-pod")) None None.

Definition testQueryParams : WatchApi.entries Z :=
  [(js "resourceVersion", Some (WatchApi.PString Z (js "12345")));
   (js "labelSelector", Some (WatchApi.PString Z (js "app=nginx")));
   (js "fieldSelector", Some (WatchApi.PString Z (js "metadata.name=my-pod")));
   (js "allowWatchBookmarks", Some (WatchApi.PBoolean Z true))].

(** The requests of these watches, written out. *)
Definition requestOf (params : URLSearchParams.t) : WatchIterator.RequestContext :=
  WatchIterator.mkRequestContext (mkURL (server ++ pods) params)
    WatchIterator.GET [] (Some (WatchIterator.mkSignal 30000)).

Definition testRequest : WatchIterator.RequestContext :=
  requestOf [(js "watch", js "true");
             (js "resourceVersion", js "12345");
             (js "labelSelector", js "app=nginx");
             (js "fieldSelector", js "metadata.name=my-pod");
             (js "allowWatchBookmarks", js "true")].

Definition defaultRequest : WatchIterator.RequestContext :=
  requestOf [(js "watch", js "true"); (js "allowWatchBookmarks", js "true")].

Definition urlOf (params : URLSearchParams.t) : URL := mkURL (server ++ pods) params.

Definition defaultInit : WatchApi.RequestInit :=
  WatchApi.mkRequestInit [] (Some (WatchApi.mkSignal 30000)) (Some WatchApi.GET).

Definition noBookmarks : WatchApi.entries Z :=
  [(js "allowWatchBookmarks", Some (WatchApi.PBoolean Z false))].


(** The bodies of the tests. *)
Definition threeEvents : jsstring := join [LF] [added; modified; deleted].
Definition invalidLine : jsstring := jsq "{'invalid json".
Definition withInvalid : jsstring := join [LF] [added; invalidLine; added].
Definition withBlank : jsstring := join [LF] [added; js "   "; []; added].
Definition withError : jsstring := join [LF] [added; gone].

(** A body in two chunks that break a line. *)
Definition inChunks (bodyText : jsstring) : list jsstring :=
  [firstn 100 bodyText; skipn 100 bodyText].

(** Collaborators that fail: an HTTP library and a [fetch] that reject
    every request, and an authentication method that rejects. *)
Definition refused : rejection := ErrorObject (js "connect ECONNREFUSED").
Definition expired : rejection := ErrorObject (js "token expired").

Definition createUnreachableConfiguration (baseUrl : jsstring)
  (reason : rejection) : WatchIterator.Configuration :=
  WatchIterator.mkConfiguration
    (WatchIterator.mkServerConfiguration
       (fun path method =>
          inr (WatchIterator.mkRequestContext (mkURL (baseUrl ++ path) []) method [] None)))
    (Some (WatchIterator.mkSecurityAuthentication (fun r => inr r)))
    (WatchIterator.mkHttpLibrary (fun _ => inl reason)).

Definition createUnauthorizedConfiguration (baseUrl : jsstring)
  (reason : rejection) (httpApi : WatchIterator.HttpLibrary)
  : WatchIterator.Configuration :=
  WatchIterator.mkConfiguration
    (WatchIterator.mkServerConfiguration
       (fun path method =>
          inr (WatchIterator.mkRequestContext (mkURL (baseUrl ++ path) []) method [] None)))
    (Some (WatchIterator.mkSecurityAuthentication (fun _ => inl reason)))
    httpApi.

Definition unreachable (reason : rejection)
  : URL -> WatchApi.RequestInit -> rejection + WatchApi.Response :=
  fun _ _ => inl reason.

(** An authentication method that writes a header and a signal of its
    own. *)
Definition createSigningConfiguration (baseUrl responseBody : jsstring)
  : WatchIterator.Configuration :=
  WatchIterator.mkConfiguration
    (WatchIterator.mkServerConfiguration
       (fun path method =>
          inr (WatchIterator.mkRequestContext (mkURL (baseUrl ++ path) []) method [] None)))
    (Some (WatchIterator.mkSecurityAuthentication
             (fun r =>
                inr (WatchIterator.mkRequestContext (WatchIterator.url r)
                       (WatchIterator.httpMethod r)
                       [(js "Authorization", js "Bearer token")]
                       (Some (WatchIterator.mkSignal 1000))))))
    (WatchIterator.mkHttpLibrary
       (fun _ => inr (WatchIterator.mkResponseContext 200 responseBody))).

(** A [KubeConfig] whose [applyToFetchOptions] writes a header, a method
    and a signal of its own. *)
Definition createSigningKubeConfig (serverUrl : jsstring) : WatchApi.KubeConfig :=
  WatchApi.mkKubeConfig (Some (WatchApi.mkCluster serverUrl))
    (fun init =>
       inr (WatchApi.mkRequestInit [(js "Authorization", js "Bearer token")]
              (Some (WatchApi.mkSignal 1000)) (Some WatchApi.POST))).

(** A [URL] constructor that refuses every text, and a [KubeConfig] whose
    [applyToFetchOptions] rejects. *)
Definition new_URL_invalid (href : jsstring) : JsError + URL := inl TypeError.

Definition createExpiredKubeConfig (serverUrl : jsstring) : WatchApi.KubeConfig :=
  WatchApi.mkKubeConfig (Some (WatchApi.mkCluster serverUrl)) (fun _ => inl expired).

(** The events of the tests, as values. *)
Definition pod1 : JSON :=
  JObject [(js "apiVersion", JString (js "v1")); (js "kind", JString (js "Pod"));
           (js "metadata", JObject [(js "name", JString (js "pod1"))])].

Definition testEvents : list (JSON * JSON) :=
  [(JString (js "ADDED"), pod1); (JString (js "MODIFIED"), pod1);
   (JString (js "DELETED"), pod1)].


(** A server configuration whose requests bring a query of their own. *)
Definition createConfigurationWith (params : URLSearchParams.t)
  (baseUrl responseBody : jsstring) : WatchIterator.Configuration :=
  WatchIterator.mkConfiguration
    (WatchIterator.mkServerConfiguration
       (fun path method =>
          inr (WatchIterator.mkRequestContext (mkURL (baseUrl ++ path) params)
                 method [] None)))
    (Some (WatchIterator.mkSecurityAuthentication (fun r => inr r)))
    (WatchIterator.mkHttpLibrary
       (fun _ => inr (WatchIterator.mkResponseContext 200 responseBody))).

(** A client whose authentication method is no [KubeConfig], and one whose
    [KubeConfig] has no current cluster. *)
Definition makeForeignClient : WatchApi.WatchApi :=
  WatchApi.new (WatchApi.mkConfiguration (Some WatchApi.OtherAuthentication)).

Definition makeDetachedClient : WatchApi.WatchApi :=
  WatchApi.new
    (WatchApi.mkConfiguration
       (Some (WatchApi.IsKubeConfig
                (WatchApi.mkKubeConfig None (fun init => inr init))))).

End Fixtures.

(** * The vocabulary of the properties *)

Section Vocabulary.
Import JS.
Local Open Scope N_scope.

(** ** Lines and frames *)

(** A blank line: empty, or nothing but white space. *)
Definition blank (line : jsstring) : bool := forallb isTrimmed line.

Definition lineFree (sep : N) (line : jsstring) : bool :=
  forallb (fun c => negb (c =? sep)) line.

(** What separates the lines of a body: a line feed, alone or after a
    carriage return. *)
Definition newline (separator : jsstring) : Prop :=
  separator = [LF] \/ separator = [CR; LF].

(** The lines of a body read whole: the pieces between line feeds. *)
Definition linesOfText (bodyText : jsstring) : list jsstring :=
  split LF bodyText.

(** The lines of a body read as a stream: the pieces of its text between
    line endings. *)
Definition linesOfStream (chunks : list jsstring) : list jsstring :=
  Readline.splitLines (List.concat chunks).

(** What a line gives when it is decoded as a frame: nothing when it is
    no JSON text or the text [null]; else one event with the members
    [type] and [object] of the value, whatever they are. *)
Definition eventOf (line : jsstring) : option WatchEvent :=
  match JSON_parse line with
  | inl _ => None
  | inr JNull => None
  | inr (JObject members) =>
      Some (mkWatchEvent (ownProperty (js "type") members)
                         (ownProperty (js "object") members))
  | inr _ => Some (mkWatchEvent undefined undefined)
  end.

Definition contribution (line : jsstring) : list WatchEvent :=
  match eventOf line with
  | Some event => [event]
  | None => []
  end.

Arguments contribution : simpl never.

(** [data.key], or [undefined] where the read throws. *)
Definition member (data : JSON) (key : jsstring) : jsvalue :=
  match getProp data key with
  | inr v => v
  | inl _ => undefined
  end.

(** What the loops yield for a line whose JSON value is [data]. *)
Definition yieldOf (data : JSON) : list WatchEvent :=
  match data with
  | JNull => []
  | _ => [mkWatchEvent (member data (js "type")) (member data (js "object"))]
  end.

(** A line is syntactically valid when it is a JSON text. *)
Definition valid (line : jsstring) : bool :=
  match JSON_parse line with
  | inr _ => true
  | inl _ => false
  end.

(** The field [name] of a JSON object, in the words of the wire format
    and not of the code that reads it: the value that stands with the name
    among the members, the last one when the name comes more than once,
    and [undefined] when no member has the name. *)
Definition fieldNamed (name : jsstring) (members : list (jsstring * JSON))
  : jsvalue :=
  match find (fun m => eqb (fst m) name) (rev members) with
  | Some m => Val (snd m)
  | None => undefined
  end.

(** The [type] field of a line. *)
Definition typeField (line : jsstring) : jsvalue :=
  match JSON_parse line with
  | inr (JObject members) => fieldNamed (js "type") members
  | _ => undefined
  end.

(** The [type] fields of the valid, non-blank lines, in order. *)
Definition typeFields (lines : list jsstring) : list jsvalue :=
  map typeField (filter (fun l => valid l && negb (blank l)) lines).

(** A well-formed body holds frames only: every line that is a JSON text
    is a JSON object. *)
Definition frameOrNoise (line : jsstring) : bool :=
  match JSON_parse line with
  | inr (JObject _) => true
  | inr _ => false
  | inl _ => true
  end.

Definition wellFormed (lines : list jsstring) : Prop :=
  forallb frameOrNoise lines = true.

(** A line that holds no frame: blank, or no JSON text. *)
Definition noise (line : jsstring) : Prop :=
  blank line = true \/ valid line = false.

(** ** Requests and responses *)

(** The HTTP library answers the request of this watch with [response]. *)
Definition answersIterator (cfg : WatchIterator.Configuration) (path : jsstring)
  (options : WatchIterator.WatchOptions)
  (response : WatchIterator.ResponseContext) : Prop :=
  exists requestContext,
    Gen.outcome (WatchIterator.outbound cfg path options) =
      Gen.Return requestContext /\
    WatchIterator.send (WatchIterator.httpApi cfg) requestContext = inr response.

(** [fetch] answers the request of this watch with [response]. *)
Definition answersApi {number : Type} (new_URL : jsstring -> JsError + URL)
  (fetch : URL -> WatchApi.RequestInit -> rejection + WatchApi.Response)
  (Number_toString : number -> jsstring)
  (this : WatchApi.WatchApi) (path : jsstring)
  (queryParams : WatchApi.entries number) (response : WatchApi.Response) : Prop :=
  exists watchURL requestInit,
    Gen.outcome (WatchApi.outbound new_URL Number_toString this path queryParams) =
      Gen.Return (watchURL, requestInit) /\
    fetch watchURL requestInit = inr response.

Definition query (requestContext : WatchIterator.RequestContext)
  : URLSearchParams.t :=
  searchParams (WatchIterator.url requestContext).

(** Authentication that decorates a request without touching its URL. *)
Definition keepsURL (cfg : WatchIterator.Configuration) : Prop :=
  forall auth r r',
    WatchIterator.authMethods_default cfg = Some auth ->
    WatchIterator.applySecurityAuthentication auth r = inr r' ->
    WatchIterator.url r' = WatchIterator.url r.

(** The query of [url] holds [name] once, URL-encoded, with [value]: one
    tuple bears the name, and the text of the query has, between the
    tuples of other names, the encoded name, an equals sign and the
    encoded value. *)
Definition sentOnce (name value : jsstring) (url : URL) : Prop :=
  exists before after,
    searchParams url = before ++ (name, value) :: after /\
    URLSearchParams.has name before = false /\
    URLSearchParams.has name after = false /\
    search url =
      chr "?" :: join [chr "&"]
        (map URLSearchParams.component before ++
         (URLSearchParams.encode name ++
          chr "=" :: URLSearchParams.encode value) ::
         map URLSearchParams.component after).

(** The options that the interface of the watch names. *)
Definition recognized (name : jsstring) : bool :=
  eqb name (js "resourceVersion") || eqb name (js "labelSelector") ||
  eqb name (js "fieldSelector") || eqb name (js "allowWatchBookmarks").

(** A string of UTF-16 code units. *)
Definition wellFormedString (s : jsstring) : Prop :=
  Forall (fun c => c < 65536) s.

(** The code units of an encoded text: letters, digits, the four marks
    that stay, the plus sign of a space and the percent sign of an
    escape. *)
Definition urlSafe (c : N) : bool :=
  URLSearchParams.isAlphanumeric c || (c =? chr "*") || (c =? chr "-") || (c =? chr ".") ||
  (c =? chr "_") || (c =? chr "+") || (c =? chr "%").

(** ** The states of the line reader *)

(** The lines that can hold a frame: the empty ones are dropped. *)
Definition dropEmpty (lines : list jsstring) : list jsstring :=
  filter (fun l => match l with [] => false | _ :: _ => true end) lines.

(** What follows a carriage return that ended the text before [b]. *)
Definition afterCR (b : jsstring) : list jsstring :=
  match b with
  | d :: r => if d =? LF then Readline.splitLines r else Readline.splitLines b
  | [] => Readline.splitLines b
  end.

(** The states the reader goes through: the pending line holds no line
    ending, and it is empty right after a carriage return. *)
Definition wf (rl : Readline.Interface) : Prop :=
  Readline.hasLineEnding (Readline.line_buffer rl) = false /\
  (Readline.sawReturn rl = true -> Readline.line_buffer rl = []).

(** The text a state stands for: what was read and is not yet part of a
    delivered line. *)
Definition pending (rl : Readline.Interface) : jsstring :=
  if Readline.sawReturn rl then [CR] else Readline.line_buffer rl.

(** ** Queries written out *)

(** The tuple of an option that may be absent. *)
Definition optional (name : jsstring) (value : option jsstring)
  : URLSearchParams.t :=
  match value with
  | Some v => [(name, v)]
  | None => []
  end.

(** The tuples that the options of the whole-body variant stand for. *)
Definition optionTuples (options : WatchIterator.WatchOptions)
  : URLSearchParams.t :=
  (js "watch", js "true") ::
  optional (js "resourceVersion") (WatchIterator.resourceVersion options) ++
  optional (js "labelSelector") (WatchIterator.labelSelector options) ++
  optional (js "fieldSelector") (WatchIterator.fieldSelector options) ++
  match WatchIterator.allowWatchBookmarks options with
  | Some false => []
  | _ => [(js "allowWatchBookmarks", js "true")]
  end.

(** The tuples that the defined entries of [queryParams] stand for, in the
    order of the entries. *)
Definition definedEntries {number : Type} (Number_toString : number -> jsstring)
  (queryParams : WatchApi.entries number) : URLSearchParams.t :=
  flat_map (fun entry =>
              match snd entry with
              | Some v => [(fst entry, WatchApi.toString Number_toString v)]
              | None => []
              end) queryParams.

(** The code units of a serialized query: those of the encoded names and
    values, and the three marks that structure it. *)
Definition inQuery (c : N) : bool :=
  urlSafe c || (c =? chr "?") || (c =? chr "&") || (c =? chr "=").

Definition wellFormedTuples (params : URLSearchParams.t) : Prop :=
  Forall (fun p => wellFormedString (fst p) /\ wellFormedString (snd p)) params.

(** How often a code unit stands in a text. *)
Definition occurrences (c : N) (s : jsstring) : nat :=
  List.length (filter (N.eqb c) s).

(** A text whose only line endings are line feeds: it holds no carriage
    return. *)
Definition lineFeedsOnly (s : jsstring) : bool :=
  forallb (fun c => negb (Readline.isLineEnding c) || (c =? LF)) s.

(** The outcome of a parser on a text that one more code unit follows:
    the code unit stays in what is left. *)
Definition followedBy {A : Type} (c : N) (r : result A) : result A :=
  match r with
  | Parsed a rest => Parsed a (rest ++ [c])
  | Rejected => Rejected
  | Exhausted => Exhausted
  end.

Definition leftWith {A : Type} (c : N) (r : option (A * jsstring))
  : option (A * jsstring) :=
  match r with
  | Some (a, rest) => Some (a, rest ++ [c])
  | None => None
  end.

(** A text of JSON white space: spaces, tabs, carriage returns and line
    feeds. *)
Definition jsonWhite (s : jsstring) : bool := forallb isJsonWhiteSpace s.

(** ** Values that are written and read back *)

(** The lexeme of an integer as JavaScript writes it: an optional minus
    sign and at most fifteen digits, without a leading zero and without a
    negative zero. *)
Definition canonicalInteger (lexeme : jsstring) : bool :=
  match snd (minusSign lexeme) with
  | [] => false
  | d :: ds =>
      forallb isDigit (d :: ds) && (List.length (d :: ds) <=? 15)%nat &&
      (if d =? chr "0"
       then match ds, fst (minusSign lexeme) with
            | [], [] => true
            | _, _ => false
            end
       else true)
  end.

Definition codeUnits (s : jsstring) : bool := forallb (fun c => c <? 65536) s.

Definition startsWithDigit (s : jsstring) : bool :=
  match s with
  | c :: _ => isDigit c
  | [] => false
  end.

Fixpoint distinct (names : list jsstring) : bool :=
  match names with
  | [] => true
  | name :: more => negb (existsb (eqb name) more) && distinct more
  end.

(** A value of JavaScript as [JSON.parse] gives it and [JSON.stringify]
    writes it in the same form: strings of code units, canonical
    integers, objects without a name twice and without a name that starts
    with a digit (the names that JavaScript moves to the front). *)
Fixpoint plain (value : JSON) : bool :=
  match value with
  | JNull | JBool _ => true
  | JNumber lexeme => canonicalInteger lexeme
  | JString s => codeUnits s
  | JArray items => forallb plain items
  | JObject members =>
      forallb (fun m => codeUnits (fst m) && negb (startsWithDigit (fst m)) &&
                        plain (snd m)) members &&
      distinct (map fst members)
  end.

(** The code units of the strings and of the names of a value. *)
Fixpoint codeUnitsOf (value : JSON) : list N :=
  match value with
  | JString s => s
  | JArray items => flat_map codeUnitsOf items
  | JObject members => flat_map (fun m => fst m ++ codeUnitsOf (snd m)) members
  | _ => []
  end.

(** A code unit of the text of a value: a printable character of ASCII,
    or a code unit of one of its strings that is no control character. *)
Definition written (value : JSON) (c : N) : Prop :=
  32 <= c /\ (c < 128 \/ In c (codeUnitsOf value)).

(** What follows a value in a text cannot be taken for more of a
    number. *)
Definition ends (rest : jsstring) : bool :=
  match rest with
  | [] => true
  | c :: _ =>
      negb (isDigit c) && negb (c =? chr ".") && negb (c =? chr "e") &&
      negb (c =? chr "E")
  end.

(** The fuel that reading a value back takes. *)
Fixpoint size (value : JSON) : nat :=
  match value with
  | JArray items => S (list_sum (map (fun item => S (size item)) items))
  | JObject members => S (list_sum (map (fun m => S (size (snd m))) members))
  | _ => 1
  end.

(** The text of a member. *)
Definition memberText (m : jsstring * JSON) : jsstring :=
  QUOTE :: quoteJSONString (fst m) ++ QUOTE :: chr ":" :: JSON_stringify (snd m).

(** A value that is read back from its text: on enough fuel, [parseValue]
    gives the value and what followed the text. *)
Definition readsBack (value : JSON) : Prop :=
  plain value = true ->
  forall fuel rest,
    (size value <= fuel)%nat -> ends rest = true ->
    parseValue fuel (JSON_stringify value ++ rest) = Parsed value rest.

(** The line of an event, as the test servers write it, and the event. *)
Definition frameOf (event : JSON * JSON) : jsstring :=
  JSON_stringify (JObject [(js "type", fst event); (js "object", snd event)]).

Definition eventOfFrame (event : JSON * JSON) : WatchEvent :=
  mkWatchEvent (Val (fst event)) (Val (snd event)).

(** The entries of [queryParams] are strings: their names, and the texts
    of their values. *)
Definition wellFormedEntries {number : Type} (Number_toString : number -> jsstring)
  (queryParams : WatchApi.entries number) : Prop :=
  wellFormedTuples (definedEntries Number_toString queryParams).

End Vocabulary.

Arguments contribution : simpl never.

(** * Properties *)

Unset Implicit Arguments.

(** ** Generators *)

Section GenFacts.
Variables Y E : Type.

Lemma bind_ret_l {A B} (a : A) (k : A -> Gen.t Y E B) :
  Gen.bind (Gen.ret a) k = k a.
Proof. unfold Gen.bind, Gen.ret. destruct (k a); reflexivity. Qed.

Lemma bind_throw {A B} (e : E) (k : A -> Gen.t Y E B) :
  Gen.bind (Gen.throw e) k = Gen.throw e.
Proof. reflexivity. Qed.

(** A loop whose body only yields, and never throws, yields the
    contributions of its items one after the other. *)
Lemma for_of_yields {X} (f : X -> list Y) (body : X -> Gen.t Y E unit)
  (xs : list X) :
  (forall x, body x = (f x, Gen.Return tt)) ->
  Gen.for_of xs body = (flat_map f xs, Gen.Return tt).
Proof.
  intros Hbody. induction xs as [|x xs IH]; simpl.
  - reflexivity.
  - rewrite Hbody, IH. reflexivity.
Qed.
End GenFacts.

(** ** Strings *)

Section StringFacts.
Import JS.
Local Open Scope N_scope.

Lemma jseqb_spec (s t : jsstring) : reflect (s = t) (eqb s t).
Proof.
  revert t; induction s as [|c s IH]; intros [|d t]; simpl;
    try (constructor; congruence).
  destruct (N.eqb_spec c d) as [->|Hcd]; simpl.
  - destruct (IH t) as [->|Hst]; constructor; congruence.
  - constructor; congruence.
Qed.

Lemma jseqb_refl (s : jsstring) : eqb s s = true.
Proof. destruct (jseqb_spec s s); congruence. Qed.

Lemma trimStart_blank (s : jsstring) : blank s = true -> trimStart s = [].
Proof.
  induction s as [|c s IH]; simpl; [reflexivity|].
  intros H. apply andb_true_iff in H as [Hc Hs]. rewrite Hc. auto.
Qed.

Lemma trimStart_nil_blank (s : jsstring) : trimStart s = [] -> blank s = true.
Proof.
  induction s as [|c s IH]; simpl; [reflexivity|].
  destruct (isTrimmed c); simpl; [exact IH | discriminate].
Qed.

Lemma blank_app (s t : jsstring) : blank (s ++ t) = blank s && blank t.
Proof. apply forallb_app. Qed.

Lemma blank_rev (s : jsstring) : blank (rev s) = blank s.
Proof.
  induction s as [|c s IH]; simpl; [reflexivity|].
  rewrite blank_app, IH. simpl. rewrite andb_true_r. apply andb_comm.
Qed.

Lemma trimStart_suffix (s : jsstring) :
  exists p, s = p ++ trimStart s /\ blank p = true.
Proof.
  induction s as [|c s [p [Hp Hb]]]; simpl.
  - exists []. split; reflexivity.
  - destruct (isTrimmed c) eqn:Hc.
    + exists (c :: p). simpl. rewrite Hc, Hb. split; [congruence | reflexivity].
    + exists []. split; reflexivity.
Qed.

(** [line.trim() !== ''] says that the line is not blank. *)
Lemma trim_nil_iff (s : jsstring) : eqb (trim s) [] = blank s.
Proof.
  destruct (blank s) eqn:Hb.
  - unfold trim, trimEnd. rewrite (trimStart_blank s Hb). reflexivity.
  - destruct (jseqb_spec (trim s) []) as [Ht|]; [|reflexivity].
    unfold trim, trimEnd in Ht.
    assert (H1 : trimStart (rev (trimStart s)) = []).
    { apply (f_equal (@rev N)) in Ht. rewrite rev_involutive in Ht. exact Ht. }
    apply trimStart_nil_blank in H1. rewrite blank_rev in H1.
    destruct (trimStart_suffix s) as [p [Hp Hbp]].
    rewrite Hp, blank_app, Hbp, H1 in Hb. discriminate.
Qed.

(** *** [split] and [join] *)

Lemma split_not_nil (sep : N) (s : jsstring) : split sep s <> [].
Proof.
  destruct s as [|c s]; simpl; [discriminate|].
  destruct (c =? sep); [discriminate|].
  destruct (split sep s); discriminate.
Qed.

Lemma split_lineFree (sep : N) (s : jsstring) :
  lineFree sep s = true -> split sep s = [s].
Proof.
  induction s as [|c s IH]; simpl; [reflexivity|].
  intros H. apply andb_true_iff in H as [Hc Hs].
  apply negb_true_iff in Hc. rewrite Hc, (IH Hs). reflexivity.
Qed.

Lemma split_app_sep (sep : N) (s t : jsstring) :
  lineFree sep s = true ->
  split sep (s ++ sep :: t) = s :: split sep t.
Proof.
  induction s as [|c s IH]; simpl.
  - intros _. rewrite N.eqb_refl. reflexivity.
  - intros H. apply andb_true_iff in H as [Hc Hs].
    apply negb_true_iff in Hc. rewrite Hc, (IH Hs). reflexivity.
Qed.

(** Splitting undoes joining, for lines without the separator. *)
Lemma split_join (sep : N) (line : jsstring) (lines : list jsstring) :
  Forall (fun l => lineFree sep l = true) (line :: lines) ->
  split sep (join [sep] (line :: lines)) = line :: lines.
Proof.
  revert line. induction lines as [|l lines IH]; intros line H.
  - simpl. apply split_lineFree. inversion H; assumption.
  - inversion H as [|? ? Hl Hrest]; subst.
    change (join [sep] (line :: l :: lines))
      with (line ++ sep :: join [sep] (l :: lines)).
    rewrite split_app_sep by exact Hl. rewrite IH by exact Hrest.
    reflexivity.
Qed.

Lemma split_app (sep : N) (s t : jsstring) :
  split sep (s ++ sep :: t) = split sep s ++ split sep t.
Proof.
  induction s as [|c s IH]; simpl.
  - rewrite N.eqb_refl. reflexivity.
  - rewrite IH. destruct (c =? sep); [reflexivity|].
    destruct (split sep s) eqn:E; [|reflexivity].
    exfalso. exact (split_not_nil sep s E).
Qed.

(** The pieces of a blank text are blank. *)
Lemma split_blank (sep : N) (s : jsstring) :
  blank s = true -> Forall (fun l => blank l = true) (split sep s).
Proof.
  induction s as [|c s IH]; simpl.
  - intros _. repeat constructor.
  - intros H. apply andb_true_iff in H as [Hc Hs].
    specialize (IH Hs).
    destruct (c =? sep); [constructor; [reflexivity | exact IH]|].
    destruct (split sep s) as [|p ps]; inversion IH; subst;
      constructor; simpl; try rewrite Hc; auto.
Qed.
End StringFacts.

(** ** The line reader *)

Functional Scheme splitLines_ind := Induction for Readline.splitLines Sort Prop.

Section ReadlineFacts.
Import JS Readline.
Local Open Scope N_scope.

Lemma dropEmpty_app (l1 l2 : list jsstring) :
  dropEmpty (l1 ++ l2) = dropEmpty l1 ++ dropEmpty l2.
Proof. apply filter_app. Qed.

Lemma splitLines_not_nil (s : jsstring) : splitLines s <> [].
Proof.
  functional induction (splitLines s); try discriminate; congruence.
Qed.

Lemma endsWithCR_cons (c : N) (r : jsstring) :
  endsWithCR (c :: r) = match r with [] => c =? CR | _ :: _ => endsWithCR r end.
Proof.
  unfold endsWithCR. simpl. destruct r as [|d r]; [reflexivity|].
  simpl. destruct (rev r ++ [d]) eqn:E; [|reflexivity].
  destruct (rev r); discriminate.
Qed.

Lemma endsWithCR_hasLineEnding (s : jsstring) :
  endsWithCR s = true -> hasLineEnding s = true.
Proof.
  induction s as [|c s IH]; [discriminate|].
  rewrite endsWithCR_cons. simpl. destruct s as [|d s].
  - intros H. apply N.eqb_eq in H. subst c. reflexivity.
  - intros H. rewrite (IH H). apply orb_true_r.
Qed.

Lemma CR_isLineEnding (c : N) : (c =? CR) = true -> isLineEnding c = true.
Proof. intros H. apply N.eqb_eq in H. subst c. reflexivity. Qed.

Lemma isLineEnding_false (c : N) :
  isLineEnding c = false -> (c =? LF) = false /\ (c =? CR) = false.
Proof. unfold isLineEnding. apply orb_false_iff. Qed.

(** A text without line ending is one piece, and conversely. *)
Lemma splitLines_plain (s : jsstring) :
  hasLineEnding s = false -> splitLines s = [s].
Proof.
  induction s as [|c s IH]; [reflexivity|].
  simpl. intros H. apply orb_false_iff in H as [Hc Hs].
  apply isLineEnding_false in Hc as [Hlf Hcr].
  rewrite Hcr, Hlf, (IH Hs). reflexivity.
Qed.

Lemma splitLines_one (s p : jsstring) :
  splitLines s = [p] -> hasLineEnding s = false.
Proof.
  revert p. functional induction (splitLines s); intros p H;
    try discriminate; try reflexivity.
  - exfalso. apply (splitLines_not_nil r'). congruence.
  - exfalso. apply (splitLines_not_nil (d :: r')). congruence.
  - exfalso. apply (splitLines_not_nil r). congruence.
  - exfalso. exact (splitLines_not_nil r e2).
  - assert (pieces = []) by congruence. subst pieces. simpl.
    unfold isLineEnding. rewrite e0, e1. exact (IHl _ e2).
Qed.

(** No piece holds a line ending. *)
Lemma splitLines_pieces (s : jsstring) :
  Forall (fun p => hasLineEnding p = false) (splitLines s).
Proof.
  functional induction (splitLines s); repeat constructor; auto.
  - exfalso. exact (splitLines_not_nil r e2).
  - rewrite e2 in IHl. inversion IHl; subst.
    simpl. unfold isLineEnding. rewrite e0, e1. assumption.
  - rewrite e2 in IHl. inversion IHl; assumption.
Qed.

Lemma removelast_cons {A} (x : A) (l : list A) :
  l <> [] -> removelast (x :: l) = x :: removelast l.
Proof. destruct l; [congruence | reflexivity]. Qed.

Lemma last_cons {A} (x : A) (l : list A) (d : A) :
  l <> [] -> last (x :: l) d = last l d.
Proof. destruct l; [congruence | reflexivity]. Qed.

(** One step of [splitLines]. *)
Lemma splitLines_CRLF (c d : N) (r : jsstring) :
  (c =? CR) = true -> (d =? LF) = true ->
  splitLines (c :: d :: r) = [] :: splitLines r.
Proof. intros Hc Hd. simpl. rewrite Hc, Hd. reflexivity. Qed.

Lemma splitLines_CR (c d : N) (r : jsstring) :
  (c =? CR) = true -> (d =? LF) = false ->
  splitLines (c :: d :: r) = [] :: splitLines (d :: r).
Proof. intros Hc Hd. simpl. rewrite Hc, Hd. reflexivity. Qed.

Lemma splitLines_LF (c : N) (r : jsstring) :
  (c =? CR) = false -> (c =? LF) = true ->
  splitLines (c :: r) = [] :: splitLines r.
Proof. intros Hc Ht. simpl. rewrite Hc, Ht. reflexivity. Qed.

Lemma splitLines_plain_cons (c : N) (r : jsstring) :
  (c =? CR) = false -> (c =? LF) = false ->
  splitLines (c :: r) =
  match splitLines r with
  | piece :: pieces => (c :: piece) :: pieces
  | [] => [[c]]
  end.
Proof. intros Hc Ht. simpl. rewrite Hc, Ht. reflexivity. Qed.

(** The pieces of a text that comes in two parts. *)
Lemma splitLines_app (a b : jsstring) :
  splitLines (a ++ b) =
  removelast (splitLines a) ++
  (if endsWithCR a then afterCR b
   else splitLines (last (splitLines a) [] ++ b)).
Proof.
  functional induction (splitLines a).
  - reflexivity.
  - apply N.eqb_eq in e0. subst c.
    destruct b as [|d r]; [reflexivity|].
    simpl. destruct (d =? LF); reflexivity.
  - rewrite <- !app_comm_cons, splitLines_CRLF, IHl by assumption.
    rewrite removelast_cons, last_cons by apply splitLines_not_nil.
    rewrite !endsWithCR_cons.
    destruct r' as [|x r']; [|reflexivity].
    apply N.eqb_eq in e2. subst d. reflexivity.
  - rewrite <- !app_comm_cons, splitLines_CR by assumption.
    rewrite app_comm_cons, IHl.
    rewrite removelast_cons, last_cons by apply splitLines_not_nil.
    rewrite (endsWithCR_cons c). reflexivity.
  - rewrite <- app_comm_cons, splitLines_LF, IHl by assumption.
    rewrite removelast_cons, last_cons by apply splitLines_not_nil.
    rewrite (endsWithCR_cons c).
    destruct r as [|x r]; [|reflexivity].
    rewrite e0. reflexivity.
  - exfalso. exact (splitLines_not_nil r e2).
  - rewrite <- app_comm_cons, splitLines_plain_cons, IHl, e2 by assumption.
    rewrite (endsWithCR_cons c).
    destruct pieces as [|q qs].
    + assert (Hr : hasLineEnding r = false) by exact (splitLines_one _ _ e2).
      assert (Hcr : endsWithCR r = false).
      { destruct (endsWithCR r) eqn:E; [|reflexivity].
        apply endsWithCR_hasLineEnding in E. congruence. }
      rewrite Hcr. simpl removelast. simpl last. rewrite !app_nil_l.
      rewrite <- app_comm_cons, splitLines_plain_cons by assumption.
      destruct r; [rewrite e0|]; reflexivity.
    + simpl removelast. simpl last.
      destruct r as [|x r]; [discriminate|]. reflexivity.
Qed.

Lemma splitLines_plain_app (l s : jsstring) :
  hasLineEnding l = false ->
  splitLines (l ++ s) =
  match splitLines s with
  | piece :: pieces => (l ++ piece) :: pieces
  | [] => [l]
  end.
Proof.
  induction l as [|c l IH]; intros H.
  - simpl. destruct (splitLines s) eqn:E; [|reflexivity].
    exfalso. exact (splitLines_not_nil s E).
  - simpl in H. apply orb_false_iff in H as [Hc Hl].
    apply isLineEnding_false in Hc as [Hlf Hcr].
    rewrite <- app_comm_cons, splitLines_plain_cons, (IH Hl) by assumption.
    destruct (splitLines s); reflexivity.
Qed.

(** Splitting undoes joining with line feeds, for lines without line
    ending. *)
Lemma splitLines_join (line : jsstring) (lines : list jsstring) :
  Forall (fun l => hasLineEnding l = false) (line :: lines) ->
  splitLines (join [LF] (line :: lines)) = line :: lines.
Proof.
  revert line. induction lines as [|l lines IH]; intros line H.
  - simpl. apply splitLines_plain. inversion H; assumption.
  - inversion H as [|? ? Hl Hrest]; subst.
    change (join [LF] (line :: l :: lines))
      with (line ++ LF :: join [LF] (l :: lines)).
    rewrite splitLines_plain_app by exact Hl.
    rewrite splitLines_LF by reflexivity.
    rewrite IH by exact Hrest. rewrite app_nil_r. reflexivity.
Qed.

(** The pieces of a blank text are blank. *)
Lemma splitLines_blank (s : jsstring) :
  blank s = true -> Forall (fun l => blank l = true) (splitLines s).
Proof.
  functional induction (splitLines s); intros H.
  - repeat constructor.
  - repeat constructor.
  - simpl in H. apply andb_true_iff in H as [_ H].
    apply andb_true_iff in H as [_ H]. constructor; auto.
  - simpl in H. apply andb_true_iff in H as [_ H]. constructor; auto.
  - simpl in H. apply andb_true_iff in H as [_ H]. constructor; auto.
  - exfalso. exact (splitLines_not_nil r e2).
  - simpl in H. apply andb_true_iff in H as [Hc H].
    specialize (IHl H). rewrite e2 in IHl. inversion IHl; subst.
    constructor; [simpl; rewrite Hc; assumption | assumption].
Qed.

(** *** Reading in chunks *)

Lemma splitLines_after_CR (rest : jsstring) :
  splitLines (CR :: rest) = [] :: afterCR rest.
Proof.
  destruct rest as [|d r]; [reflexivity|].
  simpl. destruct (d =? LF); reflexivity.
Qed.

Lemma dropEmpty_afterCR (rest : jsstring) :
  dropEmpty (afterCR rest) = dropEmpty (splitLines rest).
Proof.
  destruct rest as [|d r]; [reflexivity|].
  unfold afterCR. destruct (d =? LF) eqn:Hd; [|reflexivity].
  apply N.eqb_eq in Hd. subst d. reflexivity.
Qed.

Lemma last_In {A} (l : list A) (d : A) : l <> [] -> In (last l d) l.
Proof.
  induction l as [|x l IH]; [congruence|]. intros _.
  destruct l as [|y l]; [left; reflexivity|].
  right. apply IH. discriminate.
Qed.

Lemma last_piece_plain (s : jsstring) :
  hasLineEnding (last (splitLines s) []) = false.
Proof.
  pose proof (splitLines_pieces s) as H. rewrite Forall_forall in H.
  apply H, last_In, splitLines_not_nil.
Qed.

Lemma last_piece_after_CR (s : jsstring) :
  endsWithCR s = true -> last (splitLines s) [] = [].
Proof.
  intros H. pose proof (splitLines_app s []) as E.
  rewrite app_nil_r, H in E. simpl afterCR in E.
  rewrite E at 1. apply last_last.
Qed.

(** A text that ends with a line ending has an empty last piece. *)
Lemma last_piece_terminated (t : jsstring) (c : N) :
  isLineEnding c = true -> last (splitLines (t ++ [c])) [] = [].
Proof.
  intros Hc. rewrite splitLines_app.
  assert (Hsingle : splitLines [c] = [[]; []]).
  { unfold isLineEnding in Hc. simpl.
    destruct (c =? CR); [reflexivity|].
    rewrite orb_false_r in Hc. rewrite Hc. reflexivity. }
  assert (Hone : forall p, hasLineEnding p = false ->
                 splitLines (p ++ [c]) = [p; []]).
  { intros p Hp. rewrite splitLines_plain_app by exact Hp.
    rewrite Hsingle, app_nil_r. reflexivity. }
  destruct (endsWithCR t).
  - unfold afterCR. destruct (c =? LF) eqn:E.
    + change (splitLines []) with ([[]] : list jsstring).
      rewrite last_last. reflexivity.
    + rewrite Hsingle.
      change ([[]; []] : list jsstring) with ([[]] ++ [[]] : list jsstring).
      rewrite app_assoc, last_last. reflexivity.
  - rewrite Hone by apply last_piece_plain.
    change [last (splitLines t) []; []] with ([last (splitLines t) []] ++ [[]]).
    rewrite app_assoc, last_last. reflexivity.
Qed.

Lemma hasLineEnding_app (s t : jsstring) :
  hasLineEnding (s ++ t) = hasLineEnding s || hasLineEnding t.
Proof. apply existsb_app. Qed.

(** A chunk read in a state that is not just after a carriage return. *)
Lemma write_fresh (b chunk rest : jsstring) :
  hasLineEnding b = false ->
  wf (snd (write (mkInterface b false) chunk)) /\
  dropEmpty (splitLines (b ++ chunk ++ rest)) =
  dropEmpty (fst (write (mkInterface b false) chunk)) ++
  dropEmpty (splitLines (pending (snd (write (mkInterface b false) chunk)) ++ rest)).
Proof.
  intros Hb. unfold write. simpl sawReturn. simpl line_buffer.
  rewrite app_assoc.
  destruct (hasLineEnding chunk) eqn:Hc; simpl fst; simpl snd.
  - rewrite (splitLines_app (b ++ chunk) rest), dropEmpty_app.
    unfold pending, wf. simpl.
    split.
    + split; [apply last_piece_plain | apply last_piece_after_CR].
    + destruct (endsWithCR (b ++ chunk)); [|reflexivity].
      change ([CR] ++ rest) with (CR :: rest).
      rewrite splitLines_after_CR. reflexivity.
  - split; [|reflexivity].
    split; simpl; [|discriminate].
    rewrite hasLineEnding_app, Hb, Hc. reflexivity.
Qed.

Lemma write_step (rl : Interface) (chunk rest : jsstring) :
  wf rl ->
  wf (snd (write rl chunk)) /\
  dropEmpty (splitLines (pending rl ++ chunk ++ rest)) =
  dropEmpty (fst (write rl chunk)) ++
  dropEmpty (splitLines (pending (snd (write rl chunk)) ++ rest)).
Proof.
  destruct rl as [b saw]. intros [Hb Hsaw]. simpl in Hb, Hsaw.
  destruct saw.
  - rewrite (Hsaw eq_refl).
    change (pending (mkInterface [] true)) with [CR].
    assert (Hnil : hasLineEnding [] = false) by reflexivity.
    destruct chunk as [|c r].
    + change (write (mkInterface [] true) [])
        with (@nil jsstring, mkInterface [] false).
      split; [split; [reflexivity | discriminate]|].
      change (dropEmpty (splitLines (CR :: rest)) =
              dropEmpty (splitLines rest)).
      rewrite splitLines_after_CR. apply dropEmpty_afterCR.
    + destruct (c =? LF) eqn:Hc.
      * replace (write (mkInterface [] true) (c :: r))
          with (write (mkInterface [] false) r)
          by (unfold write; cbn [sawReturn line_buffer app]; rewrite Hc;
              reflexivity).
        destruct (write_fresh [] r rest Hnil) as [Hwf Hlines].
        split; [exact Hwf|].
        rewrite <- Hlines. simpl app.
        rewrite splitLines_CRLF by (assumption || reflexivity). reflexivity.
      * replace (write (mkInterface [] true) (c :: r))
          with (write (mkInterface [] false) (c :: r))
          by (unfold write; cbn [sawReturn line_buffer app]; rewrite Hc;
              reflexivity).
        destruct (write_fresh [] (c :: r) rest Hnil) as [Hwf Hlines].
        split; [exact Hwf|].
        rewrite <- Hlines. simpl app.
        rewrite splitLines_CR by (assumption || reflexivity). reflexivity.
  - apply write_fresh. exact Hb.
Qed.

Lemma feed_lines (chunks : list jsstring) : forall rl,
  wf rl ->
  dropEmpty (feed rl chunks) =
  dropEmpty (splitLines (pending rl ++ List.concat chunks)).
Proof.
  induction chunks as [|chunk more IH]; intros rl Hwf.
  - simpl. rewrite app_nil_r. destruct rl as [b saw].
    destruct Hwf as [Hb Hsaw]. simpl in Hb, Hsaw.
    unfold onend, pending. simpl. destruct saw.
    + rewrite (Hsaw eq_refl). reflexivity.
    + rewrite (splitLines_plain b Hb). destruct b; reflexivity.
  - simpl feed. simpl List.concat.
    destruct (write_step rl chunk (List.concat more) Hwf) as [Hwf' Hlines].
    destruct (write rl chunk) as [lines rl'].
    simpl fst in Hlines. simpl snd in Hlines, Hwf'.
    rewrite dropEmpty_app, Hlines, (IH rl' Hwf'). reflexivity.
Qed.

(** The lines delivered do not depend on how the text comes in chunks,
    up to empty lines: they are the pieces of the whole text. *)
Lemma createInterface_lines (chunks : list jsstring) :
  dropEmpty (createInterface chunks) =
  dropEmpty (splitLines (List.concat chunks)).
Proof.
  unfold createInterface. rewrite feed_lines.
  - reflexivity.
  - split; [reflexivity | discriminate].
Qed.
End ReadlineFacts.

(** ** Frames *)

Section FrameFacts.
Import JS.
Local Open Scope N_scope.

Lemma trimmed_code_unit (c : N) :
  isTrimmed c = true -> isJsonWhiteSpace c = false ->
  c = 11 \/ c = 12 \/ 160 <= c.
Proof.
  unfold isTrimmed, isWhiteSpace, isLineTerminator, isJsonWhiteSpace, LF, CR, LS, PS.
  intros H1 H2.
  repeat rewrite orb_false_iff in H2.
  repeat rewrite orb_true_iff in H1.
  repeat rewrite andb_true_iff in H1.
  repeat rewrite N.eqb_eq in H1. repeat rewrite N.leb_le in H1.
  repeat rewrite N.eqb_neq in H2.
  lia.
Qed.

Lemma skipWhiteSpace_blank (s : jsstring) :
  blank s = true ->
  skipWhiteSpace s = [] \/
  exists c r, skipWhiteSpace s = c :: r /\ (c = 11 \/ c = 12 \/ 160 <= c).
Proof.
  induction s as [|c s IH]; simpl; [left; reflexivity|].
  intros H. apply andb_true_iff in H as [Hc Hs].
  destruct (isJsonWhiteSpace c) eqn:Hw; [exact (IH Hs)|].
  right. exists c, s. split; [reflexivity|].
  apply trimmed_code_unit; assumption.
Qed.

Lemma parseValue_blank (fuel : nat) (s : jsstring) :
  blank s = true -> parseValue (S fuel) s = Rejected.
Proof.
  intros Hb. simpl.
  destruct (skipWhiteSpace_blank s Hb) as [-> | [c [r [-> Hc]]]]; [reflexivity|].
  assert (Hne : forall k, k < 160 -> k <> 11 -> k <> 12 -> (c =? k) = false)
    by (intros k Hk1 Hk2 Hk3; apply N.eqb_neq; lia).
  unfold QUOTE.
  rewrite !Hne by (vm_compute; first [reflexivity | discriminate]).
  unfold parseNumber, minusSign, integerPart.
  rewrite Hne by (vm_compute; first [reflexivity | discriminate]).
  assert (Hd : isDigit c = false).
  { unfold isDigit. apply andb_false_iff.
    destruct Hc as [->| [->|Hc]]; [left; reflexivity | left; reflexivity |].
    right. apply N.leb_gt. change (chr "9") with 57. lia. }
  rewrite Hd. reflexivity.
Qed.

(** A blank line is not a JSON text. *)
Lemma JSON_parse_blank (line : jsstring) :
  blank line = true -> JSON_parse line = inl SyntaxError.
Proof.
  intros Hb. unfold JSON_parse, fuelFor.
  replace (2 * List.length line + 1)%nat with (S (2 * List.length line)) by lia.
  rewrite parseValue_blank by exact Hb. reflexivity.
Qed.

Lemma WatchIterator_frame (line : jsstring) :
  WatchIterator.frame line = (contribution line, Gen.Return tt).
Proof.
  unfold WatchIterator.frame, contribution, eventOf.
  destruct (JSON_parse line) as [e|data]; [reflexivity|].
  destruct data; reflexivity.
Qed.

Lemma WatchApi_frame (line : jsstring) :
  WatchApi.frame line = (contribution line, Gen.Return tt).
Proof.
  unfold WatchApi.frame, contribution, eventOf.
  destruct (JSON_parse line) as [e|data]; [reflexivity|].
  destruct data; reflexivity.
Qed.

Lemma contribution_invalid (line : jsstring) (e : JsError) :
  JSON_parse line = inl e -> contribution line = [].
Proof. unfold contribution, eventOf. intros ->. reflexivity. Qed.

Lemma contribution_blank (line : jsstring) :
  blank line = true -> contribution line = [].
Proof. intros H. exact (contribution_invalid _ _ (JSON_parse_blank line H)). Qed.

Lemma contributions_app (l1 l2 : list jsstring) :
  flat_map contribution (l1 ++ l2) =
  flat_map contribution l1 ++ flat_map contribution l2.
Proof. apply flat_map_app. Qed.

(** Lines that are filtered out for being blank, or empty, would have
    given nothing. *)
Lemma contributions_filter (keep : jsstring -> bool) (lines : list jsstring) :
  (forall l, keep l = false -> blank l = true) ->
  flat_map contribution (filter keep lines) = flat_map contribution lines.
Proof.
  intros Hkeep. induction lines as [|l lines IH]; [reflexivity|].
  simpl. destruct (keep l) eqn:Hk; simpl; rewrite IH; [reflexivity|].
  rewrite (contribution_blank l (Hkeep l Hk)). reflexivity.
Qed.

Lemma contributions_all_blank (lines : list jsstring) :
  Forall (fun l => blank l = true) lines -> flat_map contribution lines = [].
Proof.
  induction 1 as [|l lines Hl _ IH]; [reflexivity|].
  simpl. rewrite (contribution_blank l Hl), IH. reflexivity.
Qed.

Lemma contributions_dropEmpty (lines : list jsstring) :
  flat_map contribution (dropEmpty lines) = flat_map contribution lines.
Proof.
  apply contributions_filter. intros [|c l] H; [reflexivity | discriminate].
Qed.

Lemma contributions_nonblank (lines : list jsstring) :
  flat_map contribution (filter (fun l => negb (blank l)) lines) =
  flat_map contribution lines.
Proof.
  apply contributions_filter. intros l H. apply negb_false_iff in H. exact H.
Qed.
End FrameFacts.

(** ** The two decoders *)

Section DecoderFacts.
Import JS.

Variable STATUS_CODES : Z -> option jsstring.

Lemma WatchIterator_consume_200 (response : WatchIterator.ResponseContext) :
  WatchIterator.httpStatusCode response = 200%Z ->
  WatchIterator.consume STATUS_CODES response =
  (flat_map contribution (linesOfText (WatchIterator.body_text response)),
   Gen.Return tt).
Proof.
  intros H. unfold WatchIterator.consume. rewrite H. simpl negb. cbv iota.
  rewrite (for_of_yields _ _ contribution) by apply WatchIterator_frame.
  f_equal. unfold linesOfText.
  rewrite <- (contributions_nonblank (split LF _)).
  f_equal. apply filter_ext. intros l. rewrite trim_nil_iff. reflexivity.
Qed.

Lemma WatchApi_consume_200 (response : WatchApi.Response) :
  WatchApi.status response = 200%Z ->
  WatchApi.consume STATUS_CODES response =
  (flat_map contribution (linesOfStream (WatchApi.response_body response)),
   Gen.Return tt).
Proof.
  intros H. unfold WatchApi.consume. rewrite H. simpl negb. cbv iota.
  rewrite (for_of_yields _ _ contribution) by apply WatchApi_frame.
  f_equal. unfold linesOfStream.
  rewrite <- contributions_dropEmpty, createInterface_lines.
  apply contributions_dropEmpty.
Qed.

(** *** From the request to the response *)

Lemma WatchIterator_outbound_silent cfg path options :
  Gen.yielded (WatchIterator.outbound cfg path options) = [].
Proof.
  unfold WatchIterator.outbound.
  destruct (WatchIterator.makeRequestContext _ _ _) as [e|r]; [reflexivity|].
  simpl. destruct (WatchIterator.authMethods_default cfg) as [auth|].
  - destruct (WatchIterator.applySecurityAuthentication _ _); [reflexivity|].
    simpl. destruct (WatchIterator.AbortSignal_timeout _); reflexivity.
  - simpl. destruct (WatchIterator.AbortSignal_timeout _); reflexivity.
Qed.

Lemma WatchIterator_watch_answered cfg path options response :
  answersIterator cfg path options response ->
  WatchIterator.watch STATUS_CODES cfg path options =
  WatchIterator.consume STATUS_CODES response.
Proof.
  intros [r [Hout Hsend]]. unfold WatchIterator.watch.
  pose proof (WatchIterator_outbound_silent cfg path options) as Hsilent.
  destruct (WatchIterator.outbound cfg path options) as [ys c].
  simpl in Hout, Hsilent. subst ys c.
  unfold Gen.bind at 1. rewrite Hsend, bind_ret_l.
  destruct (WatchIterator.consume STATUS_CODES response). reflexivity.
Qed.
End DecoderFacts.

Section ApiFacts.
Import JS.
Variable STATUS_CODES : Z -> option jsstring.
Variable new_URL : jsstring -> JsError + URL.
Variable fetch : URL -> WatchApi.RequestInit -> rejection + WatchApi.Response.
Variable number : Type.
Variable Number_toString : number -> jsstring.

Lemma WatchApi_outbound_silent this path queryParams :
  Gen.yielded (WatchApi.outbound new_URL Number_toString this path queryParams) = [].
Proof.
  unfold WatchApi.outbound.
  destruct (WatchApi.authMethods_default _) as [[kc|]|]; try reflexivity.
  simpl. destruct (WatchApi.getCurrentCluster kc) as [cluster|]; [|reflexivity].
  simpl. destruct (new_URL _) as [e|u]; [reflexivity|].
  simpl. destruct (WatchApi.applyToFetchOptions kc _); [reflexivity|].
  simpl. destruct (WatchApi.AbortSignal_timeout _); reflexivity.
Qed.

Lemma WatchApi_watch_answered this path queryParams response :
  answersApi new_URL fetch Number_toString this path queryParams response ->
  WatchApi.watch STATUS_CODES new_URL fetch Number_toString this path queryParams =
  WatchApi.consume STATUS_CODES response.
Proof.
  intros [u [init [Hout Hfetch]]]. unfold WatchApi.watch.
  pose proof (WatchApi_outbound_silent this path queryParams) as Hsilent.
  destruct (WatchApi.outbound new_URL Number_toString this path queryParams) as [ys c].
  simpl in Hout, Hsilent. subst ys c.
  unfold Gen.bind at 1. simpl fst. simpl snd. rewrite Hfetch.
  unfold WatchApi.liftForeign. rewrite bind_ret_l.
  destruct (WatchApi.consume STATUS_CODES response). reflexivity.
Qed.
End ApiFacts.

(** ** The kinds of the events *)

Section Kinds.
Import JS.

Lemma find_snoc {A} (f : A -> bool) (l : list A) (x : A) :
  find f (l ++ [x]) =
  match find f l with
  | Some y => Some y
  | None => if f x then Some x else None
  end.
Proof.
  induction l as [|y l IH]; [reflexivity|].
  simpl. destruct (f y); [reflexivity | exact IH].
Qed.

(** The property that the code reads is the field of the wire format. *)
Lemma ownProperty_fieldNamed (key : jsstring) (members : list (jsstring * JSON)) :
  ownProperty key members = fieldNamed key members.
Proof.
  unfold fieldNamed. induction members as [|[k v] rest IH]; [reflexivity|].
  cbn [ownProperty rev]. rewrite IH, find_snoc.
  destruct (find _ (rev rest)) as [m|]; [reflexivity|].
  cbn [fst snd]. destruct (eqb k key); reflexivity.
Qed.

Lemma kind_of_contribution (line : jsstring) :
  frameOrNoise line = true ->
  map type (contribution line) =
  if valid line && negb (blank line) then [typeField line] else [].
Proof.
  unfold contribution, eventOf, valid, frameOrNoise, typeField.
  destruct (blank line) eqn:Hb.
  - rewrite (JSON_parse_blank line Hb). reflexivity.
  - destruct (JSON_parse line) as [e|data]; [reflexivity|].
    destruct data; try discriminate.
    rewrite <- ownProperty_fieldNamed. reflexivity.
Qed.

Lemma kinds_of_contributions (lines : list jsstring) :
  wellFormed lines ->
  map type (flat_map contribution lines) = typeFields lines.
Proof.
  unfold wellFormed, typeFields.
  induction lines as [|l lines IH]; [reflexivity|].
  simpl. intros H. apply andb_true_iff in H as [Hl Hrest].
  rewrite map_app, (IH Hrest), (kind_of_contribution l Hl).
  destruct (valid l && negb (blank l)); reflexivity.
Qed.
End Kinds.

(** ** Lines that hold no frame *)

Section Noise.
Import JS.

Lemma contribution_noise (line : jsstring) :
  noise line -> contribution line = [].
Proof.
  intros [Hb|Hv]; [exact (contribution_blank line Hb)|].
  unfold valid in Hv. destruct (JSON_parse line) as [e|] eqn:E; [|discriminate].
  exact (contribution_invalid line e E).
Qed.

Lemma contributions_without_noise (pre post : list jsstring) (bad : jsstring) :
  noise bad ->
  flat_map contribution (pre ++ bad :: post) =
  flat_map contribution pre ++ flat_map contribution post.
Proof.
  intros H. rewrite contributions_app. simpl.
  rewrite (contribution_noise bad H). reflexivity.
Qed.

Lemma linesOfText_join (lines : list jsstring) :
  lines <> [] ->
  Forall (fun l => lineFree LF l = true) lines ->
  linesOfText (join [LF] lines) = lines.
Proof.
  destruct lines as [|l lines]; [congruence|]. intros _.
  apply split_join.
Qed.

Lemma linesOfStream_join (chunks : list jsstring) (lines : list jsstring) :
  lines <> [] ->
  Forall (fun l => Readline.hasLineEnding l = false) lines ->
  List.concat chunks = join [LF] lines ->
  linesOfStream chunks = lines.
Proof.
  destruct lines as [|l lines]; [congruence|]. intros _ H E.
  unfold linesOfStream. rewrite E. apply splitLines_join. exact H.
Qed.
End Noise.

(** ** The last fragment *)

Section Trailing.
Import JS Readline.

Lemma contribution_nil : contribution [] = [].
Proof. apply contribution_blank. reflexivity. Qed.

Lemma contributions_last_empty (lines : list jsstring) :
  last lines [] = [] ->
  flat_map contribution (removelast lines) = flat_map contribution lines.
Proof.
  intros H. destruct lines as [|l lines]; [reflexivity|].
  rewrite (app_removelast_last [] (l := l :: lines)) at 2 by discriminate.
  rewrite H, contributions_app.
  change (flat_map contribution [[]]) with (contribution [] ++ []).
  rewrite contribution_nil, !app_nil_r. reflexivity.
Qed.

Lemma linesOfText_trailing (prefix frag : jsstring) :
  prefix = [] \/ (exists t, prefix = t ++ [LF]) ->
  lineFree LF frag = true ->
  flat_map contribution (linesOfText (prefix ++ frag)) =
  flat_map contribution (linesOfText prefix) ++ contribution frag.
Proof.
  unfold linesOfText. intros [->|[t ->]] Hfrag.
  - simpl app. rewrite (split_lineFree LF frag Hfrag). simpl.
    rewrite ?contribution_nil, ?app_nil_r. reflexivity.
  - rewrite <- app_assoc. simpl app.
    rewrite !split_app, (split_lineFree LF frag Hfrag), !contributions_app.
    simpl. rewrite ?contribution_nil, ?app_nil_r. reflexivity.
Qed.

Lemma afterCR_plain (frag : jsstring) :
  hasLineEnding frag = false -> afterCR frag = [frag].
Proof.
  intros H. unfold afterCR. destruct frag as [|d r]; [reflexivity|].
  simpl in H. apply orb_false_iff in H as [Hd Hr].
  assert (Hlf : (d =? LF)%N = false).
  { destruct (N.eqb_spec d LF) as [->|]; [discriminate | reflexivity]. }
  rewrite Hlf. apply splitLines_plain. simpl. rewrite Hd, Hr. reflexivity.
Qed.

Lemma splitLines_trailing (prefix frag : jsstring) :
  prefix = [] \/
    (exists t c, prefix = t ++ [c] /\ isLineEnding c = true) ->
  hasLineEnding frag = false ->
  flat_map contribution (splitLines (prefix ++ frag)) =
  flat_map contribution (splitLines prefix) ++ contribution frag.
Proof.
  intros [->|[t [c [-> Hc]]]] Hfrag.
  - simpl app. rewrite (splitLines_plain frag Hfrag). simpl.
    rewrite ?contribution_nil, ?app_nil_r. reflexivity.
  - rewrite (splitLines_app (t ++ [c]) frag).
    rewrite (last_piece_terminated t c Hc). simpl app.
    rewrite (afterCR_plain frag Hfrag), (splitLines_plain frag Hfrag).
    destruct (endsWithCR (t ++ [c]));
      rewrite contributions_app, contributions_last_empty
        by (apply last_piece_terminated; exact Hc);
      simpl; rewrite ?app_nil_r; reflexivity.
Qed.
End Trailing.

(** ** Failed responses *)

Section Failures.
Import JS.
Variable STATUS_CODES : Z -> option jsstring.

Lemma WatchIterator_consume_failure (response : WatchIterator.ResponseContext) :
  WatchIterator.httpStatusCode response <> 200%Z ->
  WatchIterator.consume STATUS_CODES response =
  ([], Gen.Throw (WatchIterator.ThrowWatchError
         (WatchIterator.mkWatchError
            (or_else (STATUS_CODES (WatchIterator.httpStatusCode response))
                     (js "Unknown Error"))
            (Some (WatchIterator.httpStatusCode response))))).
Proof.
  intros H. unfold WatchIterator.consume.
  apply Z.eqb_neq in H. rewrite H. reflexivity.
Qed.

Lemma WatchApi_consume_failure (response : WatchApi.Response) :
  WatchApi.status response <> 200%Z ->
  WatchApi.consume STATUS_CODES response =
  ([], Gen.Throw (WatchApi.ThrowApiException
         (WatchApi.mkApiException (WatchApi.status response)
            (or_else (Some (WatchApi.statusText response))
               (or_else (STATUS_CODES (WatchApi.status response))
                        (js "Internal Server Error")))
            (WatchApi.text response) []))).
Proof.
  intros H. unfold WatchApi.consume.
  apply Z.eqb_neq in H. rewrite H. reflexivity.
Qed.

(** [a || b] is not empty when [b] is not. *)
Lemma or_else_not_empty (a : option jsstring) (b : jsstring) :
  b <> [] -> or_else a b <> [].
Proof.
  intros Hb. destruct a as [[|c s]|]; simpl; try exact Hb. discriminate.
Qed.
End Failures.

(** ** Query parameters *)

Section QueryFacts.
Import JS URLSearchParams.

Lemma getAll_remove_same (name : jsstring) (params : t) :
  getAll name (remove name params) = [].
Proof.
  unfold getAll, remove. induction params as [|[k v] rest IH]; [reflexivity|].
  simpl. destruct (eqb k name) eqn:E; simpl; [exact IH|].
  rewrite E. exact IH.
Qed.

Lemma getAll_remove_other (k name : jsstring) (params : t) :
  eqb k name = false ->
  getAll k (remove name params) = getAll k params.
Proof.
  intros Hk. unfold getAll, remove.
  induction params as [|[k' v] rest IH]; [reflexivity|].
  simpl. destruct (jseqb_spec k' name) as [->|Hne]; simpl.
  - destruct (jseqb_spec name k) as [->|_]; [|exact IH].
    rewrite jseqb_refl in Hk. discriminate.
  - destruct (eqb k' k); simpl; rewrite IH; reflexivity.
Qed.

(** After [set], the name has one tuple, with the value. *)
Lemma getAll_set_same (name value : jsstring) (params : t) :
  getAll name (set name value params) = [value].
Proof.
  induction params as [|[k v] rest IH]; simpl.
  - unfold getAll. simpl. rewrite jseqb_refl. reflexivity.
  - destruct (eqb k name) eqn:E.
    + unfold getAll. simpl. rewrite jseqb_refl. simpl.
      f_equal. apply getAll_remove_same.
    + unfold getAll in *. simpl. rewrite E. exact IH.
Qed.

(** [set] leaves the tuples of the other names as they are. *)
Lemma getAll_set_other (k name value : jsstring) (params : t) :
  eqb k name = false ->
  getAll k (set name value params) = getAll k params.
Proof.
  intros Hk. induction params as [|[k' v] rest IH]; simpl.
  - unfold getAll. simpl.
    destruct (jseqb_spec name k) as [->|_]; [|reflexivity].
    rewrite jseqb_refl in Hk. discriminate.
  - destruct (jseqb_spec k' name) as [->|Hne].
    + unfold getAll. simpl.
      destruct (jseqb_spec name k) as [->|_].
      * rewrite jseqb_refl in Hk. discriminate.
      * apply (getAll_remove_other k name rest Hk).
    + unfold getAll in *. simpl. destruct (eqb k' k); simpl; rewrite IH; reflexivity.
Qed.

(** A name with one tuple stands once in the serialized query, between
    the tuples of other names, as its encoded name, an equals sign and its
    encoded value. *)
Lemma getAll_once (name value : jsstring) (params : t) :
  getAll name params = [value] ->
  exists before after,
    params = before ++ (name, value) :: after /\
    has name before = false /\ has name after = false.
Proof.
  unfold getAll, has. induction params as [|[k v] rest IH]; [discriminate|].
  simpl. destruct (jseqb_spec k name) as [->|Hne]; simpl.
  - intros H. injection H as -> Hrest.
    exists [], rest. repeat split.
    clear IH. induction rest as [|[k' v'] rest IH]; [reflexivity|].
    simpl in *. destruct (eqb k' name); [discriminate|]. exact (IH Hrest).
  - intros H. destruct (IH H) as [before [after [-> [Hb Ha]]]].
    exists ((k, v) :: before), after. simpl. repeat split; [|exact Ha].
    destruct (jseqb_spec k name); [contradiction | exact Hb].
Qed.

Lemma getAll_sentOnce (name value : jsstring) (url : URL) :
  getAll name (searchParams url) = [value] -> sentOnce name value url.
Proof.
  intros H. destruct (getAll_once _ _ _ H) as [before [after [E [Hb Ha]]]].
  exists before, after. repeat split; try assumption.
  unfold search, toString. rewrite E, map_app.
  destruct before; reflexivity.
Qed.
End QueryFacts.

Section IteratorRequest.
Import JS.

Lemma query_setQueryParam name value r :
  query (WatchIterator.setQueryParam name value r) =
  URLSearchParams.set name value (query r).
Proof. reflexivity. Qed.

(** Rewrites the tuples of a name through the [setQueryParam] calls of
    [addQuery]. *)
Ltac through_sets :=
  repeat first
    [ rewrite query_setQueryParam
    | rewrite getAll_set_same
    | rewrite getAll_set_other by reflexivity ].

Lemma addQuery_watch options bookmarks r :
  URLSearchParams.getAll (js "watch")
    (query (WatchIterator.addQuery options bookmarks r)) = [js "true"].
Proof.
  unfold WatchIterator.addQuery.
  destruct (WatchIterator.resourceVersion options),
    (WatchIterator.labelSelector options),
    (WatchIterator.fieldSelector options), bookmarks;
    through_sets; reflexivity.
Qed.

Lemma addQuery_resourceVersion options bookmarks r v :
  WatchIterator.resourceVersion options = Some v ->
  URLSearchParams.getAll (js "resourceVersion")
    (query (WatchIterator.addQuery options bookmarks r)) = [v].
Proof.
  intros H. unfold WatchIterator.addQuery. rewrite H.
  destruct (WatchIterator.labelSelector options),
    (WatchIterator.fieldSelector options), bookmarks;
    through_sets; reflexivity.
Qed.

Lemma addQuery_labelSelector options bookmarks r v :
  WatchIterator.labelSelector options = Some v ->
  URLSearchParams.getAll (js "labelSelector")
    (query (WatchIterator.addQuery options bookmarks r)) = [v].
Proof.
  intros H. unfold WatchIterator.addQuery. rewrite H.
  destruct (WatchIterator.resourceVersion options),
    (WatchIterator.fieldSelector options), bookmarks;
    through_sets; reflexivity.
Qed.

Lemma addQuery_fieldSelector options bookmarks r v :
  WatchIterator.fieldSelector options = Some v ->
  URLSearchParams.getAll (js "fieldSelector")
    (query (WatchIterator.addQuery options bookmarks r)) = [v].
Proof.
  intros H. unfold WatchIterator.addQuery. rewrite H.
  destruct (WatchIterator.resourceVersion options),
    (WatchIterator.labelSelector options), bookmarks;
    through_sets; reflexivity.
Qed.

Lemma addQuery_bookmarks options r :
  URLSearchParams.getAll (js "allowWatchBookmarks")
    (query (WatchIterator.addQuery options true r)) = [js "true"].
Proof.
  unfold WatchIterator.addQuery.
  destruct (WatchIterator.resourceVersion options),
    (WatchIterator.labelSelector options),
    (WatchIterator.fieldSelector options);
    through_sets; reflexivity.
Qed.

Lemma addQuery_no_bookmarks options r :
  URLSearchParams.getAll (js "allowWatchBookmarks")
    (query (WatchIterator.addQuery options false r)) =
  URLSearchParams.getAll (js "allowWatchBookmarks") (query r).
Proof.
  unfold WatchIterator.addQuery.
  destruct (WatchIterator.resourceVersion options),
    (WatchIterator.labelSelector options),
    (WatchIterator.fieldSelector options);
    through_sets; reflexivity.
Qed.

(** A timeout signal is made for a delay of 32 bits only. *)
Lemma WatchIterator_timeout_made (delay : Z) (s : WatchIterator.AbortSignal) :
  WatchIterator.AbortSignal_timeout delay = inr s ->
  s = WatchIterator.mkSignal delay /\ (0 <= delay <= 4294967295)%Z.
Proof.
  unfold WatchIterator.AbortSignal_timeout.
  destruct ((0 <=? delay)%Z && (delay <=? 4294967295)%Z) eqn:E; [|discriminate].
  intros H. injection H as <-. apply andb_true_iff in E as [E1 E2].
  apply Z.leb_le in E1, E2. split; [reflexivity | lia].
Qed.

Lemma WatchIterator_timeout_valid (delay : Z) :
  (0 <= delay <= 4294967295)%Z ->
  WatchIterator.AbortSignal_timeout delay = inr (WatchIterator.mkSignal delay).
Proof.
  intros [H1 H2]. unfold WatchIterator.AbortSignal_timeout.
  apply Z.leb_le in H1, H2. rewrite H1, H2. reflexivity.
Qed.

Lemma WatchIterator_timeout_invalid (delay : Z) :
  ~ (0 <= delay <= 4294967295)%Z ->
  WatchIterator.AbortSignal_timeout delay = inl RangeError.
Proof.
  intros H. unfold WatchIterator.AbortSignal_timeout.
  destruct ((0 <=? delay)%Z && (delay <=? 4294967295)%Z) eqn:E; [|reflexivity].
  apply andb_true_iff in E as [E1 E2]. apply Z.leb_le in E1, E2. lia.
Qed.

(** The steps of a run of [outbound] that ends well. *)
Lemma WatchIterator_outbound_inv cfg path options requestContext :
  Gen.outcome (WatchIterator.outbound cfg path options) =
    Gen.Return requestContext ->
  keepsURL cfg ->
  exists base,
    WatchIterator.makeRequestContext (WatchIterator.baseServer cfg) path
      WatchIterator.GET = inr base /\
    query requestContext =
      query (WatchIterator.addQuery options
               match WatchIterator.allowWatchBookmarks options with
               | Some b => b
               | None => true
               end base) /\
    WatchIterator.signal requestContext =
      Some (WatchIterator.mkSignal
              match WatchIterator.timeoutMs options with
              | Some ms => ms
              | None => 30000%Z
              end).
Proof.
  unfold WatchIterator.outbound. intros H Hauth.
  destruct (WatchIterator.makeRequestContext _ _ _) as [e|base]; [discriminate|].
  exists base. split; [reflexivity|]. simpl in H.
  destruct (WatchIterator.authMethods_default cfg) as [auth|] eqn:Ea.
  - destruct (WatchIterator.applySecurityAuthentication auth _) as [e|r'] eqn:Er;
      [discriminate|].
    simpl in H.
    destruct (WatchIterator.AbortSignal_timeout _) as [e|s] eqn:Es; [discriminate|].
    apply WatchIterator_timeout_made in Es as [-> _].
    simpl in H. injection H as <-.
    split; [|reflexivity].
    unfold query. simpl. rewrite (Hauth auth _ r' Ea Er). reflexivity.
  - simpl in H.
    destruct (WatchIterator.AbortSignal_timeout _) as [e|s] eqn:Es; [discriminate|].
    apply WatchIterator_timeout_made in Es as [-> _].
    simpl in H. injection H as <-. split; reflexivity.
Qed.
End IteratorRequest.

Section ApiRequest.
Import JS.
Variable new_URL : jsstring -> JsError + URL.
Variable number : Type.
Variable Number_toString : number -> jsstring.



(** The loop leaves alone the names it has no defined entry for. *)
Lemma forward_skips (queryParams : WatchApi.entries number) (key : jsstring) :
  (forall v, ~ In (key, Some v) queryParams) ->
  forall watchURL,
    URLSearchParams.getAll key
      (searchParams (WatchApi.forward Number_toString queryParams watchURL)) =
    URLSearchParams.getAll key (searchParams watchURL).
Proof.
  induction queryParams as [|[k val] more IH]; intros Hkey watchURL.
  - reflexivity.
  - assert (Hmore : forall v, ~ In (key, Some v) more)
      by (intros v Hin; apply (Hkey v); right; exact Hin).
    simpl. rewrite (IH Hmore). destruct val as [v|]; [|reflexivity].
    simpl. apply getAll_set_other.
    destruct (jseqb_spec key k) as [->|]; [|reflexivity].
    exfalso. apply (Hkey v). left. reflexivity.
Qed.

(** A defined entry ends as the one tuple of its name. *)
Lemma forward_defined (queryParams : WatchApi.entries number)
  (key : jsstring) (v : WatchApi.param number) :
  NoDup (map fst queryParams) ->
  In (key, Some v) queryParams ->
  forall watchURL,
    URLSearchParams.getAll key
      (searchParams (WatchApi.forward Number_toString queryParams watchURL)) =
    [WatchApi.toString Number_toString v].
Proof.
  induction queryParams as [|[k val] more IH]; intros Hnodup Hin watchURL.
  - contradiction.
  - simpl in Hnodup. inversion Hnodup as [|? ? Hk Hmore]; subst.
    destruct Hin as [E|Hin].
    + injection E as -> ->. simpl.
      rewrite forward_skips.
      * simpl. apply getAll_set_same.
      * intros w Hw. apply Hk. apply (in_map fst) in Hw. exact Hw.
    + simpl. apply (IH Hmore Hin).
Qed.

(** A timeout signal is made for a delay of 32 bits only. *)
Lemma WatchApi_timeout_made (delay : Z) (s : WatchApi.AbortSignal) :
  WatchApi.AbortSignal_timeout delay = inr s ->
  s = WatchApi.mkSignal delay /\ (0 <= delay <= 4294967295)%Z.
Proof.
  unfold WatchApi.AbortSignal_timeout.
  destruct ((0 <=? delay)%Z && (delay <=? 4294967295)%Z) eqn:E; [|discriminate].
  intros H. injection H as <-. apply andb_true_iff in E as [E1 E2].
  apply Z.leb_le in E1, E2. split; [reflexivity | lia].
Qed.

Lemma WatchApi_timeout_valid (delay : Z) :
  (0 <= delay <= 4294967295)%Z ->
  WatchApi.AbortSignal_timeout delay = inr (WatchApi.mkSignal delay).
Proof.
  intros [H1 H2]. unfold WatchApi.AbortSignal_timeout.
  apply Z.leb_le in H1, H2. rewrite H1, H2. reflexivity.
Qed.

Lemma WatchApi_timeout_invalid (delay : Z) :
  ~ (0 <= delay <= 4294967295)%Z ->
  WatchApi.AbortSignal_timeout delay = inl RangeError.
Proof.
  intros H. unfold WatchApi.AbortSignal_timeout.
  destruct ((0 <=? delay)%Z && (delay <=? 4294967295)%Z) eqn:E; [|reflexivity].
  apply andb_true_iff in E as [E1 E2]. apply Z.leb_le in E1, E2. lia.
Qed.

(** The steps of a run of [outbound] that ends well. *)
Lemma WatchApi_outbound_inv this path queryParams watchURL requestInit :
  Gen.outcome (WatchApi.outbound new_URL Number_toString this path queryParams) =
    Gen.Return (watchURL, requestInit) ->
  exists kubeConfig cluster base,
    WatchApi.authMethods_default (WatchApi.configuration this) =
      Some (WatchApi.IsKubeConfig kubeConfig) /\
    WatchApi.getCurrentCluster kubeConfig = Some cluster /\
    new_URL (WatchApi.server cluster ++ path) = inr base /\
    watchURL =
      WatchApi.forward Number_toString queryParams
        (mkURL (origin_path base)
           (URLSearchParams.set (js "watch") (js "true") (searchParams base))) /\
    WatchApi.init_signal requestInit =
      Some (WatchApi.mkSignal (WatchApi.requestTimeoutMs this)) /\
    WatchApi.init_method requestInit = Some WatchApi.GET.
Proof.
  unfold WatchApi.outbound. intros H.
  destruct (WatchApi.authMethods_default _) as [[kc|]|] eqn:Ea; try discriminate.
  simpl in H.
  destruct (WatchApi.getCurrentCluster kc) as [cluster|] eqn:Ec; [|discriminate].
  simpl in H.
  destruct (new_URL _) as [e|base] eqn:Eu; [discriminate|].
  simpl in H.
  destruct (WatchApi.applyToFetchOptions kc _) as [e|init]; [discriminate|].
  simpl in H.
  destruct (WatchApi.AbortSignal_timeout _) as [e|s] eqn:Es; [discriminate|].
  apply WatchApi_timeout_made in Es as [-> _].
  simpl in H. injection H as <- <-.
  exists kc, cluster, base.
  split; [reflexivity|]. split; [exact Ec|]. split; [exact Eu|].
  split; [reflexivity|]. split; reflexivity.
Qed.

End ApiRequest.

(** ** Frames that parse *)

Section Parsed.
Import JS.

Lemma contribution_parsed (line : jsstring) (data : JSON) :
  JSON_parse line = inr data -> contribution line = yieldOf data.
Proof.
  unfold contribution, eventOf. intros ->. destruct data; reflexivity.
Qed.

Lemma contributions_around (pre post : list jsstring) (line : jsstring)
  (data : JSON) :
  JSON_parse line = inr data ->
  flat_map contribution (pre ++ line :: post) =
  flat_map contribution pre ++ yieldOf data ++ flat_map contribution post.
Proof.
  intros H. rewrite contributions_app. simpl.
  rewrite (contribution_parsed line data H). reflexivity.
Qed.

Lemma contributions_noise (lines : list jsstring) :
  Forall noise lines -> flat_map contribution lines = [].
Proof.
  induction 1 as [|l lines Hl _ IH]; [reflexivity|].
  simpl. rewrite (contribution_noise l Hl), IH. reflexivity.
Qed.

Lemma cons_in_middle_not_nil {A} (pre post : list A) (x : A) :
  pre ++ x :: post <> [].
Proof. intro E. symmetry in E. exact (app_cons_not_nil _ _ _ E). Qed.
End Parsed.

(** ** The fuel of [JSON.parse] *)

Section Fuel.
Import JS.
Local Open Scope nat_scope.

Lemma skipWhiteSpace_length (s : jsstring) :
  List.length (skipWhiteSpace s) <= List.length s.
Proof.
  induction s as [|c s IH]; simpl; [lia|].
  destruct (isJsonWhiteSpace c); simpl; lia.
Qed.

Lemma skipWhiteSpace_cons (s r : jsstring) (c : N) :
  skipWhiteSpace s = c :: r -> List.length r < List.length s.
Proof.
  intros H. pose proof (skipWhiteSpace_length s) as Hl.
  rewrite H in Hl. simpl in Hl. lia.
Qed.

Lemma digits_length (s ds r : jsstring) :
  digits s = (ds, r) -> List.length r <= List.length s.
Proof.
  revert ds r. induction s as [|c s IH]; simpl; intros ds r H.
  - injection H as _ <-. simpl. lia.
  - destruct (isDigit c).
    + destruct (digits s) as [ds' r'] eqn:E. injection H as _ <-.
      specialize (IH ds' r' eq_refl). lia.
    + injection H as _ <-. simpl. lia.
Qed.

Lemma startsWith_length (lit s r : jsstring) :
  startsWith lit s = Some r -> List.length r <= List.length s.
Proof.
  revert s. induction lit as [|l lit IH]; intros s H.
  - destruct s; injection H as <-; lia.
  - destruct s as [|c s]; [discriminate|]. simpl in H.
    destruct (N.eqb c l); [|discriminate].
    specialize (IH s H). simpl. lia.
Qed.

Lemma parseString_length (s acc str r : jsstring) :
  parseString s acc = Some (str, r) -> List.length r < List.length s.
Proof.
  remember (List.length s) as n eqn:Hn.
  revert s acc Hn. induction n as [n IH] using lt_wf_ind.
  intros s acc Hn H. destruct s as [|c s]; [discriminate|].
  simpl in H, Hn.
  destruct (N.eqb c QUOTE); [injection H as _ <-; lia|].
  destruct (N.eqb c BACKSLASH).
  - destruct s as [|e s]; [discriminate|]. simpl in Hn.
    assert (Hstep : forall a, parseString s a = Some (str, r) ->
                              List.length r < n).
    { intros a Ha.
      specialize (IH (List.length s) ltac:(lia) s a eq_refl Ha). lia. }
    repeat match type of H with
           | (if ?b then _ else _) = _ =>
               destruct b; [exact (Hstep _ H)|]
           end.
    match type of H with
    | (if ?b then _ else _) = _ => destruct b; [|discriminate]
    end.
    destruct s as [|h1 [|h2 [|h3 [|h4 s]]]]; try discriminate.
    destruct (hexValue h1), (hexValue h2), (hexValue h3), (hexValue h4);
      try discriminate.
    simpl in Hn.
    specialize (IH (List.length s) ltac:(lia) s _ eq_refl H). lia.
  - destruct (N.ltb c 32); [discriminate|].
    specialize (IH (List.length s) ltac:(lia) s _ eq_refl H). lia.
Qed.

Lemma minusSign_length (s sign r : jsstring) :
  minusSign s = (sign, r) -> List.length r <= List.length s.
Proof.
  unfold minusSign. destruct s as [|c s].
  - intros H. injection H as _ <-. lia.
  - destruct (N.eqb c (chr "-")); intros H; injection H as _ <-; simpl; lia.
Qed.

Lemma integerPart_length (s int r : jsstring) :
  integerPart s = Some (int, r) -> List.length r < List.length s.
Proof.
  unfold integerPart. destruct s as [|d s]; [discriminate|].
  destruct (negb (isDigit d)); [discriminate|].
  destruct (N.eqb d (chr "0")).
  - intros H. injection H as _ <-. simpl. lia.
  - destruct (digits s) as [ds r'] eqn:E. intros H. injection H as _ <-.
    apply digits_length in E. simpl. lia.
Qed.

Lemma fractionPart_length (s fr r : jsstring) :
  fractionPart s = Some (fr, r) -> List.length r <= List.length s.
Proof.
  unfold fractionPart. destruct s as [|p s].
  - intros H. injection H as _ <-. lia.
  - destruct (N.eqb p (chr ".")).
    + destruct (digits s) as [ds r'] eqn:E. apply digits_length in E.
      destruct ds; [discriminate|]. intros H. injection H as _ <-. simpl. lia.
    + intros H. injection H as _ <-. lia.
Qed.

Lemma exponentSign_length (s sg r : jsstring) :
  exponentSign s = (sg, r) -> List.length r <= List.length s.
Proof.
  unfold exponentSign. destruct s as [|g s].
  - intros H. injection H as _ <-. lia.
  - destruct (N.eqb g (chr "+") || N.eqb g (chr "-"))%bool;
      intros H; injection H as _ <-; simpl; lia.
Qed.

Lemma exponentPart_length (s ex r : jsstring) :
  exponentPart s = Some (ex, r) -> List.length r <= List.length s.
Proof.
  unfold exponentPart. destruct s as [|e s].
  - intros H. injection H as _ <-. lia.
  - destruct (N.eqb e (chr "e") || N.eqb e (chr "E"))%bool.
    + destruct (exponentSign s) as [sg r1] eqn:Es.
      apply exponentSign_length in Es.
      destruct (digits r1) as [ds r2] eqn:E. apply digits_length in E.
      destruct ds; [discriminate|]. intros H. injection H as _ <-. simpl. lia.
    + intros H. injection H as _ <-. lia.
Qed.

Lemma parseNumber_length (s lexeme r : jsstring) :
  parseNumber s = Some (lexeme, r) -> List.length r < List.length s.
Proof.
  unfold parseNumber.
  destruct (minusSign s) as [sign s0] eqn:E0. apply minusSign_length in E0.
  destruct (integerPart s0) as [[int s1]|] eqn:E1; [|discriminate].
  apply integerPart_length in E1.
  destruct (fractionPart s1) as [[fr s2]|] eqn:E2; [|discriminate].
  apply fractionPart_length in E2.
  destruct (exponentPart s2) as [[ex s3]|] eqn:E3; [|discriminate].
  apply exponentPart_length in E3.
  intros H. injection H as _ <-. lia.
Qed.
(** The test that guards the result of a parser, in [H] or in the goal. *)
Ltac guard_in H :=
  match type of H with
  | (if ?b then _ else _) = _ => destruct b
  end.

Ltac guard_goal :=
  match goal with
  | |- (if ?b then _ else _) <> _ => destruct b
  end.

(** What is left after a value is shorter than the text. *)
Lemma parse_lengths (fuel : nat) :
  (forall s v r, parseValue fuel s = Parsed v r ->
                 List.length r < List.length s) /\
  (forall s acc v r, parseElements fuel s acc = Parsed v r ->
                     List.length r < List.length s) /\
  (forall s acc v r, parseMembers fuel s acc = Parsed v r ->
                     List.length r < List.length s).
Proof.
  induction fuel as [|fuel [IHv [IHe IHm]]];
    [repeat split; intros; discriminate|].
  repeat split.
  - intros s v r H. cbn [parseValue] in H.
    destruct (skipWhiteSpace s) as [|c r0] eqn:Es; [discriminate|].
    apply skipWhiteSpace_cons in Es.
    guard_in H.
    { destruct (skipWhiteSpace r0) as [|d r'] eqn:Er; [discriminate|].
      apply skipWhiteSpace_cons in Er.
      guard_in H.
      - injection H as _ <-. lia.
      - apply IHm in H. simpl in H. lia. }
    guard_in H.
    { destruct (skipWhiteSpace r0) as [|d r'] eqn:Er; [discriminate|].
      apply skipWhiteSpace_cons in Er.
      guard_in H.
      - injection H as _ <-. lia.
      - apply IHe in H. simpl in H. lia. }
    guard_in H.
    { destruct (parseString r0 []) as [[str r']|] eqn:Ep; [|discriminate].
      apply parseString_length in Ep. injection H as _ <-. lia. }
    guard_in H.
    { destruct (startsWith (js "rue") r0) as [r'|] eqn:Ep; [|discriminate].
      apply startsWith_length in Ep. injection H as _ <-. lia. }
    guard_in H.
    { destruct (startsWith (js "alse") r0) as [r'|] eqn:Ep; [|discriminate].
      apply startsWith_length in Ep. injection H as _ <-. lia. }
    guard_in H.
    { destruct (startsWith (js "ull") r0) as [r'|] eqn:Ep; [|discriminate].
      apply startsWith_length in Ep. injection H as _ <-. lia. }
    destruct (parseNumber (c :: r0)) as [[lexeme r']|] eqn:Ep; [|discriminate].
    apply parseNumber_length in Ep. injection H as _ <-. simpl in Ep. lia.
  - intros s acc v r H. cbn [parseElements] in H.
    destruct (parseValue fuel s) as [v0 r0| |] eqn:Ev; try discriminate.
    apply IHv in Ev.
    destruct (skipWhiteSpace r0) as [|c r'] eqn:Er; [discriminate|].
    apply skipWhiteSpace_cons in Er.
    guard_in H.
    + apply IHe in H. pose proof (skipWhiteSpace_length r'). lia.
    + guard_in H; [|discriminate].
      injection H as _ <-. lia.
  - intros s acc v r H. cbn [parseMembers] in H.
    destruct s as [|q r0]; [discriminate|].
    guard_in H; [discriminate|].
    destruct (parseString r0 []) as [[key r1]|] eqn:Ep; [|discriminate].
    apply parseString_length in Ep.
    destruct (skipWhiteSpace r1) as [|c r2] eqn:E1; [discriminate|].
    apply skipWhiteSpace_cons in E1.
    guard_in H; [discriminate|].
    destruct (parseValue fuel r2) as [v0 r3| |] eqn:Ev; try discriminate.
    apply IHv in Ev.
    destruct (skipWhiteSpace r3) as [|d r4] eqn:E3; [discriminate|].
    apply skipWhiteSpace_cons in E3.
    guard_in H.
    + apply IHm in H. pose proof (skipWhiteSpace_length r4). simpl. lia.
    + guard_in H; [|discriminate].
      injection H as _ <-. simpl. lia.
Qed.

(** With fuel above twice the length of the text the parser does not run
    out of it. *)
Lemma parse_fuel (fuel : nat) :
  (forall s, 2 * List.length s < fuel -> parseValue fuel s <> Exhausted) /\
  (forall s acc, 2 * List.length s + 1 < fuel ->
                 parseElements fuel s acc <> Exhausted) /\
  (forall s acc, 2 * List.length s < fuel ->
                 parseMembers fuel s acc <> Exhausted).
Proof.
  induction fuel as [|fuel [IHv [IHe IHm]]]; [repeat split; intros; lia|].
  destruct (parse_lengths fuel) as [Lv _].
  repeat split.
  - intros s Hs. cbn [parseValue].
    destruct (skipWhiteSpace s) as [|c r0] eqn:Es; [discriminate|].
    apply skipWhiteSpace_cons in Es.
    guard_goal.
    { destruct (skipWhiteSpace r0) as [|d r'] eqn:Er; [discriminate|].
      apply skipWhiteSpace_cons in Er.
      guard_goal; [discriminate|].
      apply IHm. simpl. lia. }
    guard_goal.
    { destruct (skipWhiteSpace r0) as [|d r'] eqn:Er; [discriminate|].
      apply skipWhiteSpace_cons in Er.
      guard_goal; [discriminate|].
      apply IHe. simpl. lia. }
    guard_goal;
      [destruct (parseString r0 []) as [[? ?]|]; discriminate|].
    guard_goal;
      [destruct (startsWith (js "rue") r0); discriminate|].
    guard_goal;
      [destruct (startsWith (js "alse") r0); discriminate|].
    guard_goal;
      [destruct (startsWith (js "ull") r0); discriminate|].
    destruct (parseNumber (c :: r0)) as [[? ?]|]; discriminate.
  - intros s acc Hs. cbn [parseElements].
    destruct (parseValue fuel s) as [v0 r0| |] eqn:Ev.
    + apply Lv in Ev.
      destruct (skipWhiteSpace r0) as [|c r'] eqn:Er; [discriminate|].
      apply skipWhiteSpace_cons in Er.
      guard_goal.
      * apply IHe. pose proof (skipWhiteSpace_length r'). lia.
      * guard_goal; discriminate.
    + discriminate.
    + exfalso. revert Ev. apply IHv. lia.
  - intros s acc Hs. cbn [parseMembers].
    destruct s as [|q r0]; [discriminate|]. simpl in Hs.
    guard_goal; [discriminate|].
    destruct (parseString r0 []) as [[key r1]|] eqn:Ep; [|discriminate].
    apply parseString_length in Ep.
    destruct (skipWhiteSpace r1) as [|c r2] eqn:E1; [discriminate|].
    apply skipWhiteSpace_cons in E1.
    guard_goal; [discriminate|].
    destruct (parseValue fuel r2) as [v0 r3| |] eqn:Ev.
    + apply Lv in Ev.
      destruct (skipWhiteSpace r3) as [|d r4] eqn:E3; [discriminate|].
      apply skipWhiteSpace_cons in E3.
      guard_goal.
      * apply IHm. pose proof (skipWhiteSpace_length r4). lia.
      * guard_goal; discriminate.
    + discriminate.
    + exfalso. revert Ev. apply IHv. lia.
Qed.

(** [JSON_parse] gives its parser the fuel it needs: a text is refused for
    its syntax alone. *)
Lemma JSON_parse_fuel (text : jsstring) :
  parseValue (fuelFor text) text <> Exhausted.
Proof.
  apply (proj1 (parse_fuel (fuelFor text))). unfold fuelFor. lia.
Qed.
End Fuel.

(** ** What the encoding gives *)

Functional Scheme utf8_ind := Induction for URLSearchParams.utf8 Sort Prop.

Section Encoding.
Import JS URLSearchParams.
Local Open Scope N_scope.

Ltac Zify.zify_post_hook ::= Z.to_euclidean_division_equations.

Lemma utf8_bytes (s : jsstring) :
  wellFormedString s -> Forall (fun b => b < 256) (utf8 s).
Proof.
  unfold wellFormedString.
  functional induction (utf8 s); intros H.
  - constructor.
  - inversion H; subst. apply N.ltb_lt in e0. constructor; [lia | auto].
  - inversion H; subst. apply N.ltb_lt in e1.
    repeat constructor; try lia. auto.
  - repeat constructor.
  - inversion H as [|? ? Hc Hr]; subst. inversion Hr as [|? ? Hd Hr']; subst.
    unfold isHighSurrogate in e2. unfold isLowSurrogate in e4.
    apply andb_true_iff in e2 as [Hc1 Hc2]. apply andb_true_iff in e4 as [Hd1 Hd2].
    apply N.leb_le in Hc1, Hc2, Hd1, Hd2.
    repeat constructor; try lia. auto.
  - inversion H; subst. apply Forall_app. split; [|auto].
    repeat constructor.
  - inversion H; subst. apply Forall_app. split; [|auto].
    repeat constructor.
  - inversion H as [|? ? Hc Hr]; subst. repeat constructor; try lia. auto.
Qed.

Lemma hexDigit_safe (n : N) : n < 16 -> urlSafe (hexDigit n) = true.
Proof.
  intros H. unfold urlSafe.
  assert (Ha : isAlphanumeric (hexDigit n) = true);
    [|rewrite Ha; reflexivity].
  unfold hexDigit, isAlphanumeric, isDigit.
  change (chr "0") with 48. change (chr "9") with 57.
  change (chr "A") with 65. change (chr "Z") with 90.
  destruct (N.ltb_spec n 10) as [Hlow|Hhigh].
  - apply orb_true_iff. left. apply orb_true_iff. left.
    apply andb_true_iff. split; apply N.leb_le; lia.
  - apply orb_true_iff. right.
    apply andb_true_iff. split; apply N.leb_le; lia.
Qed.

Lemma encodeByte_safe (b : N) :
  b < 256 -> Forall (fun c => urlSafe c = true) (encodeByte b).
Proof.
  intros H. unfold encodeByte.
  destruct (b =? 32); [repeat constructor|].
  destruct (isAlphanumeric b || (b =? chr "*") || (b =? chr "-") ||
            (b =? chr ".") || (b =? chr "_")) eqn:E.
  - constructor; [|constructor]. unfold urlSafe. rewrite E. reflexivity.
  - repeat constructor; apply hexDigit_safe; lia.
Qed.

(** An encoded text holds nothing that would end a tuple, split a name
    from its value or need an escape itself. *)
Lemma encode_safe (s : jsstring) :
  wellFormedString s -> Forall (fun c => urlSafe c = true) (encode s).
Proof.
  intros H. apply utf8_bytes in H. unfold encode.
  induction H as [|b bytes Hb _ IH]; [constructor|].
  simpl. apply Forall_app. split; [apply encodeByte_safe; exact Hb | exact IH].
Qed.
End Encoding.

(** ** The stream and its chunks *)

(** The streaming variant sees the text of the body, not its chunks: two
    responses with the same status, status text and text give the same
    run. *)
Lemma WatchApi_consume_chunks (STATUS_CODES : Z -> option JS.jsstring)
  (response response' : WatchApi.Response) :
  WatchApi.status response = WatchApi.status response' ->
  WatchApi.statusText response = WatchApi.statusText response' ->
  WatchApi.text response = WatchApi.text response' ->
  WatchApi.consume STATUS_CODES response = WatchApi.consume STATUS_CODES response'.
Proof.
  intros Hs Ht Hb.
  destruct (Z.eq_dec (WatchApi.status response) 200) as [H200|Hne].
  - rewrite !WatchApi_consume_200 by congruence.
    unfold linesOfStream. unfold WatchApi.text in Hb. rewrite Hb. reflexivity.
  - rewrite !WatchApi_consume_failure by congruence.
    rewrite Hs, Ht, Hb. reflexivity.
Qed.

(** ** White space around a frame *)

Section MoreFuel.
Import JS.
Local Open Scope nat_scope.

(** More fuel changes nothing for a parser that had enough. *)
Lemma parse_more_fuel (fuel : nat) :
  (forall s fuel', fuel <= fuel' -> parseValue fuel s <> Exhausted ->
                   parseValue fuel' s = parseValue fuel s) /\
  (forall s acc fuel', fuel <= fuel' -> parseElements fuel s acc <> Exhausted ->
                       parseElements fuel' s acc = parseElements fuel s acc) /\
  (forall s acc fuel', fuel <= fuel' -> parseMembers fuel s acc <> Exhausted ->
                       parseMembers fuel' s acc = parseMembers fuel s acc).
Proof.
  induction fuel as [|fuel [IHv [IHe IHm]]];
    [repeat split; intros; simpl in *; congruence|].
  repeat split.
  - intros s [|fuel'] Hle Hne; [lia|].
    assert (Hle' : fuel <= fuel') by lia.
    cbn [parseValue] in *.
    destruct (skipWhiteSpace s) as [|c r]; [reflexivity|].
    destruct (N.eqb c (chr "{")).
    { destruct (skipWhiteSpace r) as [|d r']; [reflexivity|].
      destruct (N.eqb d (chr "}")); [reflexivity|].
      apply IHm; assumption. }
    destruct (N.eqb c (chr "[")).
    { destruct (skipWhiteSpace r) as [|d r']; [reflexivity|].
      destruct (N.eqb d (chr "]")); [reflexivity|].
      apply IHe; assumption. }
    reflexivity.
  - intros s acc [|fuel'] Hle Hne; [lia|].
    assert (Hle' : fuel <= fuel') by lia.
    cbn [parseElements] in *.
    destruct (parseValue fuel s) as [v r| |] eqn:Ev; [| |congruence].
    + rewrite (IHv s fuel' Hle') by congruence. rewrite Ev.
      destruct (skipWhiteSpace r) as [|c r']; [reflexivity|].
      destruct (N.eqb c (chr ",")); [|reflexivity].
      apply IHe; assumption.
    + rewrite (IHv s fuel' Hle') by congruence. rewrite Ev. reflexivity.
  - intros s acc [|fuel'] Hle Hne; [lia|].
    assert (Hle' : fuel <= fuel') by lia.
    cbn [parseMembers] in *.
    destruct s as [|q r0]; [reflexivity|].
    destruct (negb (N.eqb q QUOTE)); [reflexivity|].
    destruct (parseString r0 []) as [[key r1]|]; [|reflexivity].
    destruct (skipWhiteSpace r1) as [|c r2]; [reflexivity|].
    destruct (negb (N.eqb c (chr ":"))); [reflexivity|].
    destruct (parseValue fuel r2) as [v r3| |] eqn:Ev; [| |congruence].
    + rewrite (IHv r2 fuel' Hle') by congruence. rewrite Ev.
      destruct (skipWhiteSpace r3) as [|d r4]; [reflexivity|].
      destruct (N.eqb d (chr ",")); [|reflexivity].
      apply IHm; assumption.
    + rewrite (IHv r2 fuel' Hle') by congruence. rewrite Ev. reflexivity.
Qed.

(** [JSON_parse] is its parser on any fuel that is enough. *)
Lemma JSON_parse_on_fuel (fuel : nat) (text : jsstring) :
  fuelFor text <= fuel ->
  parseValue fuel text = parseValue (fuelFor text) text.
Proof.
  intros H. apply (proj1 (parse_more_fuel (fuelFor text))); [exact H|].
  apply JSON_parse_fuel.
Qed.
End MoreFuel.

Section TrailingWhiteSpace.
Import JS.
Local Open Scope N_scope.

Variable c : N.
Hypothesis white : isJsonWhiteSpace c = true.

Lemma white_cases : c = 9 \/ c = LF \/ c = CR \/ c = 32.
Proof.
  unfold isJsonWhiteSpace in white.
  repeat (apply orb_true_iff in white as [white|white]);
    apply N.eqb_eq in white; auto.
Qed.

Lemma skipWhiteSpace_snoc (s : jsstring) :
  skipWhiteSpace (s ++ [c]) =
  match skipWhiteSpace s with
  | [] => []
  | d :: r => d :: r ++ [c]
  end.
Proof.
  induction s as [|d s IH]; simpl.
  - rewrite white. reflexivity.
  - destruct (isJsonWhiteSpace d); [exact IH | reflexivity].
Qed.

Lemma digits_snoc (s : jsstring) :
  digits (s ++ [c]) = (fst (digits s), snd (digits s) ++ [c]).
Proof.
  induction s as [|d s IH]; simpl.
  - destruct white_cases as [ -> | [ -> | [ -> | -> ] ] ]; reflexivity.
  - destruct (isDigit d); [|reflexivity].
    rewrite IH. destruct (digits s). reflexivity.
Qed.

Lemma startsWith_snoc (lit s : jsstring) :
  forallb (fun l => negb (isJsonWhiteSpace l)) lit = true ->
  startsWith lit (s ++ [c]) =
  match startsWith lit s with
  | Some r => Some (r ++ [c])
  | None => None
  end.
Proof.
  revert s. induction lit as [|l lit IH]; intros s Hlit.
  - destruct s; reflexivity.
  - simpl in Hlit. apply andb_true_iff in Hlit as [Hl Hlit].
    destruct s as [|d s]; simpl.
    + destruct (N.eqb_spec c l) as [<-|]; [|reflexivity].
      rewrite white in Hl. discriminate.
    + destruct (d =? l); [apply IH; exact Hlit | reflexivity].
Qed.

Lemma parseString_white (acc : jsstring) : parseString [c] acc = None.
Proof. destruct white_cases as [ -> | [ -> | [ -> | -> ] ] ]; reflexivity. Qed.

Lemma parseString_snoc (s acc : jsstring) :
  parseString (s ++ [c]) acc = leftWith c (parseString s acc).
Proof.
  remember (List.length s) as n eqn:Hn.
  revert s acc Hn. induction n as [n IH] using lt_wf_ind.
  intros s acc Hn. destruct s as [|q s].
  - apply parseString_white.
  - simpl in Hn. cbn [app parseString].
    destruct (q =? QUOTE); [reflexivity|].
    destruct (q =? BACKSLASH).
    + destruct s as [|e s].
      * destruct white_cases as [ -> | [ -> | [ -> | -> ] ] ]; reflexivity.
      * simpl in Hn. cbn [app].
        assert (Hstep : forall a, parseString (s ++ [c]) a =
                                  leftWith c (parseString s a)).
        { intros a. apply (IH (List.length s)); [lia | reflexivity]. }
        repeat match goal with
               | |- (if ?b then _ else _) = _ =>
                   destruct b; [apply Hstep|]
               end.
        destruct (e =? chr "u"); [|reflexivity].
        destruct s as [|h1 [|h2 [|h3 [|h4 s]]]].
        -- reflexivity.
        -- reflexivity.
        -- reflexivity.
        -- cbn [app]. destruct (hexValue h1), (hexValue h2), (hexValue h3);
             try reflexivity.
           destruct white_cases as [ -> | [ -> | [ -> | -> ] ] ]; reflexivity.
        -- cbn [app]. destruct (hexValue h1), (hexValue h2), (hexValue h3),
             (hexValue h4); try reflexivity.
           simpl in Hn. apply (IH (List.length s)); [lia | reflexivity].
    + destruct (q <? 32); [reflexivity|].
      apply (IH (List.length s)); [lia | reflexivity].
Qed.

Lemma minusSign_snoc (s : jsstring) :
  minusSign (s ++ [c]) = (fst (minusSign s), snd (minusSign s) ++ [c]).
Proof.
  destruct s as [|d s].
  - destruct white_cases as [ -> | [ -> | [ -> | -> ] ] ]; reflexivity.
  - unfold minusSign. cbn [app]. destruct (d =? chr "-"); reflexivity.
Qed.

Lemma integerPart_snoc (s : jsstring) :
  integerPart (s ++ [c]) = leftWith c (integerPart s).
Proof.
  destruct s as [|d s].
  - destruct white_cases as [ -> | [ -> | [ -> | -> ] ] ]; reflexivity.
  - unfold integerPart. cbn [app].
    destruct (negb (isDigit d)); [reflexivity|].
    destruct (d =? chr "0"); [reflexivity|].
    rewrite digits_snoc. destruct (digits s). reflexivity.
Qed.

Lemma fractionPart_snoc (s : jsstring) :
  fractionPart (s ++ [c]) = leftWith c (fractionPart s).
Proof.
  destruct s as [|d s].
  - destruct white_cases as [ -> | [ -> | [ -> | -> ] ] ]; reflexivity.
  - unfold fractionPart. cbn [app].
    destruct (d =? chr "."); [|reflexivity].
    rewrite digits_snoc. destruct (digits s) as [[|x ds] r]; reflexivity.
Qed.

Lemma exponentSign_snoc (s : jsstring) :
  exponentSign (s ++ [c]) = (fst (exponentSign s), snd (exponentSign s) ++ [c]).
Proof.
  destruct s as [|d s].
  - destruct white_cases as [ -> | [ -> | [ -> | -> ] ] ]; reflexivity.
  - unfold exponentSign. cbn [app].
    destruct ((d =? chr "+") || (d =? chr "-")); reflexivity.
Qed.

Lemma exponentPart_snoc (s : jsstring) :
  exponentPart (s ++ [c]) = leftWith c (exponentPart s).
Proof.
  destruct s as [|d s].
  - simpl. destruct white_cases as [ -> | [ -> | [ -> | -> ] ] ]; reflexivity.
  - unfold exponentPart. cbn [app].
    destruct ((d =? chr "e") || (d =? chr "E")); [|reflexivity].
    rewrite exponentSign_snoc. destruct (exponentSign s) as [sg r1].
    cbn [fst snd]. rewrite digits_snoc.
    destruct (digits r1) as [[|x ds] r2]; reflexivity.
Qed.

Lemma parseNumber_snoc (s : jsstring) :
  parseNumber (s ++ [c]) = leftWith c (parseNumber s).
Proof.
  unfold parseNumber. rewrite minusSign_snoc.
  destruct (minusSign s) as [sign s0]. cbn [fst snd].
  rewrite integerPart_snoc.
  destruct (integerPart s0) as [[int s1]|]; [|reflexivity]. cbn [leftWith].
  rewrite fractionPart_snoc.
  destruct (fractionPart s1) as [[fr s2]|]; [|reflexivity]. cbn [leftWith].
  rewrite exponentPart_snoc.
  destruct (exponentPart s2) as [[ex s3]|]; reflexivity.
Qed.

(** Nothing is parsed out of an empty text. *)
Lemma parse_nothing (fuel : nat) :
  (forall v r, parseValue fuel [] <> Parsed v r) /\
  (forall acc v r, parseElements fuel [] acc <> Parsed v r) /\
  (forall acc v r, parseMembers fuel [] acc <> Parsed v r).
Proof.
  destruct fuel as [|fuel]; [repeat split; intros; discriminate|].
  repeat split; intros; try discriminate.
  cbn [parseElements]. destruct fuel; discriminate.
Qed.

Lemma followedBy_nothing {A} (r : result A) :
  (forall a rest, r <> Parsed a rest) -> followedBy c r = r.
Proof. destruct r as [a rest| |]; [|reflexivity..]. intros H. exfalso. exact (H a rest eq_refl). Qed.

(** White space after a text stays after what the parser leaves. *)
Lemma parse_snoc (fuel : nat) :
  (forall s, parseValue fuel (s ++ [c]) = followedBy c (parseValue fuel s)) /\
  (forall s acc, parseElements fuel (s ++ [c]) acc =
                 followedBy c (parseElements fuel s acc)) /\
  (forall s acc, parseMembers fuel (s ++ [c]) acc =
                 followedBy c (parseMembers fuel s acc)).
Proof.
  induction fuel as [|fuel [IHv [IHe IHm]]]; [repeat split; reflexivity|].
  repeat split.
  - intros s. cbn [parseValue]. rewrite skipWhiteSpace_snoc.
    destruct (skipWhiteSpace s) as [|d r]; [reflexivity|].
    destruct (d =? chr "{").
    { rewrite skipWhiteSpace_snoc.
      destruct (skipWhiteSpace r) as [|x r']; [reflexivity|].
      destruct (x =? chr "}"); [reflexivity|].
      apply (IHm (x :: r')). }
    destruct (d =? chr "[").
    { rewrite skipWhiteSpace_snoc.
      destruct (skipWhiteSpace r) as [|x r']; [reflexivity|].
      destruct (x =? chr "]"); [reflexivity|].
      apply (IHe (x :: r')). }
    destruct (d =? QUOTE).
    { rewrite parseString_snoc.
      destruct (parseString r []) as [[str r']|]; reflexivity. }
    destruct (d =? chr "t").
    { rewrite startsWith_snoc by reflexivity.
      destruct (startsWith (js "rue") r); reflexivity. }
    destruct (d =? chr "f").
    { rewrite startsWith_snoc by reflexivity.
      destruct (startsWith (js "alse") r); reflexivity. }
    destruct (d =? chr "n").
    { rewrite startsWith_snoc by reflexivity.
      destruct (startsWith (js "ull") r); reflexivity. }
    change (d :: r ++ [c]) with ((d :: r) ++ [c]).
    rewrite parseNumber_snoc.
    destruct (parseNumber (d :: r)) as [[lexeme r']|]; reflexivity.
  - intros s acc. cbn [parseElements]. rewrite IHv.
    destruct (parseValue fuel s) as [v r| |]; [|reflexivity..].
    cbn [followedBy]. rewrite skipWhiteSpace_snoc.
    destruct (skipWhiteSpace r) as [|d r']; [reflexivity|].
    destruct (d =? chr ","); [|destruct (d =? chr "]"); reflexivity].
    rewrite skipWhiteSpace_snoc.
    destruct (skipWhiteSpace r') as [|x r''].
    + symmetry. apply followedBy_nothing.
      apply (proj1 (proj2 (parse_nothing fuel))).
    + apply (IHe (x :: r'')).
  - intros s acc. cbn [parseMembers].
    destruct s as [|q r0].
    + cbn [app]. destruct white_cases as [ -> | [ -> | [ -> | -> ] ] ]; reflexivity.
    + cbn [app]. destruct (negb (q =? QUOTE)); [reflexivity|].
      rewrite parseString_snoc.
      destruct (parseString r0 []) as [[key r1]|]; [|reflexivity].
      cbn [leftWith]. rewrite skipWhiteSpace_snoc.
      destruct (skipWhiteSpace r1) as [|x r2]; [reflexivity|].
      destruct (negb (x =? chr ":")); [reflexivity|].
      rewrite IHv.
      destruct (parseValue fuel r2) as [v r3| |]; [|reflexivity..].
      cbn [followedBy]. rewrite skipWhiteSpace_snoc.
      destruct (skipWhiteSpace r3) as [|d r4]; [reflexivity|].
      destruct (d =? chr ","); [|destruct (d =? chr "}"); reflexivity].
      rewrite skipWhiteSpace_snoc.
      destruct (skipWhiteSpace r4) as [|y r5].
      * symmetry. apply followedBy_nothing.
        apply (proj2 (proj2 (parse_nothing fuel))).
      * apply (IHm (y :: r5)).
Qed.

(** [JSON.parse] does not see white space after the text. *)
Lemma JSON_parse_snoc (text : jsstring) :
  JSON_parse (text ++ [c]) = JSON_parse text.
Proof.
  unfold JSON_parse.
  rewrite (proj1 (parse_snoc (fuelFor (text ++ [c])))).
  rewrite (JSON_parse_on_fuel (fuelFor (text ++ [c])) text)
    by (unfold fuelFor; rewrite length_app; simpl; lia).
  destruct (parseValue (fuelFor text) text) as [v rest| |]; [|reflexivity..].
  cbn [followedBy]. rewrite skipWhiteSpace_snoc.
  destruct (skipWhiteSpace rest); reflexivity.
Qed.

(** Nor before it. *)
Lemma JSON_parse_cons (text : jsstring) :
  JSON_parse (c :: text) = JSON_parse text.
Proof.
  unfold JSON_parse.
  assert (E : forall fuel, parseValue fuel (c :: text) = parseValue fuel text).
  { intros [|fuel]; [reflexivity|]. cbn [parseValue]. simpl skipWhiteSpace.
    rewrite white. reflexivity. }
  rewrite E.
  rewrite (JSON_parse_on_fuel (fuelFor (c :: text)) text)
    by (unfold fuelFor; simpl; lia).
  reflexivity.
Qed.
End TrailingWhiteSpace.

Section Padding.
Import JS.

Lemma JSON_parse_padded (before after text : jsstring) :
  jsonWhite before = true -> jsonWhite after = true ->
  JSON_parse (before ++ text ++ after) = JSON_parse text.
Proof.
  unfold jsonWhite. intros Hb Ha.
  induction before as [|c before IH]; simpl.
  - clear Hb. induction after as [|c after IH] using rev_ind.
    + rewrite app_nil_r. reflexivity.
    + rewrite forallb_app in Ha. apply andb_true_iff in Ha as [Ha Hc].
      simpl in Hc. rewrite andb_true_r in Hc.
      rewrite app_assoc, (JSON_parse_snoc c Hc). exact (IH Ha).
  - simpl in Hb. apply andb_true_iff in Hb as [Hc Hb].
    rewrite (JSON_parse_cons c Hc). exact (IH Hb).
Qed.

Lemma contribution_padded (before after text : jsstring) :
  jsonWhite before = true -> jsonWhite after = true ->
  contribution (before ++ text ++ after) = contribution text.
Proof.
  intros Hb Ha. unfold contribution, eventOf.
  rewrite (JSON_parse_padded before after text Hb Ha). reflexivity.
Qed.

(** Lines that end with a carriage return and a line feed, read whole:
    the carriage return stays at the end of each line but the last. *)
Lemma contributions_CRLF_whole (line : jsstring) (lines : list jsstring) :
  Forall (fun l => Readline.hasLineEnding l = false) (line :: lines) ->
  flat_map contribution (split LF (join [CR; LF] (line :: lines))) =
  flat_map contribution (line :: lines).
Proof.
  revert line. induction lines as [|l lines IH]; intros line H.
  - inversion H as [|? ? Hl _]; subst.
    change (join [CR; LF] [line]) with line.
    rewrite split_lineFree; [reflexivity|].
    unfold lineFree. unfold Readline.hasLineEnding in Hl.
    clear H. induction line as [|c line IHl]; [reflexivity|].
    simpl in *. apply orb_false_iff in Hl as [Hc Hl].
    rewrite (IHl Hl), andb_true_r.
    destruct (N.eqb_spec c LF) as [->|]; [discriminate | reflexivity].
  - inversion H as [|? ? Hl Hrest]; subst.
    change (join [CR; LF] (line :: l :: lines))
      with (line ++ CR :: LF :: join [CR; LF] (l :: lines)).
    replace (line ++ CR :: LF :: join [CR; LF] (l :: lines))
      with ((line ++ [CR]) ++ LF :: join [CR; LF] (l :: lines))
      by (rewrite <- app_assoc; reflexivity).
    rewrite split_app, contributions_app, (IH l Hrest).
    rewrite split_lineFree.
    + cbn [flat_map]. rewrite app_nil_r.
      change (contribution (line ++ [CR]))
        with (contribution ([] ++ line ++ [CR])).
      rewrite (contribution_padded [] [CR] line) by reflexivity.
      reflexivity.
    + unfold lineFree. rewrite forallb_app. simpl. rewrite andb_true_r.
      unfold Readline.hasLineEnding in Hl.
      clear - Hl. induction line as [|c line IHl]; [reflexivity|].
      simpl in *. apply orb_false_iff in Hl as [Hc Hl].
      rewrite (IHl Hl), andb_true_r.
      destruct (N.eqb_spec c LF) as [->|]; [discriminate | reflexivity].
Qed.

(** The same lines, read as a stream. *)
Lemma splitLines_CRLF_join (line : jsstring) (lines : list jsstring) :
  Forall (fun l => Readline.hasLineEnding l = false) (line :: lines) ->
  Readline.splitLines (join [CR; LF] (line :: lines)) = line :: lines.
Proof.
  revert line. induction lines as [|l lines IH]; intros line H.
  - simpl. apply splitLines_plain. inversion H; assumption.
  - inversion H as [|? ? Hl Hrest]; subst.
    change (join [CR; LF] (line :: l :: lines))
      with (line ++ CR :: LF :: join [CR; LF] (l :: lines)).
    rewrite splitLines_plain_app by exact Hl.
    rewrite splitLines_CRLF by reflexivity.
    rewrite IH by exact Hrest. rewrite app_nil_r. reflexivity.
Qed.

(** Read whole, the carriage returns do not show even when the lines hold
    some themselves. *)
Lemma contributions_CRLF_split (line : jsstring) (lines : list jsstring) :
  Forall (fun l => lineFree LF l = true) (line :: lines) ->
  flat_map contribution (split LF (join [CR; LF] (line :: lines))) =
  flat_map contribution (line :: lines).
Proof.
  revert line. induction lines as [|l lines IH]; intros line H.
  - inversion H as [|? ? Hl _]; subst.
    change (join [CR; LF] [line]) with line.
    rewrite split_lineFree by exact Hl. reflexivity.
  - inversion H as [|? ? Hl Hrest]; subst.
    change (join [CR; LF] (line :: l :: lines))
      with (line ++ CR :: LF :: join [CR; LF] (l :: lines)).
    replace (line ++ CR :: LF :: join [CR; LF] (l :: lines))
      with ((line ++ [CR]) ++ LF :: join [CR; LF] (l :: lines))
      by (rewrite <- app_assoc; reflexivity).
    rewrite split_app, contributions_app, (IH l Hrest).
    rewrite split_lineFree.
    + cbn [flat_map]. rewrite app_nil_r.
      change (contribution (line ++ [CR]))
        with (contribution ([] ++ line ++ [CR])).
      rewrite (contribution_padded [] [CR] line) by reflexivity.
      reflexivity.
    + unfold lineFree. rewrite forallb_app. fold (lineFree LF line).
      rewrite Hl. reflexivity.
Qed.

(** The events of a body whose lines are separated by newlines are those
    of its lines, read whole and read as a stream. *)
Lemma contributions_whole (separator : jsstring) (lines : list jsstring) :
  newline separator ->
  Forall (fun l => lineFree LF l = true) lines ->
  flat_map contribution (linesOfText (join separator lines)) =
  flat_map contribution lines.
Proof.
  intros Hsep Hfree. destruct lines as [|line lines].
  - change (linesOfText (join separator [])) with ([[]] : list jsstring).
    cbn [flat_map]. rewrite contribution_nil. reflexivity.
  - destruct Hsep as [ -> | -> ].
    + rewrite linesOfText_join by (discriminate || exact Hfree). reflexivity.
    + apply contributions_CRLF_split. exact Hfree.
Qed.

Lemma contributions_stream (separator : jsstring) (lines : list jsstring) :
  newline separator ->
  Forall (fun l => Readline.hasLineEnding l = false) lines ->
  flat_map contribution (Readline.splitLines (join separator lines)) =
  flat_map contribution lines.
Proof.
  intros Hsep Hfree. destruct lines as [|line lines].
  - change (Readline.splitLines (join separator []))
      with ([[]] : list jsstring).
    cbn [flat_map]. rewrite contribution_nil. reflexivity.
  - destruct Hsep as [ -> | -> ].
    + rewrite splitLines_join by exact Hfree. reflexivity.
    + rewrite splitLines_CRLF_join by exact Hfree. reflexivity.
Qed.
End Padding.

(** * The claims *)

(** C1.  When the response has status 200 and its body is a list of lines
    separated by newlines (line feeds, or carriage returns with line
    feeds), each line a frame or noise, the kinds of the events that
    [watch] yields are, in order, the [type] fields of the lines that are
    JSON texts and not blank: one kind for each such line, none left out,
    none twice, none out of its place.  The run ends without a failure.  In
    the whole-body variant, and in the streaming one however the body is cut
    in chunks; the lines of the streaming variant hold no carriage return,
    which would end a line there. *)
Theorem watch_kinds_in_order
  (STATUS_CODES : Z -> option JS.jsstring)
  (cfg : WatchIterator.Configuration) (path : JS.jsstring)
  (options : WatchIterator.WatchOptions)
  (response : WatchIterator.ResponseContext)
  (new_URL : JS.jsstring -> JS.JsError + URL)
  (fetch : URL -> WatchApi.RequestInit -> rejection + WatchApi.Response)
  (number : Type) (Number_toString : number -> JS.jsstring)
  (this : WatchApi.WatchApi) (apiPath : JS.jsstring)
  (queryParams : WatchApi.entries number)
  (apiResponse : WatchApi.Response) :
  answersIterator cfg path options response ->
  WatchIterator.httpStatusCode response = 200%Z ->
  answersApi new_URL fetch Number_toString this apiPath queryParams apiResponse ->
  WatchApi.status apiResponse = 200%Z ->
  (Gen.outcome (WatchIterator.watch STATUS_CODES cfg path options) = Gen.Return tt /\
   (forall separator lines,
      newline separator ->
      WatchIterator.body_text response = JS.join separator lines ->
      Forall (fun l => lineFree JS.LF l = true) lines ->
      wellFormed lines ->
      map type (Gen.yielded (WatchIterator.watch STATUS_CODES cfg path options)) =
      typeFields lines)) /\
  (Gen.outcome (WatchApi.watch STATUS_CODES new_URL fetch Number_toString
                  this apiPath queryParams) = Gen.Return tt /\
   (forall separator lines,
      newline separator ->
      WatchApi.text apiResponse = JS.join separator lines ->
      Forall (fun l => Readline.hasLineEnding l = false) lines ->
      wellFormed lines ->
      map type (Gen.yielded (WatchApi.watch STATUS_CODES new_URL fetch
                               Number_toString this apiPath queryParams)) =
      typeFields lines)).
Proof.
  intros Hans H200 HansA H200A. split.
  - rewrite (WatchIterator_watch_answered _ _ _ _ _ Hans).
    rewrite WatchIterator_consume_200 by exact H200.
    split; [reflexivity|].
    intros separator lines Hsep Hbody Hfree Hwf. simpl Gen.yielded.
    rewrite Hbody, (contributions_whole separator lines Hsep Hfree).
    apply kinds_of_contributions. exact Hwf.
  - rewrite (WatchApi_watch_answered _ _ _ _ _ _ _ _ _ HansA).
    rewrite WatchApi_consume_200 by exact H200A.
    split; [reflexivity|].
    intros separator lines Hsep Hbody Hfree Hwf. simpl Gen.yielded.
    unfold linesOfStream.
    change (List.concat (WatchApi.response_body apiResponse))
      with (WatchApi.text apiResponse).
    rewrite Hbody, (contributions_stream separator lines Hsep Hfree).
    apply kinds_of_contributions. exact Hwf.
Qed.

(** A witness of C1: the three events of the tests, read whole and read in
    two chunks that break a line, give the kinds ADDED, MODIFIED and
    DELETED in that order. *)
Lemma watch_kinds_in_order_witness :
  map type (Gen.yielded (Fixtures.runIterator Fixtures.threeEvents 200
                           WatchIterator.noOptions)) =
    [JS.Val (JS.JString (JS.js "ADDED"));
     JS.Val (JS.JString (JS.js "MODIFIED"));
     JS.Val (JS.JString (JS.js "DELETED"))] /\
  map type (Gen.yielded (Fixtures.runApi (Fixtures.inChunks Fixtures.threeEvents)
                           200 [])) =
    [JS.Val (JS.JString (JS.js "ADDED"));
     JS.Val (JS.JString (JS.js "MODIFIED"));
     JS.Val (JS.JString (JS.js "DELETED"))].
Proof.
  destruct (watch_kinds_in_order Fixtures.STATUS_CODES
           (Fixtures.createMockConfiguration Fixtures.server Fixtures.threeEvents 200)
           Fixtures.pods WatchIterator.noOptions
           (WatchIterator.mkResponseContext 200 Fixtures.threeEvents)
           Fixtures.new_URL
           (Fixtures.createTestServer (Fixtures.inChunks Fixtures.threeEvents) 200)
           Z Fixtures.Number_toString
           (Fixtures.makeApiClient (Fixtures.createKubeConfigForServer Fixtures.server))
           Fixtures.pods []
           (WatchApi.mkResponse 200 [] (Fixtures.inChunks Fixtures.threeEvents)))
    as [[_ Hwhole] [_ Hstream]].
  - eexists. split; reflexivity.
  - reflexivity.
  - eexists. eexists. split; reflexivity.
  - reflexivity.
  - split.
    + transitivity
        (typeFields [Fixtures.added; Fixtures.modified; Fixtures.deleted]).
      * apply (Hwhole [JS.LF]);
          [left; reflexivity | reflexivity | repeat constructor
          | vm_compute; reflexivity].
      * vm_compute. reflexivity.
    + transitivity
        (typeFields [Fixtures.added; Fixtures.modified; Fixtures.deleted]).
      * apply (Hstream [JS.LF]);
          [left; reflexivity | vm_compute; reflexivity | repeat constructor
          | vm_compute; reflexivity].
      * vm_compute. reflexivity.
Defined.

(** C2.  With status 200, a line that is empty, blank or no JSON text
    yields nothing and does not stop the decoding: the events are those of
    the lines before it followed by those of the lines after it, and the
    run ends without a failure.  A body that is empty or blank yields no
    event.  In the whole-body variant and in the streaming one, however
    the body is cut in chunks. *)
Theorem noise_lines_yield_nothing
  (STATUS_CODES : Z -> option JS.jsstring)
  (cfg : WatchIterator.Configuration) (path : JS.jsstring)
  (options : WatchIterator.WatchOptions)
  (response : WatchIterator.ResponseContext)
  (new_URL : JS.jsstring -> JS.JsError + URL)
  (fetch : URL -> WatchApi.RequestInit -> rejection + WatchApi.Response)
  (number : Type) (Number_toString : number -> JS.jsstring)
  (this : WatchApi.WatchApi) (apiPath : JS.jsstring)
  (queryParams : WatchApi.entries number)
  (apiResponse : WatchApi.Response) :
  answersIterator cfg path options response ->
  WatchIterator.httpStatusCode response = 200%Z ->
  answersApi new_URL fetch Number_toString this apiPath queryParams apiResponse ->
  WatchApi.status apiResponse = 200%Z ->
  (Gen.outcome (WatchIterator.watch STATUS_CODES cfg path options) = Gen.Return tt /\
   (forall pre bad post,
      WatchIterator.body_text response = JS.join [JS.LF] (pre ++ bad :: post) ->
      Forall (fun l => lineFree JS.LF l = true) (pre ++ bad :: post) ->
      noise bad ->
      Gen.yielded (WatchIterator.watch STATUS_CODES cfg path options) =
      flat_map contribution pre ++ flat_map contribution post) /\
   (blank (WatchIterator.body_text response) = true ->
    Gen.yielded (WatchIterator.watch STATUS_CODES cfg path options) = [])) /\
  (Gen.outcome (WatchApi.watch STATUS_CODES new_URL fetch Number_toString
                  this apiPath queryParams) = Gen.Return tt /\
   (forall pre bad post,
      WatchApi.text apiResponse = JS.join [JS.LF] (pre ++ bad :: post) ->
      Forall (fun l => Readline.hasLineEnding l = false) (pre ++ bad :: post) ->
      noise bad ->
      Gen.yielded (WatchApi.watch STATUS_CODES new_URL fetch Number_toString
                     this apiPath queryParams) =
      flat_map contribution pre ++ flat_map contribution post) /\
   (blank (WatchApi.text apiResponse) = true ->
    Gen.yielded (WatchApi.watch STATUS_CODES new_URL fetch Number_toString
                   this apiPath queryParams) = [])).
Proof.
  intros Hans H200 HansA H200A. split.
  - rewrite (WatchIterator_watch_answered _ _ _ _ _ Hans).
    rewrite WatchIterator_consume_200 by exact H200.
    split; [reflexivity|]. split.
    + intros pre bad post Hbody Hfree Hnoise. simpl Gen.yielded.
      rewrite Hbody, linesOfText_join
        by (apply cons_in_middle_not_nil || exact Hfree).
      apply contributions_without_noise. exact Hnoise.
    + intros Hblank. simpl Gen.yielded.
      apply contributions_all_blank, split_blank. exact Hblank.
  - rewrite (WatchApi_watch_answered _ _ _ _ _ _ _ _ _ HansA).
    rewrite WatchApi_consume_200 by exact H200A.
    split; [reflexivity|]. split.
    + intros pre bad post Hbody Hfree Hnoise. simpl Gen.yielded.
      rewrite (linesOfStream_join _ (pre ++ bad :: post)).
      * apply contributions_without_noise. exact Hnoise.
      * intro E. symmetry in E. revert E. apply app_cons_not_nil.
      * exact Hfree.
      * exact Hbody.
    + intros Hblank. simpl Gen.yielded.
      apply contributions_all_blank, splitLines_blank. exact Hblank.
Qed.

(** A witness of C2: the body of the tests with a line that is no JSON
    text gives the two events around it. *)
Lemma noise_lines_yield_nothing_witness :
  Gen.yielded (Fixtures.runIterator Fixtures.withInvalid 200 WatchIterator.noOptions) =
    flat_map contribution [Fixtures.added] ++ flat_map contribution [Fixtures.added] /\
  Gen.yielded (Fixtures.runApi (Fixtures.inChunks Fixtures.withInvalid) 200 []) =
    flat_map contribution [Fixtures.added] ++ flat_map contribution [Fixtures.added].
Proof.
  destruct (noise_lines_yield_nothing Fixtures.STATUS_CODES
           (Fixtures.createMockConfiguration Fixtures.server Fixtures.withInvalid 200)
           Fixtures.pods WatchIterator.noOptions
           (WatchIterator.mkResponseContext 200 Fixtures.withInvalid)
           Fixtures.new_URL
           (Fixtures.createTestServer (Fixtures.inChunks Fixtures.withInvalid) 200)
           Z Fixtures.Number_toString
           (Fixtures.makeApiClient (Fixtures.createKubeConfigForServer Fixtures.server))
           Fixtures.pods []
           (WatchApi.mkResponse 200 [] (Fixtures.inChunks Fixtures.withInvalid)))
    as [[_ [Hwhole _]] [_ [Hstream _]]].
  - eexists. split; reflexivity.
  - reflexivity.
  - eexists. eexists. split; reflexivity.
  - reflexivity.
  - split.
    + apply (Hwhole [Fixtures.added] Fixtures.invalidLine [Fixtures.added]).
      * reflexivity.
      * repeat constructor.
      * right. reflexivity.
    + apply (Hstream [Fixtures.added] Fixtures.invalidLine [Fixtures.added]).
      * vm_compute. reflexivity.
      * repeat constructor.
      * right. reflexivity.
Defined.

(** C3, as the code has it.  The streaming variant does not discard an
    unterminated last fragment: a body that is one frame without a line
    ending gives its event. *)
Lemma streaming_decodes_trailing_fragment :
  Readline.hasLineEnding Fixtures.added = false /\
  map type (Gen.yielded (Fixtures.runApi [Fixtures.added] 200 [])) =
    [JS.Val (JS.JString (JS.js "ADDED"))].
Proof. split; vm_compute; reflexivity. Qed.

(** C3, amended.  With status 200, when the body ends with a fragment that
    no line ending closes, that fragment is decoded as a frame, once, after
    every line before it: in the whole-body variant (where a line ends at a
    line feed) and in the streaming one (where it ends at a line
    feed or at a carriage return), however the body is cut in chunks. *)
Theorem trailing_fragment_decoded_once
  (STATUS_CODES : Z -> option JS.jsstring)
  (cfg : WatchIterator.Configuration) (path : JS.jsstring)
  (options : WatchIterator.WatchOptions)
  (response : WatchIterator.ResponseContext)
  (new_URL : JS.jsstring -> JS.JsError + URL)
  (fetch : URL -> WatchApi.RequestInit -> rejection + WatchApi.Response)
  (number : Type) (Number_toString : number -> JS.jsstring)
  (this : WatchApi.WatchApi) (apiPath : JS.jsstring)
  (queryParams : WatchApi.entries number)
  (apiResponse : WatchApi.Response)
  (prefix frag apiPrefix apiFrag : JS.jsstring) :
  answersIterator cfg path options response ->
  WatchIterator.httpStatusCode response = 200%Z ->
  WatchIterator.body_text response = prefix ++ frag ->
  prefix = [] \/ (exists t, prefix = t ++ [JS.LF]) ->
  lineFree JS.LF frag = true ->
  answersApi new_URL fetch Number_toString this apiPath queryParams apiResponse ->
  WatchApi.status apiResponse = 200%Z ->
  WatchApi.text apiResponse = apiPrefix ++ apiFrag ->
  apiPrefix = [] \/
    (exists t c, apiPrefix = t ++ [c] /\ Readline.isLineEnding c = true) ->
  Readline.hasLineEnding apiFrag = false ->
  Gen.yielded (WatchIterator.watch STATUS_CODES cfg path options) =
    flat_map contribution (linesOfText prefix) ++ contribution frag /\
  Gen.yielded (WatchApi.watch STATUS_CODES new_URL fetch Number_toString
                 this apiPath queryParams) =
    flat_map contribution (Readline.splitLines apiPrefix) ++ contribution apiFrag.
Proof.
  intros Hans H200 Hbody Hprefix Hfrag HansA H200A HbodyA HprefixA HfragA. split.
  - rewrite (WatchIterator_watch_answered _ _ _ _ _ Hans).
    rewrite WatchIterator_consume_200 by exact H200.
    simpl Gen.yielded. rewrite Hbody.
    apply linesOfText_trailing; assumption.
  - rewrite (WatchApi_watch_answered _ _ _ _ _ _ _ _ _ HansA).
    rewrite WatchApi_consume_200 by exact H200A.
    simpl Gen.yielded. unfold linesOfStream.
    change (List.concat (WatchApi.response_body apiResponse))
      with (WatchApi.text apiResponse).
    rewrite HbodyA. apply splitLines_trailing; assumption.
Qed.

(** A witness of C3 (amended): the last frame of the tests' body has no
    line ending after it. *)
Lemma trailing_fragment_decoded_once_witness :
  Gen.yielded (Fixtures.runIterator Fixtures.threeEvents 200 WatchIterator.noOptions) =
    flat_map contribution
      (linesOfText (Fixtures.added ++ JS.LF :: Fixtures.modified ++ [JS.LF])) ++
    contribution Fixtures.deleted /\
  Gen.yielded (Fixtures.runApi (Fixtures.inChunks Fixtures.threeEvents) 200 []) =
    flat_map contribution
      (Readline.splitLines (Fixtures.added ++ JS.LF :: Fixtures.modified ++ [JS.LF])) ++
    contribution Fixtures.deleted.
Proof.
  apply (trailing_fragment_decoded_once Fixtures.STATUS_CODES
           (Fixtures.createMockConfiguration Fixtures.server Fixtures.threeEvents 200)
           Fixtures.pods WatchIterator.noOptions
           (WatchIterator.mkResponseContext 200 Fixtures.threeEvents)
           Fixtures.new_URL
           (Fixtures.createTestServer (Fixtures.inChunks Fixtures.threeEvents) 200)
           Z Fixtures.Number_toString
           (Fixtures.makeApiClient (Fixtures.createKubeConfigForServer Fixtures.server))
           Fixtures.pods []
           (WatchApi.mkResponse 200 [] (Fixtures.inChunks Fixtures.threeEvents))).
  - eexists. split; reflexivity.
  - reflexivity.
  - reflexivity.
  - right. exists (Fixtures.added ++ JS.LF :: Fixtures.modified).
    rewrite <- app_assoc. reflexivity.
  - reflexivity.
  - eexists. eexists. split; reflexivity.
  - reflexivity.
  - vm_compute. reflexivity.
  - right. exists (Fixtures.added ++ JS.LF :: Fixtures.modified), JS.LF.
    split; [rewrite <- app_assoc; reflexivity | reflexivity].
  - reflexivity.
Defined.

(** C4.  A response whose status is not 200 makes [watch] yield no event
    and end with one failure that carries the status code; the body is not
    decoded, whatever it holds.  In the whole-body variant and in the
    streaming one. *)
Theorem non_200_fails_with_status
  (STATUS_CODES : Z -> option JS.jsstring)
  (cfg : WatchIterator.Configuration) (path : JS.jsstring)
  (options : WatchIterator.WatchOptions)
  (response : WatchIterator.ResponseContext)
  (new_URL : JS.jsstring -> JS.JsError + URL)
  (fetch : URL -> WatchApi.RequestInit -> rejection + WatchApi.Response)
  (number : Type) (Number_toString : number -> JS.jsstring)
  (this : WatchApi.WatchApi) (apiPath : JS.jsstring)
  (queryParams : WatchApi.entries number)
  (apiResponse : WatchApi.Response) :
  answersIterator cfg path options response ->
  WatchIterator.httpStatusCode response <> 200%Z ->
  answersApi new_URL fetch Number_toString this apiPath queryParams apiResponse ->
  WatchApi.status apiResponse <> 200%Z ->
  (Gen.yielded (WatchIterator.watch STATUS_CODES cfg path options) = [] /\
   exists e,
     Gen.outcome (WatchIterator.watch STATUS_CODES cfg path options) =
       Gen.Throw (WatchIterator.ThrowWatchError e) /\
     WatchIterator.statusCode e = Some (WatchIterator.httpStatusCode response)) /\
  (Gen.yielded (WatchApi.watch STATUS_CODES new_URL fetch Number_toString
                  this apiPath queryParams) = [] /\
   exists e,
     Gen.outcome (WatchApi.watch STATUS_CODES new_URL fetch Number_toString
                    this apiPath queryParams) =
       Gen.Throw (WatchApi.ThrowApiException e) /\
     WatchApi.code e = WatchApi.status apiResponse).
Proof.
  intros Hans Hs HansA HsA. split.
  - rewrite (WatchIterator_watch_answered _ _ _ _ _ Hans).
    rewrite WatchIterator_consume_failure by exact Hs.
    split; [reflexivity|]. eexists. split; reflexivity.
  - rewrite (WatchApi_watch_answered _ _ _ _ _ _ _ _ _ HansA).
    rewrite WatchApi_consume_failure by exact HsA.
    split; [reflexivity|]. eexists. split; reflexivity.
Qed.

(** A witness of C4: the status 500 of the tests, over a body that holds a
    frame. *)
Lemma non_200_fails_with_status_witness :
  (Gen.yielded (Fixtures.runIterator Fixtures.added 500 WatchIterator.noOptions) = [] /\
   exists e,
     Gen.outcome (Fixtures.runIterator Fixtures.added 500 WatchIterator.noOptions) =
       Gen.Throw (WatchIterator.ThrowWatchError e) /\
     WatchIterator.statusCode e = Some 500%Z) /\
  (Gen.yielded (Fixtures.runApi [Fixtures.added] 500 []) = [] /\
   exists e,
     Gen.outcome (Fixtures.runApi [Fixtures.added] 500 []) =
       Gen.Throw (WatchApi.ThrowApiException e) /\
     WatchApi.code e = 500%Z).
Proof.
  apply (non_200_fails_with_status Fixtures.STATUS_CODES
           (Fixtures.createMockConfiguration Fixtures.server Fixtures.added 500)
           Fixtures.pods WatchIterator.noOptions
           (WatchIterator.mkResponseContext 500 Fixtures.added)
           Fixtures.new_URL (Fixtures.createTestServer [Fixtures.added] 500)
           Z Fixtures.Number_toString
           (Fixtures.makeApiClient (Fixtures.createKubeConfigForServer Fixtures.server))
           Fixtures.pods []
           (WatchApi.mkResponse 500 [] [Fixtures.added])).
  - eexists. split; reflexivity.
  - discriminate.
  - eexists. eexists. split; reflexivity.
  - discriminate.
Defined.

(** C5, as the code has it.  The failure of the whole-body variant does
    not carry the response body: two responses with status 500 and
    different bodies give the same failure. *)
Lemma watch_error_has_no_body :
  JS.eqb (JS.js "first body") (JS.js "second body") = false /\
  Fixtures.runIterator (JS.js "first body") 500 WatchIterator.noOptions =
  Fixtures.runIterator (JS.js "second body") 500 WatchIterator.noOptions.
Proof. split; vm_compute; reflexivity. Qed.

(** C5, amended.  For a response whose status is not 200, the failure of
    the streaming variant is an [ApiException] with the status code, a
    status description that is not empty (the status text of the
    response, else the entry of [STATUS_CODES], else a fixed text) and the
    text of the body; the failure of the whole-body variant is a
    [WatchError] with the status code and a description that is not empty
    (the entry of [STATUS_CODES], else a fixed text), and nothing of the
    body. *)
Theorem protocol_failure_carries
  (STATUS_CODES : Z -> option JS.jsstring)
  (cfg : WatchIterator.Configuration) (path : JS.jsstring)
  (options : WatchIterator.WatchOptions)
  (response : WatchIterator.ResponseContext)
  (new_URL : JS.jsstring -> JS.JsError + URL)
  (fetch : URL -> WatchApi.RequestInit -> rejection + WatchApi.Response)
  (number : Type) (Number_toString : number -> JS.jsstring)
  (this : WatchApi.WatchApi) (apiPath : JS.jsstring)
  (queryParams : WatchApi.entries number)
  (apiResponse : WatchApi.Response) :
  answersIterator cfg path options response ->
  WatchIterator.httpStatusCode response <> 200%Z ->
  answersApi new_URL fetch Number_toString this apiPath queryParams apiResponse ->
  WatchApi.status apiResponse <> 200%Z ->
  (exists description,
     Gen.outcome (WatchIterator.watch STATUS_CODES cfg path options) =
       Gen.Throw (WatchIterator.ThrowWatchError
                    (WatchIterator.mkWatchError description
                       (Some (WatchIterator.httpStatusCode response)))) /\
     description =
       JS.or_else (STATUS_CODES (WatchIterator.httpStatusCode response))
                  (JS.js "Unknown Error") /\
     description <> []) /\
  (exists description,
     Gen.outcome (WatchApi.watch STATUS_CODES new_URL fetch Number_toString
                    this apiPath queryParams) =
       Gen.Throw (WatchApi.ThrowApiException
                    (WatchApi.mkApiException (WatchApi.status apiResponse)
                       description (WatchApi.text apiResponse) [])) /\
     description =
       JS.or_else (Some (WatchApi.statusText apiResponse))
         (JS.or_else (STATUS_CODES (WatchApi.status apiResponse))
                     (JS.js "Internal Server Error")) /\
     description <> []).
Proof.
  intros Hans Hs HansA HsA. split.
  - rewrite (WatchIterator_watch_answered _ _ _ _ _ Hans).
    rewrite WatchIterator_consume_failure by exact Hs.
    eexists. split; [reflexivity|]. split; [reflexivity|].
    apply or_else_not_empty. discriminate.
  - rewrite (WatchApi_watch_answered _ _ _ _ _ _ _ _ _ HansA).
    rewrite WatchApi_consume_failure by exact HsA.
    eexists. split; [reflexivity|]. split; [reflexivity|].
    apply or_else_not_empty, or_else_not_empty. discriminate.
Qed.

(** A witness of C5 (amended): the status 500 of the tests. *)
Lemma protocol_failure_carries_witness :
  (exists description,
     Gen.outcome (Fixtures.runIterator (JS.js "Internal Server Error") 500
                    WatchIterator.noOptions) =
       Gen.Throw (WatchIterator.ThrowWatchError
                    (WatchIterator.mkWatchError description (Some 500%Z))) /\
     description =
       JS.or_else (Fixtures.STATUS_CODES 500) (JS.js "Unknown Error") /\
     description <> []) /\
  (exists description,
     Gen.outcome (Fixtures.runApi [JS.js "Internal "; JS.js "Server Error"] 500 []) =
       Gen.Throw (WatchApi.ThrowApiException
                    (WatchApi.mkApiException 500 description
                       (JS.js "Internal " ++ JS.js "Server Error" ++ []) [])) /\
     description =
       JS.or_else (Some [])
         (JS.or_else (Fixtures.STATUS_CODES 500) (JS.js "Internal Server Error")) /\
     description <> []).
Proof.
  apply (protocol_failure_carries Fixtures.STATUS_CODES
           (Fixtures.createMockConfiguration Fixtures.server
              (JS.js "Internal Server Error") 500)
           Fixtures.pods WatchIterator.noOptions
           (WatchIterator.mkResponseContext 500 (JS.js "Internal Server Error"))
           Fixtures.new_URL
           (Fixtures.createTestServer [JS.js "Internal "; JS.js "Server Error"] 500)
           Z Fixtures.Number_toString
           (Fixtures.makeApiClient (Fixtures.createKubeConfigForServer Fixtures.server))
           Fixtures.pods []
           (WatchApi.mkResponse 500 [] [JS.js "Internal "; JS.js "Server Error"])).
  - eexists. split; reflexivity.
  - discriminate.
  - eexists. eexists. split; reflexivity.
  - discriminate.
Defined.

(** The queries that the tests of the query parameters look into. *)
Example iterator_test_query :
  Fixtures.iteratorSearch Fixtures.testOptions =
  JS.js "?watch=true&resourceVersion=12345&labelSelector=app%3Dnginx&fieldSelector=metadata.name%3Dmy-pod&allowWatchBookmarks=true".
Proof. vm_compute. reflexivity. Qed.

Example api_test_query :
  Fixtures.apiSearch Fixtures.testQueryParams =
  JS.js "?watch=true&resourceVersion=12345&labelSelector=app%3Dnginx&fieldSelector=metadata.name%3Dmy-pod&allowWatchBookmarks=true".
Proof. vm_compute. reflexivity. Qed.

(** C6, as the code has it.  The whole-body variant does not send
    [allowWatchBookmarks=false] when the caller gives [false]: it sends no
    such parameter. *)
Lemma iterator_omits_false_bookmarks :
  Fixtures.iteratorSearch
    (WatchIterator.mkWatchOptions None None None None (Some false)) =
  JS.js "?watch=true".
Proof. vm_compute. reflexivity. Qed.

(** C6, amended.  In the request of the whole-body variant, [watch=true]
    stands once; each of [resourceVersion], [labelSelector] and
    [fieldSelector] that the options give stands once, URL-encoded, with
    its value; [allowWatchBookmarks=true] stands once when the option is
    [true] or absent, and no such parameter is added when it is [false].
    In the URL of the streaming variant, every recognized option that
    [queryParams] defines stands once, URL-encoded, with the text of its
    value ([false] as [false]), and [watch=true] stands once unless
    [queryParams] defines [watch] itself. *)
Theorem outbound_query_parameters
  (cfg : WatchIterator.Configuration) (path : JS.jsstring)
  (options : WatchIterator.WatchOptions)
  (requestContext : WatchIterator.RequestContext)
  (new_URL : JS.jsstring -> JS.JsError + URL)
  (number : Type) (Number_toString : number -> JS.jsstring)
  (this : WatchApi.WatchApi) (apiPath : JS.jsstring)
  (queryParams : WatchApi.entries number)
  (watchURL : URL) (requestInit : WatchApi.RequestInit) :
  Gen.outcome (WatchIterator.outbound cfg path options) =
    Gen.Return requestContext ->
  keepsURL cfg ->
  Gen.outcome (WatchApi.outbound new_URL Number_toString this apiPath queryParams) =
    Gen.Return (watchURL, requestInit) ->
  NoDup (map fst queryParams) ->
  (sentOnce (JS.js "watch") (JS.js "true") (WatchIterator.url requestContext) /\
   (forall v, WatchIterator.resourceVersion options = Some v ->
      sentOnce (JS.js "resourceVersion") v (WatchIterator.url requestContext)) /\
   (forall v, WatchIterator.labelSelector options = Some v ->
      sentOnce (JS.js "labelSelector") v (WatchIterator.url requestContext)) /\
   (forall v, WatchIterator.fieldSelector options = Some v ->
      sentOnce (JS.js "fieldSelector") v (WatchIterator.url requestContext)) /\
   (WatchIterator.allowWatchBookmarks options <> Some false ->
      sentOnce (JS.js "allowWatchBookmarks") (JS.js "true")
        (WatchIterator.url requestContext)) /\
   (WatchIterator.allowWatchBookmarks options = Some false ->
      exists base,
        WatchIterator.makeRequestContext (WatchIterator.baseServer cfg) path
          WatchIterator.GET = inr base /\
        URLSearchParams.getAll (JS.js "allowWatchBookmarks") (query requestContext) =
        URLSearchParams.getAll (JS.js "allowWatchBookmarks") (query base))) /\
  (((forall v, ~ In (JS.js "watch", Some v) queryParams) ->
      sentOnce (JS.js "watch") (JS.js "true") watchURL) /\
   (forall name v,
      recognized name = true -> In (name, Some v) queryParams ->
      sentOnce name (WatchApi.toString Number_toString v) watchURL)).
Proof.
  intros Hout Hauth HoutA Hnodup. split.
  - destruct (WatchIterator_outbound_inv _ _ _ _ Hout Hauth) as [base [Hbase [Hq _]]].
    assert (Hsent : forall name v,
              URLSearchParams.getAll name
                (query (WatchIterator.addQuery options
                          match WatchIterator.allowWatchBookmarks options with
                          | Some b => b
                          | None => true
                          end base)) = [v] ->
              sentOnce name v (WatchIterator.url requestContext)).
    { intros name v H. apply getAll_sentOnce.
      fold (query requestContext). rewrite Hq. exact H. }
    split; [apply Hsent, addQuery_watch|].
    split; [intros v Hv; apply Hsent, addQuery_resourceVersion; exact Hv|].
    split; [intros v Hv; apply Hsent, addQuery_labelSelector; exact Hv|].
    split; [intros v Hv; apply Hsent, addQuery_fieldSelector; exact Hv|].
    split.
    + intros Hb. apply Hsent.
      destruct (WatchIterator.allowWatchBookmarks options) as [[|]|];
        try apply addQuery_bookmarks.
      congruence.
    + intros Hb. rewrite Hq, Hb. exists base. split; [exact Hbase|].
      apply addQuery_no_bookmarks.
  - destruct (WatchApi_outbound_inv _ _ _ _ _ _ _ _ HoutA)
      as [kc [cluster [base [_ [_ [_ [-> _]]]]]]].
    split.
    + intros Hw. apply getAll_sentOnce. rewrite forward_skips by exact Hw.
      simpl. apply getAll_set_same.
    + intros name v _ Hin. apply getAll_sentOnce, forward_defined; assumption.
Qed.

(** A witness of C6 (amended): the options of the tests, and a [false]
    for the bookmarks in the streaming variant. *)
Lemma outbound_query_parameters_witness :
  sentOnce (JS.js "labelSelector") (JS.js "app=nginx")
    (WatchIterator.url Fixtures.testRequest) /\
  sentOnce (JS.js "allowWatchBookmarks") (JS.js "false")
    (Fixtures.urlOf [(JS.js "watch", JS.js "true");
                     (JS.js "allowWatchBookmarks", JS.js "false")]).
Proof.
  destruct (outbound_query_parameters
              (Fixtures.createMockConfiguration Fixtures.server [] 200)
              Fixtures.pods Fixtures.testOptions Fixtures.testRequest
              Fixtures.new_URL Z Fixtures.Number_toString
              (Fixtures.makeApiClient
                 (Fixtures.createKubeConfigForServer Fixtures.server))
              Fixtures.pods Fixtures.noBookmarks
              (Fixtures.urlOf [(JS.js "watch", JS.js "true");
                               (JS.js "allowWatchBookmarks", JS.js "false")])
              Fixtures.defaultInit)
    as [[_ [_ [Hlabel _]]] [_ Hapi]].
  - reflexivity.
  - intros auth r r' Ha Hr. injection Ha as <-. injection Hr as <-. reflexivity.
  - reflexivity.
  - repeat constructor. intros [].
  - split.
    + apply Hlabel. reflexivity.
    + apply (Hapi (JS.js "allowWatchBookmarks") (WatchApi.PBoolean Z false)).
      * reflexivity.
      * left. reflexivity.
Defined.

(** C7, as the code has it.  The streaming variant has no default for
    [allowWatchBookmarks]: with no query parameters given, the URL carries
    [watch=true] and nothing else. *)
Lemma api_has_no_default_bookmarks :
  Fixtures.apiSearch [] = JS.js "?watch=true".
Proof. vm_compute. reflexivity. Qed.

(** C7, amended.  The timeout of the request is 30 000 ms when the caller
    sets none: in the whole-body variant when the options give no
    [timeoutMs], in the streaming variant for a client as its constructor
    leaves it.  In the whole-body variant [allowWatchBookmarks] defaults
    to [true] and the request carries [allowWatchBookmarks=true].  The
    streaming variant has no default for it: when [queryParams] does not
    name it, the URL has the tuples of that name that the path had. *)
Theorem watch_defaults
  (cfg : WatchIterator.Configuration) (path : JS.jsstring)
  (options : WatchIterator.WatchOptions)
  (requestContext : WatchIterator.RequestContext)
  (new_URL : JS.jsstring -> JS.JsError + URL)
  (number : Type) (Number_toString : number -> JS.jsstring)
  (configuration : WatchApi.Configuration) (apiPath : JS.jsstring)
  (queryParams : WatchApi.entries number)
  (watchURL : URL) (requestInit : WatchApi.RequestInit) :
  Gen.outcome (WatchIterator.outbound cfg path options) =
    Gen.Return requestContext ->
  keepsURL cfg ->
  Gen.outcome (WatchApi.outbound new_URL Number_toString
                 (WatchApi.new configuration) apiPath queryParams) =
    Gen.Return (watchURL, requestInit) ->
  ((WatchIterator.timeoutMs options = None ->
      WatchIterator.signal requestContext = Some (WatchIterator.mkSignal 30000)) /\
   (WatchIterator.allowWatchBookmarks options = None ->
      sentOnce (JS.js "allowWatchBookmarks") (JS.js "true")
        (WatchIterator.url requestContext))) /\
  (WatchApi.init_signal requestInit = Some (WatchApi.mkSignal 30000) /\
   ((forall val, ~ In (JS.js "allowWatchBookmarks", val) queryParams) ->
      exists cluster base,
        new_URL (WatchApi.server cluster ++ apiPath) = inr base /\
        URLSearchParams.getAll (JS.js "allowWatchBookmarks") (searchParams watchURL) =
        URLSearchParams.getAll (JS.js "allowWatchBookmarks") (searchParams base))).
Proof.
  intros Hout Hauth HoutA. split.
  - destruct (WatchIterator_outbound_inv _ _ _ _ Hout Hauth) as [base [_ [Hq Hs]]].
    split.
    + intros Ht. rewrite Hs, Ht. reflexivity.
    + intros Hb. apply getAll_sentOnce. fold (query requestContext).
      rewrite Hq, Hb. apply addQuery_bookmarks.
  - destruct (WatchApi_outbound_inv _ _ _ _ _ _ _ _ HoutA)
      as [kc [cluster [base [_ [_ [Hbase [-> [Hs _]]]]]]]].
    split; [exact Hs|].
    intros Hnone. exists cluster, base. split; [exact Hbase|].
    rewrite forward_skips by (intros v; apply Hnone).
    simpl. apply getAll_set_other. reflexivity.
Qed.

(** A witness of C7 (amended): the watches of the tests that give no
    option. *)
Lemma watch_defaults_witness :
  WatchIterator.signal Fixtures.defaultRequest =
    Some (WatchIterator.mkSignal 30000) /\
  sentOnce (JS.js "allowWatchBookmarks") (JS.js "true")
    (WatchIterator.url Fixtures.defaultRequest) /\
  WatchApi.init_signal Fixtures.defaultInit = Some (WatchApi.mkSignal 30000).
Proof.
  destruct (watch_defaults
           (Fixtures.createMockConfiguration Fixtures.server [] 200)
           Fixtures.pods WatchIterator.noOptions Fixtures.defaultRequest
           Fixtures.new_URL Z Fixtures.Number_toString
           (WatchApi.mkConfiguration
              (Some (WatchApi.IsKubeConfig
                       (Fixtures.createKubeConfigForServer Fixtures.server))))
           Fixtures.pods []
           (Fixtures.urlOf [(JS.js "watch", JS.js "true")])
           Fixtures.defaultInit)
    as [[Htimeout Hbookmarks] [Hsignal _]].
  - reflexivity.
  - intros auth r r' Ha Hr. injection Ha as <-. injection Hr as <-. reflexivity.
  - reflexivity.
  - split; [apply Htimeout; reflexivity|].
    split; [apply Hbookmarks; reflexivity | exact Hsignal].
Defined.

(** C8.  With status 200, when the last line of the body that holds a
    frame is an object whose [type] is ["ERROR"], [watch] yields it as its
    last event, of kind ERROR, with the [object] of the line as it was
    parsed, and the run ends without a failure.  In the whole-body variant
    and in the streaming one, however the body is cut in chunks. *)
Theorem error_frame_is_yielded
  (STATUS_CODES : Z -> option JS.jsstring)
  (cfg : WatchIterator.Configuration) (path : JS.jsstring)
  (options : WatchIterator.WatchOptions)
  (response : WatchIterator.ResponseContext)
  (new_URL : JS.jsstring -> JS.JsError + URL)
  (fetch : URL -> WatchApi.RequestInit -> rejection + WatchApi.Response)
  (number : Type) (Number_toString : number -> JS.jsstring)
  (this : WatchApi.WatchApi) (apiPath : JS.jsstring)
  (queryParams : WatchApi.entries number)
  (apiResponse : WatchApi.Response) :
  answersIterator cfg path options response ->
  WatchIterator.httpStatusCode response = 200%Z ->
  answersApi new_URL fetch Number_toString this apiPath queryParams apiResponse ->
  WatchApi.status apiResponse = 200%Z ->
  (forall pre line post members payload,
     WatchIterator.body_text response = JS.join [JS.LF] (pre ++ line :: post) ->
     Forall (fun l => lineFree JS.LF l = true) (pre ++ line :: post) ->
     JS.JSON_parse line = inr (JS.JObject members) ->
     JS.ownProperty (JS.js "type") members = JS.Val (JS.JString (JS.js "ERROR")) ->
     JS.ownProperty (JS.js "object") members = payload ->
     Forall noise post ->
     WatchIterator.watch STATUS_CODES cfg path options =
     (flat_map contribution pre ++
        [mkWatchEvent (JS.Val (JS.JString (JS.js "ERROR"))) payload],
      Gen.Return tt)) /\
  (forall pre line post members payload,
     WatchApi.text apiResponse = JS.join [JS.LF] (pre ++ line :: post) ->
     Forall (fun l => Readline.hasLineEnding l = false) (pre ++ line :: post) ->
     JS.JSON_parse line = inr (JS.JObject members) ->
     JS.ownProperty (JS.js "type") members = JS.Val (JS.JString (JS.js "ERROR")) ->
     JS.ownProperty (JS.js "object") members = payload ->
     Forall noise post ->
     WatchApi.watch STATUS_CODES new_URL fetch Number_toString this apiPath queryParams =
     (flat_map contribution pre ++
        [mkWatchEvent (JS.Val (JS.JString (JS.js "ERROR"))) payload],
      Gen.Return tt)).
Proof.
  intros Hans H200 HansA H200A. split.
  - intros pre line post members payload Hbody Hfree Hparse Htype Hobject Hpost.
    rewrite (WatchIterator_watch_answered _ _ _ _ _ Hans).
    rewrite WatchIterator_consume_200 by exact H200.
    rewrite Hbody, linesOfText_join by (apply cons_in_middle_not_nil || exact Hfree).
    rewrite (contributions_around pre post line _ Hparse), (contributions_noise post Hpost).
    rewrite app_nil_r. unfold yieldOf, member, JS.getProp.
    rewrite Htype, Hobject. reflexivity.
  - intros pre line post members payload Hbody Hfree Hparse Htype Hobject Hpost.
    rewrite (WatchApi_watch_answered _ _ _ _ _ _ _ _ _ HansA).
    rewrite WatchApi_consume_200 by exact H200A.
    rewrite (linesOfStream_join _ (pre ++ line :: post))
      by (apply cons_in_middle_not_nil || assumption).
    rewrite (contributions_around pre post line _ Hparse), (contributions_noise post Hpost).
    rewrite app_nil_r. unfold yieldOf, member, JS.getProp.
    rewrite Htype, Hobject. reflexivity.
Qed.

(** A witness of C8: the body of the tests that ends with the 410 of an
    expired resource version. *)
Lemma error_frame_is_yielded_witness :
  Fixtures.runIterator Fixtures.withError 200 WatchIterator.noOptions =
    (flat_map contribution [Fixtures.added] ++
       [mkWatchEvent (JS.Val (JS.JString (JS.js "ERROR")))
          (JS.Val (JS.JObject
             [(JS.js "code", JS.JNumber (JS.js "410"));
              (JS.js "message", JS.JString (JS.js "Gone"));
              (JS.js "reason", JS.JString (JS.js "Expired"))]))],
     Gen.Return tt) /\
  Fixtures.runApi (Fixtures.inChunks Fixtures.withError) 200 [] =
    (flat_map contribution [Fixtures.added] ++
       [mkWatchEvent (JS.Val (JS.JString (JS.js "ERROR")))
          (JS.Val (JS.JObject
             [(JS.js "code", JS.JNumber (JS.js "410"));
              (JS.js "message", JS.JString (JS.js "Gone"));
              (JS.js "reason", JS.JString (JS.js "Expired"))]))],
     Gen.Return tt).
Proof.
  destruct (error_frame_is_yielded Fixtures.STATUS_CODES
           (Fixtures.createMockConfiguration Fixtures.server Fixtures.withError 200)
           Fixtures.pods WatchIterator.noOptions
           (WatchIterator.mkResponseContext 200 Fixtures.withError)
           Fixtures.new_URL
           (Fixtures.createTestServer (Fixtures.inChunks Fixtures.withError) 200)
           Z Fixtures.Number_toString
           (Fixtures.makeApiClient (Fixtures.createKubeConfigForServer Fixtures.server))
           Fixtures.pods []
           (WatchApi.mkResponse 200 [] (Fixtures.inChunks Fixtures.withError)))
    as [Hwhole Hstream].
  - eexists. split; reflexivity.
  - reflexivity.
  - eexists. eexists. split; reflexivity.
  - reflexivity.
  - split.
    + eapply (Hwhole [Fixtures.added] Fixtures.gone []).
      * reflexivity.
      * repeat constructor.
      * vm_compute. reflexivity.
      * reflexivity.
      * reflexivity.
      * constructor.
    + eapply (Hstream [Fixtures.added] Fixtures.gone []).
      * vm_compute. reflexivity.
      * repeat constructor.
      * vm_compute. reflexivity.
      * reflexivity.
      * reflexivity.
      * constructor.
Defined.

(** C9, as the code has it.  A line that parses and is no frame is not
    dropped: an object with an unknown kind gives an event of that kind,
    and an object without the two fields gives an event whose [type] and
    [object] are undefined. *)
Lemma mismatched_frames_are_yielded :
  Gen.yielded (Fixtures.runIterator (JS.jsq "{'type':'RENAMED','object':{}}") 200
                 WatchIterator.noOptions) =
    [mkWatchEvent (JS.Val (JS.JString (JS.js "RENAMED"))) (JS.Val (JS.JObject []))] /\
  Gen.yielded (Fixtures.runApi [JS.jsq "{'kind':'Pod'}"] 200 []) =
    [mkWatchEvent JS.undefined JS.undefined].
Proof. split; vm_compute; reflexivity. Qed.

(** C9, amended.  With status 200, a line that parses as JSON is dropped
    without an event only when its value is [null]; a line with any other
    value gives one event, whose [type] and [object] are the members of
    these names of the value ([undefined] where it has none), with no check
    of the shape or of the kind.  Either way no failure is raised and the
    lines after it are decoded.  In the whole-body variant and in the
    streaming one. *)
Theorem parsed_lines_are_yielded_unchecked
  (STATUS_CODES : Z -> option JS.jsstring)
  (cfg : WatchIterator.Configuration) (path : JS.jsstring)
  (options : WatchIterator.WatchOptions)
  (response : WatchIterator.ResponseContext)
  (new_URL : JS.jsstring -> JS.JsError + URL)
  (fetch : URL -> WatchApi.RequestInit -> rejection + WatchApi.Response)
  (number : Type) (Number_toString : number -> JS.jsstring)
  (this : WatchApi.WatchApi) (apiPath : JS.jsstring)
  (queryParams : WatchApi.entries number)
  (apiResponse : WatchApi.Response) :
  answersIterator cfg path options response ->
  WatchIterator.httpStatusCode response = 200%Z ->
  answersApi new_URL fetch Number_toString this apiPath queryParams apiResponse ->
  WatchApi.status apiResponse = 200%Z ->
  (forall pre line post data,
     WatchIterator.body_text response = JS.join [JS.LF] (pre ++ line :: post) ->
     Forall (fun l => lineFree JS.LF l = true) (pre ++ line :: post) ->
     JS.JSON_parse line = inr data ->
     WatchIterator.watch STATUS_CODES cfg path options =
     (flat_map contribution pre ++ yieldOf data ++ flat_map contribution post,
      Gen.Return tt)) /\
  (forall pre line post data,
     WatchApi.text apiResponse = JS.join [JS.LF] (pre ++ line :: post) ->
     Forall (fun l => Readline.hasLineEnding l = false) (pre ++ line :: post) ->
     JS.JSON_parse line = inr data ->
     WatchApi.watch STATUS_CODES new_URL fetch Number_toString this apiPath queryParams =
     (flat_map contribution pre ++ yieldOf data ++ flat_map contribution post,
      Gen.Return tt)).
Proof.
  intros Hans H200 HansA H200A. split.
  - intros pre line post data Hbody Hfree Hparse.
    rewrite (WatchIterator_watch_answered _ _ _ _ _ Hans).
    rewrite WatchIterator_consume_200 by exact H200.
    rewrite Hbody, linesOfText_join by (apply cons_in_middle_not_nil || exact Hfree).
    rewrite (contributions_around pre post line _ Hparse). reflexivity.
  - intros pre line post data Hbody Hfree Hparse.
    rewrite (WatchApi_watch_answered _ _ _ _ _ _ _ _ _ HansA).
    rewrite WatchApi_consume_200 by exact H200A.
    rewrite (linesOfStream_join _ (pre ++ line :: post))
      by (apply cons_in_middle_not_nil || assumption).
    rewrite (contributions_around pre post line _ Hparse). reflexivity.
Qed.

(** A witness of C9 (amended): between two frames, a line that is [null]
    in the whole body and a line that is a number in the stream. *)
Lemma parsed_lines_are_yielded_unchecked_witness :
  Fixtures.runIterator
    (JS.join [JS.LF] [Fixtures.added; JS.js "null"; Fixtures.deleted]) 200
    WatchIterator.noOptions =
    (flat_map contribution [Fixtures.added] ++ [] ++
       flat_map contribution [Fixtures.deleted],
     Gen.Return tt) /\
  Fixtures.runApi
    (Fixtures.inChunks (JS.join [JS.LF] [Fixtures.added; JS.js "410"; Fixtures.deleted]))
    200 [] =
    (flat_map contribution [Fixtures.added] ++
       [mkWatchEvent JS.undefined JS.undefined] ++
       flat_map contribution [Fixtures.deleted],
     Gen.Return tt).
Proof.
  destruct (parsed_lines_are_yielded_unchecked Fixtures.STATUS_CODES
           (Fixtures.createMockConfiguration Fixtures.server
              (JS.join [JS.LF] [Fixtures.added; JS.js "null"; Fixtures.deleted]) 200)
           Fixtures.pods WatchIterator.noOptions
           (WatchIterator.mkResponseContext 200
              (JS.join [JS.LF] [Fixtures.added; JS.js "null"; Fixtures.deleted]))
           Fixtures.new_URL
           (Fixtures.createTestServer
              (Fixtures.inChunks
                 (JS.join [JS.LF] [Fixtures.added; JS.js "410"; Fixtures.deleted])) 200)
           Z Fixtures.Number_toString
           (Fixtures.makeApiClient (Fixtures.createKubeConfigForServer Fixtures.server))
           Fixtures.pods []
           (WatchApi.mkResponse 200 []
              (Fixtures.inChunks
                 (JS.join [JS.LF] [Fixtures.added; JS.js "410"; Fixtures.deleted]))))
    as [Hwhole Hstream].
  - eexists. split; reflexivity.
  - reflexivity.
  - eexists. eexists. split; reflexivity.
  - reflexivity.
  - split.
    + apply (Hwhole [Fixtures.added] (JS.js "null") [Fixtures.deleted] JS.JNull).
      * reflexivity.
      * repeat constructor.
      * reflexivity.
    + apply (Hstream [Fixtures.added] (JS.js "410") [Fixtures.deleted]
               (JS.JNumber (JS.js "410"))).
      * vm_compute. reflexivity.
      * repeat constructor.
      * reflexivity.
Defined.



(** * Further properties of the watch code *)

(** ** Watches that get no response *)

(** X1.  In the whole-body variant, when the HTTP library rejects the
    request, [watch] yields nothing and fails with a [WatchError] that has
    no status code; its message is the message of the error that the
    library rejected with, or a fixed text when that was no [Error]. *)
Theorem send_rejection_is_wrapped
  (STATUS_CODES : Z -> option JS.jsstring)
  (cfg : WatchIterator.Configuration) (path : JS.jsstring)
  (options : WatchIterator.WatchOptions)
  (requestContext : WatchIterator.RequestContext) (reason : rejection) :
  Gen.outcome (WatchIterator.outbound cfg path options) =
    Gen.Return requestContext ->
  WatchIterator.send (WatchIterator.httpApi cfg) requestContext = inl reason ->
  WatchIterator.watch STATUS_CODES cfg path options =
  ([], Gen.Throw (WatchIterator.ThrowWatchError
                    (WatchIterator.mkWatchError
                       match reason with
                       | ErrorObject message => message
                       | NotAnError => JS.js "Failed to connect to watch endpoint"
                       end
                       None))).
Proof.
  intros Hout Hsend. unfold WatchIterator.watch.
  pose proof (WatchIterator_outbound_silent cfg path options) as Hsilent.
  destruct (WatchIterator.outbound cfg path options) as [ys c].
  simpl in Hout, Hsilent. subst ys c.
  unfold Gen.bind at 1. rewrite Hsend. destruct reason; reflexivity.
Qed.

(** A witness of X1: a refused connection. *)
Lemma send_rejection_is_wrapped_witness :
  WatchIterator.watch Fixtures.STATUS_CODES
    (Fixtures.createUnreachableConfiguration Fixtures.server Fixtures.refused)
    Fixtures.pods WatchIterator.noOptions =
  ([], Gen.Throw (WatchIterator.ThrowWatchError
                    (WatchIterator.mkWatchError (JS.js "connect ECONNREFUSED") None))).
Proof.
  apply (send_rejection_is_wrapped Fixtures.STATUS_CODES
           (Fixtures.createUnreachableConfiguration Fixtures.server Fixtures.refused)
           Fixtures.pods WatchIterator.noOptions Fixtures.defaultRequest
           Fixtures.refused).
  - reflexivity.
  - reflexivity.
Defined.

(** X2.  In the whole-body variant, authentication gets the request with
    the query parameters of the watch already set; when it rejects, [watch]
    yields nothing and fails with the rejection itself, not with a
    [WatchError], and the HTTP library has no part in the run. *)
Theorem authentication_rejection_propagates
  (STATUS_CODES : Z -> option JS.jsstring)
  (cfg : WatchIterator.Configuration) (path : JS.jsstring)
  (options : WatchIterator.WatchOptions)
  (auth : WatchIterator.SecurityAuthentication)
  (base : WatchIterator.RequestContext) (reason : rejection) :
  WatchIterator.makeRequestContext (WatchIterator.baseServer cfg) path
    WatchIterator.GET = inr base ->
  WatchIterator.authMethods_default cfg = Some auth ->
  WatchIterator.applySecurityAuthentication auth
    (WatchIterator.addQuery options
       match WatchIterator.allowWatchBookmarks options with
       | Some b => b
       | None => true
       end base) = inl reason ->
  forall httpApi : WatchIterator.HttpLibrary,
    WatchIterator.watch STATUS_CODES
      (WatchIterator.mkConfiguration (WatchIterator.baseServer cfg)
         (WatchIterator.authMethods_default cfg) httpApi)
      path options =
    ([], Gen.Throw (WatchIterator.ThrowForeign reason)).
Proof.
  intros Hbase Hauth Hreject httpApi.
  unfold WatchIterator.watch, WatchIterator.outbound. simpl.
  rewrite Hbase, Hauth. simpl. rewrite Hreject. reflexivity.
Qed.

(** A witness of X2: a token that has expired, before a library that would
    answer and before one that would not. *)
Lemma authentication_rejection_propagates_witness :
  WatchIterator.watch Fixtures.STATUS_CODES
    (Fixtures.createUnauthorizedConfiguration Fixtures.server Fixtures.expired
       (WatchIterator.mkHttpLibrary
          (fun _ => inr (WatchIterator.mkResponseContext 200 Fixtures.added))))
    Fixtures.pods Fixtures.testOptions =
  ([], Gen.Throw (WatchIterator.ThrowForeign Fixtures.expired)).
Proof.
  apply (authentication_rejection_propagates Fixtures.STATUS_CODES
           (Fixtures.createUnauthorizedConfiguration Fixtures.server Fixtures.expired
              (WatchIterator.mkHttpLibrary (fun _ => inl Fixtures.refused)))
           Fixtures.pods Fixtures.testOptions
           (WatchIterator.mkSecurityAuthentication (fun _ => inl Fixtures.expired))
           (WatchIterator.mkRequestContext
              (mkURL (Fixtures.server ++ Fixtures.pods) []) WatchIterator.GET [] None)
           Fixtures.expired).
  - reflexivity.
  - reflexivity.
  - reflexivity.
Defined.

(** X3.  In the whole-body variant the signal of the timeout is set after
    authentication: the request that goes to the HTTP library has the URL,
    the method and the headers that authentication left, and its signal is
    the timeout of the options (30 000 ms without one), whatever signal
    authentication had set. *)
Theorem timeout_is_set_after_authentication
  (cfg : WatchIterator.Configuration) (path : JS.jsstring)
  (options : WatchIterator.WatchOptions)
  (auth : WatchIterator.SecurityAuthentication)
  (requestContext : WatchIterator.RequestContext) :
  WatchIterator.authMethods_default cfg = Some auth ->
  Gen.outcome (WatchIterator.outbound cfg path options) =
    Gen.Return requestContext ->
  exists base authenticated,
    WatchIterator.makeRequestContext (WatchIterator.baseServer cfg) path
      WatchIterator.GET = inr base /\
    WatchIterator.applySecurityAuthentication auth
      (WatchIterator.addQuery options
         match WatchIterator.allowWatchBookmarks options with
         | Some b => b
         | None => true
         end base) = inr authenticated /\
    WatchIterator.url requestContext = WatchIterator.url authenticated /\
    WatchIterator.httpMethod requestContext =
      WatchIterator.httpMethod authenticated /\
    WatchIterator.headers requestContext = WatchIterator.headers authenticated /\
    WatchIterator.signal requestContext =
      Some (WatchIterator.mkSignal
              match WatchIterator.timeoutMs options with
              | Some ms => ms
              | None => 30000%Z
              end).
Proof.
  intros Hauth. unfold WatchIterator.outbound. rewrite Hauth.
  destruct (WatchIterator.makeRequestContext _ _ _) as [e|base]; [discriminate|].
  simpl.
  destruct (WatchIterator.applySecurityAuthentication auth _) as [e|r] eqn:Er;
    [discriminate|].
  simpl.
  destruct (WatchIterator.AbortSignal_timeout _) as [e|s] eqn:Es; [discriminate|].
  apply WatchIterator_timeout_made in Es as [-> _].
  simpl. intros H. injection H as <-.
  exists base, r. repeat split. exact Er.
Qed.

(** A witness of X3: a timeout of five seconds, with an authentication
    method that sets a signal of one second. *)
Lemma timeout_is_set_after_authentication_witness :
  exists requestContext,
    Gen.outcome (WatchIterator.outbound
                   (Fixtures.createSigningConfiguration Fixtures.server Fixtures.added)
                   Fixtures.pods
                   (WatchIterator.mkWatchOptions None None None (Some 5000%Z) None)) =
      Gen.Return requestContext /\
    WatchIterator.headers requestContext =
      [(JS.js "Authorization", JS.js "Bearer token")] /\
    WatchIterator.signal requestContext = Some (WatchIterator.mkSignal 5000).
Proof.
  eexists. split; [reflexivity|].
  destruct (timeout_is_set_after_authentication
              (Fixtures.createSigningConfiguration Fixtures.server Fixtures.added)
              Fixtures.pods
              (WatchIterator.mkWatchOptions None None None (Some 5000%Z) None)
              _ _ eq_refl eq_refl)
    as [base [authenticated [_ [Hauth [_ [_ [Hheaders Hsignal]]]]]]].
  split; [|exact Hsignal].
  rewrite Hheaders. injection Hauth as <-. reflexivity.
Defined.

(** ** The query of the whole-body variant, written out *)

Section IteratorQuery.
Import JS.

Lemma addQuery_fresh options r :
  query r = [] ->
  query (WatchIterator.addQuery options
           match WatchIterator.allowWatchBookmarks options with
           | Some b => b
           | None => true
           end r) = optionTuples options.
Proof.
  destruct r as [[origin params] method headers signal].
  unfold query. simpl. intros ->.
  unfold WatchIterator.addQuery, optionTuples.
  destruct options as [[rv|] [ls|] [fs|] ms [[|]|]]; reflexivity.
Qed.

Lemma addQuery_other options bookmarks r name :
  eqb name (js "watch") = false ->
  recognized name = false ->
  URLSearchParams.getAll name (query (WatchIterator.addQuery options bookmarks r)) =
  URLSearchParams.getAll name (query r).
Proof.
  intros Hw Hr. unfold recognized in Hr.
  apply orb_false_iff in Hr as [Hr Hb].
  apply orb_false_iff in Hr as [Hr Hf].
  apply orb_false_iff in Hr as [Hv Hl].
  unfold WatchIterator.addQuery.
  destruct (WatchIterator.resourceVersion options),
    (WatchIterator.labelSelector options),
    (WatchIterator.fieldSelector options), bookmarks;
    repeat first
      [ rewrite query_setQueryParam
      | rewrite getAll_set_other by assumption ];
    reflexivity.
Qed.
End IteratorQuery.

(** X4.  In the whole-body variant, when the server configuration gives a
    request without a query and authentication leaves the URL as it is, the
    query that goes out holds [watch=true], then the string options that
    are given, in the order [resourceVersion], [labelSelector],
    [fieldSelector], then [allowWatchBookmarks=true] unless the option is
    [false]: these tuples and no others. *)
Theorem iterator_query_written_out
  (cfg : WatchIterator.Configuration) (path : JS.jsstring)
  (options : WatchIterator.WatchOptions)
  (base requestContext : WatchIterator.RequestContext) :
  WatchIterator.makeRequestContext (WatchIterator.baseServer cfg) path
    WatchIterator.GET = inr base ->
  query base = [] ->
  keepsURL cfg ->
  Gen.outcome (WatchIterator.outbound cfg path options) =
    Gen.Return requestContext ->
  query requestContext = optionTuples options.
Proof.
  intros Hbase Hfresh Hauth Hout.
  destruct (WatchIterator_outbound_inv _ _ _ _ Hout Hauth) as [base' [Hbase' [Hq _]]].
  rewrite Hbase in Hbase'. injection Hbase' as <-.
  rewrite Hq. apply addQuery_fresh. exact Hfresh.
Qed.

(** A witness of X4: the options of the tests. *)
Lemma iterator_query_written_out_witness :
  query Fixtures.testRequest =
  [(JS.js "watch", JS.js "true");
   (JS.js "resourceVersion", JS.js "12345");
   (JS.js "labelSelector", JS.js "app=nginx");
   (JS.js "fieldSelector", JS.js "metadata.name=my-pod");
   (JS.js "allowWatchBookmarks", JS.js "true")].
Proof.
  apply (iterator_query_written_out
           (Fixtures.createMockConfiguration Fixtures.server [] 200)
           Fixtures.pods Fixtures.testOptions
           (WatchIterator.mkRequestContext
              (mkURL (Fixtures.server ++ Fixtures.pods) []) WatchIterator.GET [] None)
           Fixtures.testRequest).
  - reflexivity.
  - reflexivity.
  - intros auth r r' Ha Hr. injection Ha as <-. injection Hr as <-. reflexivity.
  - reflexivity.
Defined.

(** X5.  In the whole-body variant, a parameter that the request of the
    server configuration brings under a name other than [watch] and the
    four options goes out as it came: [watch] neither removes nor changes
    it. *)
Theorem iterator_keeps_other_parameters
  (cfg : WatchIterator.Configuration) (path : JS.jsstring)
  (options : WatchIterator.WatchOptions)
  (base requestContext : WatchIterator.RequestContext) (name : JS.jsstring) :
  WatchIterator.makeRequestContext (WatchIterator.baseServer cfg) path
    WatchIterator.GET = inr base ->
  keepsURL cfg ->
  Gen.outcome (WatchIterator.outbound cfg path options) =
    Gen.Return requestContext ->
  JS.eqb name (JS.js "watch") = false ->
  recognized name = false ->
  URLSearchParams.getAll name (query requestContext) =
  URLSearchParams.getAll name (query base).
Proof.
  intros Hbase Hauth Hout Hw Hr.
  destruct (WatchIterator_outbound_inv _ _ _ _ Hout Hauth) as [base' [Hbase' [Hq _]]].
  rewrite Hbase in Hbase'. injection Hbase' as <-.
  rewrite Hq. apply addQuery_other; assumption.
Qed.

(** A witness of X5: a page size that the server configuration puts on
    every request. *)
Lemma iterator_keeps_other_parameters_witness :
  exists requestContext,
    Gen.outcome (WatchIterator.outbound
                   (Fixtures.createConfigurationWith
                      [(JS.js "limit", JS.js "500")] Fixtures.server [])
                   Fixtures.pods Fixtures.testOptions) =
      Gen.Return requestContext /\
    URLSearchParams.getAll (JS.js "limit") (query requestContext) = [JS.js "500"].
Proof.
  eexists. split; [reflexivity|].
  rewrite (iterator_keeps_other_parameters
             (Fixtures.createConfigurationWith
                [(JS.js "limit", JS.js "500")] Fixtures.server [])
             Fixtures.pods Fixtures.testOptions
             (WatchIterator.mkRequestContext
                (mkURL (Fixtures.server ++ Fixtures.pods) [(JS.js "limit", JS.js "500")])
                WatchIterator.GET [] None)
             _ (JS.js "limit")).
  - reflexivity.
  - reflexivity.
  - intros auth r r' Ha Hr. injection Ha as <-. injection Hr as <-. reflexivity.
  - reflexivity.
  - reflexivity.
  - reflexivity.
Defined.

(** ** The streaming variant before its response *)

(** X6.  In the streaming variant, a client whose authentication method is
    missing, is no [KubeConfig], or is a [KubeConfig] without a current
    cluster makes [watch] yield nothing and fail with an [ApiException] of
    code 500 and an empty body, whose message tells which of the two is
    the case; neither the URL constructor nor [fetch] has a part in the
    run, so no request is made. *)
Theorem watch_needs_a_cluster
  (STATUS_CODES : Z -> option JS.jsstring)
  (number : Type) (Number_toString : number -> JS.jsstring)
  (this : WatchApi.WatchApi) (path : JS.jsstring)
  (queryParams : WatchApi.entries number) :
  (forall kubeConfig,
     WatchApi.authMethods_default (WatchApi.configuration this) =
       Some (WatchApi.IsKubeConfig kubeConfig) ->
     WatchApi.getCurrentCluster kubeConfig = None) ->
  forall (new_URL : JS.jsstring -> JS.JsError + URL)
         (fetch : URL -> WatchApi.RequestInit -> rejection + WatchApi.Response),
    WatchApi.watch STATUS_CODES new_URL fetch Number_toString this path queryParams =
    ([], Gen.Throw
           (WatchApi.ThrowApiException
              (WatchApi.mkApiException 500
                 match WatchApi.authMethods_default (WatchApi.configuration this) with
                 | Some (WatchApi.IsKubeConfig _) => JS.js "No active cluster"
                 | _ => JS.js "WatchApi requires KubeConfig as the authentication method"
                 end
                 [] []))).
Proof.
  intros Hnone new_URL fetch. unfold WatchApi.watch, WatchApi.outbound.
  destruct (WatchApi.authMethods_default (WatchApi.configuration this))
    as [[kubeConfig|]|]; try reflexivity.
  simpl. rewrite (Hnone kubeConfig eq_refl). reflexivity.
Qed.

(** A witness of X6: a client with another authentication method, and one
    whose [KubeConfig] has no current cluster. *)
Lemma watch_needs_a_cluster_witness :
  WatchApi.watch Fixtures.STATUS_CODES Fixtures.new_URL
    (Fixtures.createTestServer [Fixtures.added] 200) Fixtures.Number_toString
    Fixtures.makeForeignClient Fixtures.pods [] =
  ([], Gen.Throw
         (WatchApi.ThrowApiException
            (WatchApi.mkApiException 500
               (JS.js "WatchApi requires KubeConfig as the authentication method")
               [] []))) /\
  WatchApi.watch Fixtures.STATUS_CODES Fixtures.new_URL
    (Fixtures.createTestServer [Fixtures.added] 200) Fixtures.Number_toString
    Fixtures.makeDetachedClient Fixtures.pods [] =
  ([], Gen.Throw
         (WatchApi.ThrowApiException
            (WatchApi.mkApiException 500 (JS.js "No active cluster") [] []))).
Proof.
  split.
  - apply (watch_needs_a_cluster Fixtures.STATUS_CODES Z Fixtures.Number_toString
             Fixtures.makeForeignClient Fixtures.pods []).
    intros kubeConfig H. discriminate.
  - apply (watch_needs_a_cluster Fixtures.STATUS_CODES Z Fixtures.Number_toString
             Fixtures.makeDetachedClient Fixtures.pods []).
    intros kubeConfig H. injection H as <-. reflexivity.
Defined.

(** X7.  In the streaming variant, when [fetch] rejects the request,
    [watch] yields nothing and fails with the rejection itself: it is not
    turned into an [ApiException]. *)
Theorem fetch_rejection_propagates
  (STATUS_CODES : Z -> option JS.jsstring)
  (new_URL : JS.jsstring -> JS.JsError + URL)
  (fetch : URL -> WatchApi.RequestInit -> rejection + WatchApi.Response)
  (number : Type) (Number_toString : number -> JS.jsstring)
  (this : WatchApi.WatchApi) (path : JS.jsstring)
  (queryParams : WatchApi.entries number)
  (watchURL : URL) (requestInit : WatchApi.RequestInit) (reason : rejection) :
  Gen.outcome (WatchApi.outbound new_URL Number_toString this path queryParams) =
    Gen.Return (watchURL, requestInit) ->
  fetch watchURL requestInit = inl reason ->
  WatchApi.watch STATUS_CODES new_URL fetch Number_toString this path queryParams =
  ([], Gen.Throw (WatchApi.ThrowForeign reason)).
Proof.
  intros Hout Hfetch. unfold WatchApi.watch.
  pose proof (WatchApi_outbound_silent new_URL number Number_toString
                this path queryParams) as Hsilent.
  destruct (WatchApi.outbound new_URL Number_toString this path queryParams) as [ys c].
  simpl in Hout, Hsilent. subst ys c.
  unfold Gen.bind at 1. simpl fst. simpl snd. rewrite Hfetch. reflexivity.
Qed.

(** A witness of X7: a refused connection. *)
Lemma fetch_rejection_propagates_witness :
  WatchApi.watch Fixtures.STATUS_CODES Fixtures.new_URL
    (Fixtures.unreachable Fixtures.refused) Fixtures.Number_toString
    (Fixtures.makeApiClient (Fixtures.createKubeConfigForServer Fixtures.server))
    Fixtures.pods [] =
  ([], Gen.Throw (WatchApi.ThrowForeign Fixtures.refused)).
Proof.
  apply (fetch_rejection_propagates Fixtures.STATUS_CODES Fixtures.new_URL
           (Fixtures.unreachable Fixtures.refused) Z Fixtures.Number_toString
           (Fixtures.makeApiClient (Fixtures.createKubeConfigForServer Fixtures.server))
           Fixtures.pods []
           (Fixtures.urlOf [(JS.js "watch", JS.js "true")]) Fixtures.defaultInit
           Fixtures.refused).
  - reflexivity.
  - reflexivity.
Defined.

(** X8.  In the streaming variant, the options that go to [fetch] have
    the headers that [applyToFetchOptions] left, the method GET and the
    signal of the timeout of the client, whatever method or signal
    [applyToFetchOptions] had written.  [setRequestTimeout] with a timeout
    of 0 to 4 294 967 295 ms changes the signal of the next request and
    nothing else of it; with another timeout the next [watch] yields
    nothing and fails with a RangeError, whatever [fetch] would answer. *)
Theorem setRequestTimeout_changes_the_signal
  (new_URL : JS.jsstring -> JS.JsError + URL)
  (number : Type) (Number_toString : number -> JS.jsstring)
  (this : WatchApi.WatchApi) (timeout : Z) (path : JS.jsstring)
  (queryParams : WatchApi.entries number)
  (watchURL : URL) (requestInit : WatchApi.RequestInit) :
  Gen.outcome (WatchApi.outbound new_URL Number_toString this path queryParams) =
    Gen.Return (watchURL, requestInit) ->
  (exists kubeConfig authenticated,
     WatchApi.authMethods_default (WatchApi.configuration this) =
       Some (WatchApi.IsKubeConfig kubeConfig) /\
     WatchApi.applyToFetchOptions kubeConfig (WatchApi.mkRequestInit [] None None) =
       inr authenticated /\
     requestInit =
       WatchApi.mkRequestInit (WatchApi.init_headers authenticated)
         (Some (WatchApi.mkSignal (WatchApi.requestTimeoutMs this)))
         (Some WatchApi.GET)) /\
  ((0 <= timeout <= 4294967295)%Z ->
   Gen.outcome (WatchApi.outbound new_URL Number_toString
                  (WatchApi.setRequestTimeout this timeout) path queryParams) =
     Gen.Return
       (watchURL,
        WatchApi.mkRequestInit (WatchApi.init_headers requestInit)
          (Some (WatchApi.mkSignal timeout)) (Some WatchApi.GET))) /\
  (~ (0 <= timeout <= 4294967295)%Z ->
   forall (STATUS_CODES : Z -> option JS.jsstring)
          (fetch : URL -> WatchApi.RequestInit -> rejection + WatchApi.Response),
     WatchApi.watch STATUS_CODES new_URL fetch Number_toString
       (WatchApi.setRequestTimeout this timeout) path queryParams =
     ([], Gen.Throw (WatchApi.ThrowJs JS.RangeError))).
Proof.
  unfold WatchApi.watch, WatchApi.outbound.
  simpl WatchApi.configuration. simpl WatchApi.requestTimeoutMs.
  destruct (WatchApi.authMethods_default _) as [[kc|]|]; try discriminate.
  simpl.
  destruct (WatchApi.getCurrentCluster kc) as [cluster|]; [|discriminate].
  simpl.
  destruct (new_URL _) as [e|base]; [discriminate|].
  simpl.
  destruct (WatchApi.applyToFetchOptions kc _) as [e|init] eqn:Einit; [discriminate|].
  simpl.
  destruct (WatchApi.AbortSignal_timeout (WatchApi.requestTimeoutMs this))
    as [e|s] eqn:Es; [discriminate|].
  apply WatchApi_timeout_made in Es as [-> _].
  simpl. intros H. injection H as <- <-.
  split; [|split].
  - exists kc, init. repeat split. exact Einit.
  - intros Hvalid. rewrite (WatchApi_timeout_valid timeout Hvalid). reflexivity.
  - intros Hinvalid STATUS_CODES fetch.
    rewrite (WatchApi_timeout_invalid timeout Hinvalid). reflexivity.
Qed.

(** A witness of X8: a [KubeConfig] that writes a header, the method POST
    and a signal of one second; a timeout of five seconds, and one of minus
    five milliseconds before a server that would answer. *)
Lemma setRequestTimeout_changes_the_signal_witness :
  Gen.outcome (WatchApi.outbound Fixtures.new_URL Fixtures.Number_toString
                 (WatchApi.setRequestTimeout
                    (Fixtures.makeApiClient
                       (Fixtures.createSigningKubeConfig Fixtures.server)) 5000)
                 Fixtures.pods []) =
  Gen.Return
    (Fixtures.urlOf [(JS.js "watch", JS.js "true")],
     WatchApi.mkRequestInit [(JS.js "Authorization", JS.js "Bearer token")]
       (Some (WatchApi.mkSignal 5000)) (Some WatchApi.GET)) /\
  WatchApi.watch Fixtures.STATUS_CODES Fixtures.new_URL
    (Fixtures.createTestServer [Fixtures.added] 200) Fixtures.Number_toString
    (WatchApi.setRequestTimeout
       (Fixtures.makeApiClient (Fixtures.createSigningKubeConfig Fixtures.server))
       (-5))
    Fixtures.pods [] =
  ([], Gen.Throw (WatchApi.ThrowJs JS.RangeError)).
Proof.
  split.
  - destruct (setRequestTimeout_changes_the_signal Fixtures.new_URL Z
           Fixtures.Number_toString
           (Fixtures.makeApiClient (Fixtures.createSigningKubeConfig Fixtures.server))
           5000 Fixtures.pods []
           (Fixtures.urlOf [(JS.js "watch", JS.js "true")])
           (WatchApi.mkRequestInit [(JS.js "Authorization", JS.js "Bearer token")]
              (Some (WatchApi.mkSignal 30000)) (Some WatchApi.GET)) eq_refl)
      as [_ [Hvalid _]].
    apply Hvalid. lia.
  - destruct (setRequestTimeout_changes_the_signal Fixtures.new_URL Z
           Fixtures.Number_toString
           (Fixtures.makeApiClient (Fixtures.createSigningKubeConfig Fixtures.server))
           (-5) Fixtures.pods []
           (Fixtures.urlOf [(JS.js "watch", JS.js "true")])
           (WatchApi.mkRequestInit [(JS.js "Authorization", JS.js "Bearer token")]
              (Some (WatchApi.mkSignal 30000)) (Some WatchApi.GET)) eq_refl)
      as [_ [_ Hinvalid]].
    apply Hinvalid. lia.
Defined.

(** ** The query of the streaming variant, written out *)

Section ApiQuery.
Import JS URLSearchParams.
Variable number : Type.
Variable Number_toString : number -> jsstring.







End ApiQuery.






(** ** The body of the streaming variant *)

(** X11.  In the streaming variant, the run of [watch] does not depend on
    how the body comes in chunks: two responses with the same status,
    status text and text of the body give the same events and the same
    end. *)
Theorem chunks_do_not_show
  (STATUS_CODES : Z -> option JS.jsstring)
  (new_URL : JS.jsstring -> JS.JsError + URL)
  (fetch fetch' : URL -> WatchApi.RequestInit -> rejection + WatchApi.Response)
  (number : Type) (Number_toString : number -> JS.jsstring)
  (this : WatchApi.WatchApi) (path : JS.jsstring)
  (queryParams : WatchApi.entries number)
  (response response' : WatchApi.Response) :
  answersApi new_URL fetch Number_toString this path queryParams response ->
  answersApi new_URL fetch' Number_toString this path queryParams response' ->
  WatchApi.status response = WatchApi.status response' ->
  WatchApi.statusText response = WatchApi.statusText response' ->
  List.concat (WatchApi.response_body response) =
    List.concat (WatchApi.response_body response') ->
  WatchApi.watch STATUS_CODES new_URL fetch Number_toString this path queryParams =
  WatchApi.watch STATUS_CODES new_URL fetch' Number_toString this path queryParams.
Proof.
  intros Hans Hans' Hs Ht Hb.
  rewrite (WatchApi_watch_answered _ _ _ _ _ _ _ _ _ Hans).
  rewrite (WatchApi_watch_answered _ _ _ _ _ _ _ _ _ Hans').
  apply WatchApi_consume_chunks; assumption.
Qed.

(** A witness of X11: the three events of the tests in one chunk, and cut
    after every seventh code unit or so. *)
Lemma chunks_do_not_show_witness :
  Fixtures.runApi [Fixtures.threeEvents] 200 [] =
  Fixtures.runApi
    [firstn 7 Fixtures.threeEvents;
     firstn 90 (skipn 7 Fixtures.threeEvents);
     skipn 97 Fixtures.threeEvents] 200 [].
Proof.
  apply (chunks_do_not_show Fixtures.STATUS_CODES Fixtures.new_URL
           (Fixtures.createTestServer [Fixtures.threeEvents] 200)
           (Fixtures.createTestServer
              [firstn 7 Fixtures.threeEvents;
               firstn 90 (skipn 7 Fixtures.threeEvents);
               skipn 97 Fixtures.threeEvents] 200)
           Z Fixtures.Number_toString
           (Fixtures.makeApiClient (Fixtures.createKubeConfigForServer Fixtures.server))
           Fixtures.pods []
           (WatchApi.mkResponse 200 [] [Fixtures.threeEvents])
           (WatchApi.mkResponse 200 []
              [firstn 7 Fixtures.threeEvents;
               firstn 90 (skipn 7 Fixtures.threeEvents);
               skipn 97 Fixtures.threeEvents])).
  - eexists. eexists. split; reflexivity.
  - eexists. eexists. split; reflexivity.
  - reflexivity.
  - reflexivity.
  - vm_compute. reflexivity.
Defined.

(** ** The two variants on the same body *)

Section SameBody.
Import JS.
Local Open Scope N_scope.

(** Joining undoes splitting. *)
Lemma join_split (sep : N) (s : jsstring) : join [sep] (split sep s) = s.
Proof.
  induction s as [|c s IH]; [reflexivity|].
  simpl. destruct (N.eqb_spec c sep) as [->|Hne].
  - destruct (split sep s) as [|p ps] eqn:E.
    + exfalso. exact (split_not_nil sep s E).
    + change (join [sep] ([] :: p :: ps)) with (sep :: join [sep] (p :: ps)).
      rewrite IH. reflexivity.
  - destruct (split sep s) as [|p ps] eqn:E.
    + exfalso. exact (split_not_nil sep s E).
    + destruct ps as [|q qs].
      * simpl in *. rewrite IH. reflexivity.
      * change (join [sep] ((c :: p) :: q :: qs))
          with (c :: join [sep] (p :: q :: qs)).
        rewrite IH. reflexivity.
Qed.

(** What holds of every code unit of a text holds of those of its
    pieces, and no piece holds the separator. *)
Lemma split_pieces (sep : N) (keep : N -> bool) (s : jsstring) :
  forallb keep s = true ->
  Forall (fun l => forallb keep l = true /\ lineFree sep l = true) (split sep s).
Proof.
  induction s as [|c s IH]; simpl.
  - intros _. repeat constructor.
  - intros H. apply andb_true_iff in H as [Hc Hs]. specialize (IH Hs).
    destruct (c =? sep) eqn:E; [constructor; [split; reflexivity | exact IH]|].
    destruct (split sep s) as [|p ps] eqn:Es;
      [exfalso; exact (split_not_nil sep s Es)|].
    inversion IH as [|? ? [Hp Hfree] Hps]; subst.
    constructor; [|exact Hps].
    simpl. rewrite Hc, Hp, E, Hfree. split; reflexivity.
Qed.

Lemma lineFeedsOnly_piece (l : jsstring) :
  lineFeedsOnly l = true -> lineFree LF l = true ->
  Readline.hasLineEnding l = false.
Proof.
  unfold lineFeedsOnly, lineFree, Readline.hasLineEnding.
  induction l as [|c l IH]; [reflexivity|].
  simpl. intros H Hfree.
  apply andb_true_iff in H as [Hc Hl].
  apply andb_true_iff in Hfree as [Hcf Hlf].
  rewrite (IH Hl Hlf), orb_false_r.
  destruct (c =? LF); [discriminate|].
  rewrite orb_false_r in Hc. apply negb_true_iff in Hc. exact Hc.
Qed.

Lemma lines_agree (bodyText : jsstring) :
  lineFeedsOnly bodyText = true ->
  Readline.splitLines bodyText = split LF bodyText.
Proof.
  intros H. pose proof (split_pieces LF _ bodyText H) as Hpieces.
  rewrite <- (join_split LF bodyText) at 1.
  destruct (split LF bodyText) as [|p ps] eqn:E.
  - exfalso. exact (split_not_nil LF bodyText E).
  - apply splitLines_join.
    eapply Forall_impl; [|exact Hpieces].
    intros l [Hl Hfree]. apply lineFeedsOnly_piece; assumption.
Qed.
End SameBody.

(** X12.  On the same body with status 200, when line feeds are the only
    line endings of the body (it holds no carriage return), the two
    variants yield the same events and both end without a failure, however
    the body of the streaming variant comes in chunks. *)
Theorem variants_agree_on_line_feeds
  (STATUS_CODES : Z -> option JS.jsstring)
  (cfg : WatchIterator.Configuration) (path : JS.jsstring)
  (options : WatchIterator.WatchOptions)
  (response : WatchIterator.ResponseContext)
  (new_URL : JS.jsstring -> JS.JsError + URL)
  (fetch : URL -> WatchApi.RequestInit -> rejection + WatchApi.Response)
  (number : Type) (Number_toString : number -> JS.jsstring)
  (this : WatchApi.WatchApi) (apiPath : JS.jsstring)
  (queryParams : WatchApi.entries number)
  (apiResponse : WatchApi.Response) :
  answersIterator cfg path options response ->
  WatchIterator.httpStatusCode response = 200%Z ->
  answersApi new_URL fetch Number_toString this apiPath queryParams apiResponse ->
  WatchApi.status apiResponse = 200%Z ->
  WatchApi.text apiResponse = WatchIterator.body_text response ->
  lineFeedsOnly (WatchIterator.body_text response) = true ->
  Gen.yielded (WatchApi.watch STATUS_CODES new_URL fetch Number_toString
                 this apiPath queryParams) =
  Gen.yielded (WatchIterator.watch STATUS_CODES cfg path options) /\
  Gen.outcome (WatchApi.watch STATUS_CODES new_URL fetch Number_toString
                 this apiPath queryParams) = Gen.Return tt /\
  Gen.outcome (WatchIterator.watch STATUS_CODES cfg path options) = Gen.Return tt.
Proof.
  intros Hans H200 HansA H200A Hbody Hlf.
  rewrite (WatchIterator_watch_answered _ _ _ _ _ Hans).
  rewrite WatchIterator_consume_200 by exact H200.
  rewrite (WatchApi_watch_answered _ _ _ _ _ _ _ _ _ HansA).
  rewrite WatchApi_consume_200 by exact H200A.
  split; [|split; reflexivity].
  simpl Gen.yielded. unfold linesOfStream, linesOfText.
  change (List.concat (WatchApi.response_body apiResponse))
    with (WatchApi.text apiResponse).
  rewrite Hbody, lines_agree by exact Hlf. reflexivity.
Qed.

(** A witness of X12: the body of the tests with a line that is no JSON
    text, read whole and read in two chunks. *)
Lemma variants_agree_on_line_feeds_witness :
  Gen.yielded (Fixtures.runApi (Fixtures.inChunks Fixtures.withInvalid) 200 []) =
  Gen.yielded (Fixtures.runIterator Fixtures.withInvalid 200 WatchIterator.noOptions) /\
  Gen.outcome (Fixtures.runApi (Fixtures.inChunks Fixtures.withInvalid) 200 []) =
    Gen.Return tt /\
  Gen.outcome (Fixtures.runIterator Fixtures.withInvalid 200 WatchIterator.noOptions) =
    Gen.Return tt.
Proof.
  apply (variants_agree_on_line_feeds Fixtures.STATUS_CODES
           (Fixtures.createMockConfiguration Fixtures.server Fixtures.withInvalid 200)
           Fixtures.pods WatchIterator.noOptions
           (WatchIterator.mkResponseContext 200 Fixtures.withInvalid)
           Fixtures.new_URL
           (Fixtures.createTestServer (Fixtures.inChunks Fixtures.withInvalid) 200)
           Z Fixtures.Number_toString
           (Fixtures.makeApiClient (Fixtures.createKubeConfigForServer Fixtures.server))
           Fixtures.pods []
           (WatchApi.mkResponse 200 [] (Fixtures.inChunks Fixtures.withInvalid))).
  - eexists. split; reflexivity.
  - reflexivity.
  - eexists. eexists. split; reflexivity.
  - reflexivity.
  - vm_compute. reflexivity.
  - vm_compute. reflexivity.
Defined.

(** Where the variants part: a carriage return that no line feed follows
    ends a line of the stream and none of the whole body.  U+2028 ends a
    line in neither. *)
Example variants_part_on_carriage_return :
  Gen.yielded
    (Fixtures.runIterator (Fixtures.added ++ JS.CR :: Fixtures.modified) 200
       WatchIterator.noOptions) = [] /\
  map type
    (Gen.yielded
       (Fixtures.runApi [Fixtures.added ++ JS.CR :: Fixtures.modified] 200 [])) =
    [JS.Val (JS.JString (JS.js "ADDED")); JS.Val (JS.JString (JS.js "MODIFIED"))] /\
  Gen.yielded
    (Fixtures.runIterator
       (JS.jsq "{'type':'ADDED','object':'a" ++ JS.LS :: JS.jsq "b'}") 200
       WatchIterator.noOptions) =
    [mkWatchEvent (JS.Val (JS.JString (JS.js "ADDED")))
       (JS.Val (JS.JString (JS.js "a" ++ JS.LS :: JS.js "b")))] /\
  Gen.yielded
    (Fixtures.runApi
       [JS.jsq "{'type':'ADDED','object':'a" ++ JS.LS :: JS.jsq "b'}"] 200 []) =
    [mkWatchEvent (JS.Val (JS.JString (JS.js "ADDED")))
       (JS.Val (JS.JString (JS.js "a" ++ JS.LS :: JS.js "b")))].
Proof. repeat split; vm_compute; reflexivity. Qed.

(** ** The text of the query *)

Section QueryText.
Import JS URLSearchParams.
Local Open Scope N_scope.

Lemma occurrences_app (c : N) (s t : jsstring) :
  occurrences c (s ++ t) = (occurrences c s + occurrences c t)%nat.
Proof. unfold occurrences. rewrite filter_app. apply length_app. Qed.

(** An encoded text holds no mark of the query. *)
Lemma occurrences_safe (c : N) (s : jsstring) :
  urlSafe c = false -> Forall (fun d => urlSafe d = true) s ->
  occurrences c s = 0%nat.
Proof.
  intros Hc Hs. unfold occurrences.
  induction Hs as [|d s Hd _ IH]; [reflexivity|].
  simpl. destruct (N.eqb_spec c d) as [->|]; [congruence | exact IH].
Qed.

Lemma safe_inQuery (s : jsstring) :
  Forall (fun d => urlSafe d = true) s -> Forall (fun d => inQuery d = true) s.
Proof.
  apply Forall_impl. intros d Hd. unfold inQuery. rewrite Hd. reflexivity.
Qed.

Lemma component_marks (p : jsstring * jsstring) :
  wellFormedString (fst p) -> wellFormedString (snd p) ->
  Forall (fun d => inQuery d = true) (component p) /\
  occurrences (chr "=") (component p) = 1%nat /\
  occurrences (chr "&") (component p) = 0%nat.
Proof.
  intros Hname Hvalue. apply encode_safe in Hname, Hvalue. unfold component.
  split; [|split].
  - apply Forall_app. split; [apply safe_inQuery; exact Hname|].
    constructor; [reflexivity | apply safe_inQuery; exact Hvalue].
  - change (encode (fst p) ++ chr "=" :: encode (snd p))
      with (encode (fst p) ++ [chr "="] ++ encode (snd p)).
    rewrite !occurrences_app.
    rewrite (occurrences_safe _ (encode (fst p))) by (reflexivity || assumption).
    rewrite (occurrences_safe _ (encode (snd p))) by (reflexivity || assumption).
    reflexivity.
  - change (encode (fst p) ++ chr "=" :: encode (snd p))
      with (encode (fst p) ++ [chr "="] ++ encode (snd p)).
    rewrite !occurrences_app.
    rewrite (occurrences_safe _ (encode (fst p))) by (reflexivity || assumption).
    rewrite (occurrences_safe _ (encode (snd p))) by (reflexivity || assumption).
    reflexivity.
Qed.

Lemma toString_marks (params : t) :
  wellFormedTuples params ->
  Forall (fun d => inQuery d = true) (toString params) /\
  occurrences (chr "=") (toString params) = List.length params /\
  occurrences (chr "&") (toString params) = pred (List.length params).
Proof.
  unfold toString. induction 1 as [|p params [Hname Hvalue] Hrest IH].
  - repeat split. constructor.
  - destruct (component_marks p Hname Hvalue) as [Hp [Hpe Hpa]].
    destruct params as [|q params].
    + change (join [chr "&"] (map component [p])) with (component p).
      rewrite Hpe, Hpa. repeat split. exact Hp.
    + destruct IH as [Hall [He Ha]].
      change (join [chr "&"] (map component (p :: q :: params)))
        with (component p ++ [chr "&"] ++
              join [chr "&"] (map component (q :: params))).
      rewrite !occurrences_app, Hpe, Hpa, He, Ha.
      split; [|split; reflexivity].
      apply Forall_app. split; [exact Hp|].
      apply Forall_app. split; [repeat constructor | exact Hall].
Qed.

Lemma set_wellFormed (name value : jsstring) (params : t) :
  wellFormedString name -> wellFormedString value ->
  wellFormedTuples params -> wellFormedTuples (set name value params).
Proof.
  intros Hname Hvalue. unfold wellFormedTuples.
  induction 1 as [|[k v] params Hp Hrest IH]; simpl.
  - repeat constructor; assumption.
  - destruct (eqb k name).
    + constructor; [split; assumption|].
      unfold remove. apply Forall_forall. intros x Hx.
      apply filter_In in Hx as [Hx _].
      rewrite Forall_forall in Hrest. exact (Hrest x Hx).
    + constructor; assumption.
Qed.

Lemma set_not_nil (name value : jsstring) (params : t) :
  set name value params <> [].
Proof.
  destruct params as [|[k v] rest]; simpl; [discriminate|].
  destruct (eqb k name); discriminate.
Qed.

Variable number : Type.
Variable Number_toString : number -> jsstring.

Lemma forward_wellFormed (queryParams : WatchApi.entries number) :
  wellFormedEntries Number_toString queryParams ->
  forall watchURL,
    wellFormedTuples (searchParams watchURL) ->
    wellFormedTuples
      (searchParams (WatchApi.forward Number_toString queryParams watchURL)).
Proof.
  unfold wellFormedEntries.
  induction queryParams as [|[k [v|]] more IH]; intros Hwf watchURL Hurl.
  - exact Hurl.
  - simpl in Hwf. inversion Hwf as [|? ? [Hk Hv] Hmore]; subst.
    simpl. apply (IH Hmore). simpl. apply set_wellFormed; assumption.
  - simpl. apply (IH Hwf). exact Hurl.
Qed.

Lemma forward_not_nil (queryParams : WatchApi.entries number) :
  forall watchURL,
    searchParams watchURL <> [] ->
    searchParams (WatchApi.forward Number_toString queryParams watchURL) <> [].
Proof.
  induction queryParams as [|[k [v|]] more IH]; intros watchURL Hurl.
  - exact Hurl.
  - simpl. apply IH. simpl. apply set_not_nil.
  - simpl. apply IH. exact Hurl.
Qed.
End QueryText.

(** X13.  In the streaming variant, the text of the query that goes out
    holds nothing but letters, digits, [* - . _ + %] and the marks
    [? & =], with one equals sign for every tuple and one ampersand
    between two tuples: whatever the names and the values of
    [queryParams] hold, they cannot add or cut a parameter. *)
Theorem query_text_is_safe
  (new_URL : JS.jsstring -> JS.JsError + URL)
  (number : Type) (Number_toString : number -> JS.jsstring)
  (this : WatchApi.WatchApi) (path : JS.jsstring)
  (queryParams : WatchApi.entries number)
  (watchURL : URL) (requestInit : WatchApi.RequestInit) :
  (forall href base,
     new_URL href = inr base -> wellFormedTuples (searchParams base)) ->
  wellFormedEntries Number_toString queryParams ->
  Gen.outcome (WatchApi.outbound new_URL Number_toString this path queryParams) =
    Gen.Return (watchURL, requestInit) ->
  Forall (fun c => inQuery c = true) (search watchURL) /\
  occurrences (JS.chr "=") (search watchURL) = List.length (searchParams watchURL) /\
  S (occurrences (JS.chr "&") (search watchURL)) =
    List.length (searchParams watchURL).
Proof.
  intros Hbase Hentries Hout.
  destruct (WatchApi_outbound_inv _ _ _ _ _ _ _ _ Hout)
    as [kc [cluster [base [_ [_ [Hb [E _]]]]]]].
  assert (Hwf : wellFormedTuples (searchParams watchURL)).
  { rewrite E. apply forward_wellFormed; [exact Hentries|].
    simpl. apply set_wellFormed.
    - repeat constructor.
    - repeat constructor.
    - exact (Hbase _ _ Hb). }
  assert (Hne : searchParams watchURL <> []).
  { rewrite E. apply forward_not_nil. simpl. apply set_not_nil. }
  destruct (toString_marks _ Hwf) as [Hall [He Ha]].
  unfold search. destruct (searchParams watchURL) as [|p params] eqn:Ep;
    [congruence|].
  change (JS.chr "?" :: URLSearchParams.toString (p :: params))
    with ([JS.chr "?"] ++ URLSearchParams.toString (p :: params)).
  rewrite !occurrences_app, He, Ha.
  split; [|split; reflexivity].
  apply Forall_app. split; [repeat constructor | exact Hall].
Qed.

(** A witness of X13: a label selector that holds an ampersand and an
    equals sign. *)
Lemma query_text_is_safe_witness :
  occurrences (JS.chr "&")
    (search (Fixtures.urlOf [(JS.js "watch", JS.js "true");
                             (JS.js "labelSelector", JS.js "app=nginx&watch=false")])) =
  1%nat.
Proof.
  destruct (query_text_is_safe Fixtures.new_URL Z Fixtures.Number_toString
              (Fixtures.makeApiClient
                 (Fixtures.createKubeConfigForServer Fixtures.server))
              Fixtures.pods
              [(JS.js "labelSelector",
                Some (WatchApi.PString Z (JS.js "app=nginx&watch=false")))]
              (Fixtures.urlOf [(JS.js "watch", JS.js "true");
                               (JS.js "labelSelector",
                                JS.js "app=nginx&watch=false")])
              Fixtures.defaultInit) as [_ [_ Hamp]].
  - intros href base H. injection H as <-. constructor.
  - repeat constructor; vm_compute; reflexivity.
  - reflexivity.
  - exact (eq_add_S _ _ Hamp).
Defined.

(** ** Padded lines *)

(** X14.  In both variants, white space of JSON (spaces, tabs, carriage
    returns, line feeds) before and after the text of a line changes
    nothing of what the line gives: the pass of the loop on the padded line
    is the pass on the bare line. *)
Theorem padding_does_not_show (before after line : JS.jsstring) :
  jsonWhite before = true -> jsonWhite after = true ->
  WatchIterator.frame (before ++ line ++ after) = WatchIterator.frame line /\
  WatchApi.frame (before ++ line ++ after) = WatchApi.frame line.
Proof.
  intros Hb Ha. unfold WatchIterator.frame, WatchApi.frame.
  rewrite (JSON_parse_padded before after line Hb Ha). split; reflexivity.
Qed.

(** A witness of X14: a frame of the tests, indented by a tab and followed
    by a space and a carriage return. *)
Lemma padding_does_not_show_witness :
  WatchIterator.frame ([9%N] ++ Fixtures.added ++ [32%N; JS.CR]) =
    WatchIterator.frame Fixtures.added /\
  WatchApi.frame ([9%N] ++ Fixtures.added ++ [32%N; JS.CR]) =
    WatchApi.frame Fixtures.added.
Proof.
  apply (padding_does_not_show [9%N] [32%N; JS.CR] Fixtures.added);
    reflexivity.
Defined.

(** X15.  With status 200, a body whose lines are separated by a carriage
    return and a line feed gives, in both variants, the events of its
    lines, as the same lines separated by line feeds do; the run ends
    without a failure.  The whole-body variant cuts at the line feeds and
    leaves the carriage returns to [JSON.parse], which skips them; the
    streaming variant cuts at the pairs. *)
Theorem carriage_returns_do_not_show
  (STATUS_CODES : Z -> option JS.jsstring)
  (cfg : WatchIterator.Configuration) (path : JS.jsstring)
  (options : WatchIterator.WatchOptions)
  (response : WatchIterator.ResponseContext)
  (new_URL : JS.jsstring -> JS.JsError + URL)
  (fetch : URL -> WatchApi.RequestInit -> rejection + WatchApi.Response)
  (number : Type) (Number_toString : number -> JS.jsstring)
  (this : WatchApi.WatchApi) (apiPath : JS.jsstring)
  (queryParams : WatchApi.entries number)
  (apiResponse : WatchApi.Response)
  (lines : list JS.jsstring) :
  answersIterator cfg path options response ->
  WatchIterator.httpStatusCode response = 200%Z ->
  answersApi new_URL fetch Number_toString this apiPath queryParams apiResponse ->
  WatchApi.status apiResponse = 200%Z ->
  lines <> [] ->
  Forall (fun l => Readline.hasLineEnding l = false) lines ->
  WatchIterator.body_text response = JS.join [JS.CR; JS.LF] lines ->
  WatchApi.text apiResponse = JS.join [JS.CR; JS.LF] lines ->
  WatchIterator.watch STATUS_CODES cfg path options =
    (flat_map contribution lines, Gen.Return tt) /\
  WatchApi.watch STATUS_CODES new_URL fetch Number_toString this apiPath queryParams =
    (flat_map contribution lines, Gen.Return tt).
Proof.
  intros Hans H200 HansA H200A Hne Hlines Hbody HbodyA.
  destruct lines as [|line lines]; [congruence|].
  split.
  - rewrite (WatchIterator_watch_answered _ _ _ _ _ Hans).
    rewrite WatchIterator_consume_200 by exact H200.
    unfold linesOfText. rewrite Hbody.
    rewrite contributions_CRLF_whole by exact Hlines. reflexivity.
  - rewrite (WatchApi_watch_answered _ _ _ _ _ _ _ _ _ HansA).
    rewrite WatchApi_consume_200 by exact H200A.
    unfold linesOfStream.
    change (List.concat (WatchApi.response_body apiResponse))
      with (WatchApi.text apiResponse).
    rewrite HbodyA, splitLines_CRLF_join by exact Hlines. reflexivity.
Qed.

(** A witness of X15: the three events of the tests, with a carriage
    return before every line feed. *)
Lemma carriage_returns_do_not_show_witness :
  Fixtures.runIterator
    (JS.join [JS.CR; JS.LF] [Fixtures.added; Fixtures.modified; Fixtures.deleted])
    200 WatchIterator.noOptions =
    (flat_map contribution [Fixtures.added; Fixtures.modified; Fixtures.deleted],
     Gen.Return tt) /\
  Fixtures.runApi
    (Fixtures.inChunks
       (JS.join [JS.CR; JS.LF] [Fixtures.added; Fixtures.modified; Fixtures.deleted]))
    200 [] =
    (flat_map contribution [Fixtures.added; Fixtures.modified; Fixtures.deleted],
     Gen.Return tt).
Proof.
  apply (carriage_returns_do_not_show Fixtures.STATUS_CODES
           (Fixtures.createMockConfiguration Fixtures.server
              (JS.join [JS.CR; JS.LF]
                 [Fixtures.added; Fixtures.modified; Fixtures.deleted]) 200)
           Fixtures.pods WatchIterator.noOptions
           (WatchIterator.mkResponseContext 200
              (JS.join [JS.CR; JS.LF]
                 [Fixtures.added; Fixtures.modified; Fixtures.deleted]))
           Fixtures.new_URL
           (Fixtures.createTestServer
              (Fixtures.inChunks
                 (JS.join [JS.CR; JS.LF]
                    [Fixtures.added; Fixtures.modified; Fixtures.deleted])) 200)
           Z Fixtures.Number_toString
           (Fixtures.makeApiClient (Fixtures.createKubeConfigForServer Fixtures.server))
           Fixtures.pods []
           (WatchApi.mkResponse 200 []
              (Fixtures.inChunks
                 (JS.join [JS.CR; JS.LF]
                    [Fixtures.added; Fixtures.modified; Fixtures.deleted])))).
  - eexists. split; reflexivity.
  - reflexivity.
  - eexists. eexists. split; reflexivity.
  - reflexivity.
  - discriminate.
  - repeat constructor.
  - reflexivity.
  - vm_compute. reflexivity.
Defined.

(** ** Writing a value and reading it back *)

Functional Scheme quoteJSONString_ind :=
  Induction for quoteJSONString Sort Prop.

Section RoundTrip.
Import JS.
Local Open Scope N_scope.

Ltac Zify.zify_post_hook ::= Z.to_euclidean_division_equations.

Lemma hexValue_hexDigitLower (n : N) :
  n < 16 -> hexValue (hexDigitLower n) = Some n.
Proof.
  intros Hn. unfold hexValue, hexDigitLower, isDigit.
  change (chr "0") with 48. change (chr "9") with 57.
  change (chr "a") with 97. change (chr "f") with 102.
  destruct (N.ltb_spec n 10) as [Hlow|Hhigh].
  - replace ((48 <=? 48 + n) && (48 + n <=? 57))%bool with true
      by (symmetry; apply andb_true_iff; split; apply N.leb_le; lia).
    f_equal. lia.
  - replace ((48 <=? 97 + (n - 10)) && (97 + (n - 10) <=? 57))%bool with false
      by (symmetry; apply andb_false_iff; right; apply N.leb_gt; lia).
    replace ((97 <=? 97 + (n - 10)) && (97 + (n - 10) <=? 102))%bool with true
      by (symmetry; apply andb_true_iff; split; apply N.leb_le; lia).
    f_equal. lia.
Qed.

Lemma four_digits (c : N) :
  c < 65536 ->
  ((c / 4096 * 16 + (c / 256) mod 16) * 16 + (c / 16) mod 16) * 16 + c mod 16 = c.
Proof. intros H. lia. Qed.

Lemma parseString_escape (h1 h2 h3 h4 : N) (text acc : jsstring) :
  parseString (BACKSLASH :: chr "u" :: h1 :: h2 :: h3 :: h4 :: text) acc =
  match hexValue h1, hexValue h2, hexValue h3, hexValue h4 with
  | Some a, Some b, Some c, Some d =>
      parseString text (((a * 16 + b) * 16 + c) * 16 + d :: acc)
  | _, _, _, _ => None
  end.
Proof. reflexivity. Qed.

Lemma parseString_unicodeEscape (c : N) (text acc : jsstring) :
  c < 65536 ->
  parseString (unicodeEscape c ++ text) acc = parseString text (c :: acc).
Proof.
  intros Hc. unfold unicodeEscape. cbn [app]. rewrite parseString_escape.
  rewrite !hexValue_hexDigitLower by lia.
  rewrite four_digits by exact Hc. reflexivity.
Qed.

(** A code unit that [QuoteJSONString] writes as it is. *)
Lemma parseString_plain (c : N) (text acc : jsstring) :
  (c =? QUOTE) = false -> (c =? BACKSLASH) = false -> (c <? 32) = false ->
  parseString (c :: text) acc = parseString text (c :: acc).
Proof. intros H1 H2 H3. cbn [parseString]. rewrite H1, H2, H3. reflexivity. Qed.

Lemma surrogate_plain (c : N) :
  URLSearchParams.isHighSurrogate c = true \/ URLSearchParams.isLowSurrogate c = true ->
  (c =? QUOTE) = false /\ (c =? BACKSLASH) = false /\ (c <? 32) = false.
Proof.
  unfold URLSearchParams.isHighSurrogate, URLSearchParams.isLowSurrogate.
  intros [H|H]; apply andb_true_iff in H as [H1 H2];
    apply N.leb_le in H1, H2;
    (split; [|split]); try (apply N.eqb_neq; unfold QUOTE, BACKSLASH; lia);
    apply N.ltb_ge; lia.
Qed.

(** Reading undoes quoting. *)
Lemma parseString_quoteJSONString (s : jsstring) :
  forall acc rest,
    codeUnits s = true ->
    parseString (quoteJSONString s ++ QUOTE :: rest) acc = Some (rev acc ++ s, rest).
Proof.
  unfold codeUnits.
  functional induction (quoteJSONString s); intros acc rest Hs;
    try (simpl in Hs; apply andb_true_iff in Hs as [Hc Hs]; apply N.ltb_lt in Hc).
  - simpl. rewrite app_nil_r. reflexivity.
  - apply N.eqb_eq in e0. subst c.
    transitivity (parseString (quoteJSONString r ++ QUOTE :: rest) (8 :: acc));
      [reflexivity|].
    rewrite IHj by exact Hs. simpl. rewrite <- app_assoc. reflexivity.
  - apply N.eqb_eq in e1. subst c.
    transitivity (parseString (quoteJSONString r ++ QUOTE :: rest) (9 :: acc));
      [reflexivity|].
    rewrite IHj by exact Hs. simpl. rewrite <- app_assoc. reflexivity.
  - apply N.eqb_eq in e2. subst c.
    transitivity (parseString (quoteJSONString r ++ QUOTE :: rest) (LF :: acc));
      [reflexivity|].
    rewrite IHj by exact Hs. simpl. rewrite <- app_assoc. reflexivity.
  - apply N.eqb_eq in e3. subst c.
    transitivity (parseString (quoteJSONString r ++ QUOTE :: rest) (12 :: acc));
      [reflexivity|].
    rewrite IHj by exact Hs. simpl. rewrite <- app_assoc. reflexivity.
  - apply N.eqb_eq in e4. subst c.
    transitivity (parseString (quoteJSONString r ++ QUOTE :: rest) (CR :: acc));
      [reflexivity|].
    rewrite IHj by exact Hs. simpl. rewrite <- app_assoc. reflexivity.
  - apply N.eqb_eq in e5. subst c.
    transitivity (parseString (quoteJSONString r ++ QUOTE :: rest) (QUOTE :: acc));
      [reflexivity|].
    rewrite IHj by exact Hs. simpl. rewrite <- app_assoc. reflexivity.
  - apply N.eqb_eq in e6. subst c.
    transitivity (parseString (quoteJSONString r ++ QUOTE :: rest) (BACKSLASH :: acc));
      [reflexivity|].
    rewrite IHj by exact Hs. simpl. rewrite <- app_assoc. reflexivity.
  - rewrite <- app_assoc, parseString_unicodeEscape by exact Hc.
    rewrite IHj by exact Hs. simpl. rewrite <- app_assoc. reflexivity.
  - simpl in Hs.
    rewrite parseString_unicodeEscape by exact Hc.
    reflexivity.
  - simpl in Hs. apply andb_true_iff in Hs as [Hd Hs].
    destruct (surrogate_plain c (or_introl e8)) as [H1 [H2 H3]].
    destruct (surrogate_plain d (or_intror e10)) as [H4 [H5 H6]].
    rewrite <- !app_comm_cons.
    rewrite parseString_plain, parseString_plain by assumption.
    rewrite IHj by exact Hs. simpl. rewrite <- !app_assoc. reflexivity.
  - rewrite <- app_assoc, parseString_unicodeEscape by exact Hc.
    rewrite IHj by exact Hs. simpl. rewrite <- app_assoc. reflexivity.
  - rewrite <- app_assoc, parseString_unicodeEscape by exact Hc.
    rewrite IHj by exact Hs. simpl. rewrite <- app_assoc. reflexivity.
  - rewrite <- app_comm_cons, parseString_plain by assumption.
    rewrite IHj by exact Hs. simpl. rewrite <- app_assoc. reflexivity.
Qed.
End RoundTrip.

Section ReadingBack.
Import JS.
Local Open Scope N_scope.

(** Induction on a value, with the property at hand for the elements of
    an array and for the values of the members of an object. *)
Lemma JSON_nested_ind (P : JSON -> Prop) :
  P JNull ->
  (forall b, P (JBool b)) ->
  (forall lexeme, P (JNumber lexeme)) ->
  (forall s, P (JString s)) ->
  (forall items, Forall P items -> P (JArray items)) ->
  (forall members, Forall (fun m => P (snd m)) members -> P (JObject members)) ->
  forall value, P value.
Proof.
  intros Hnull Hbool Hnumber Hstring Harray Hobject.
  fix IH 1. intros [|b|lexeme|s|items|members].
  - exact Hnull.
  - apply Hbool.
  - apply Hnumber.
  - apply Hstring.
  - apply Harray.
    exact ((fix all (l : list JSON) : Forall P l :=
              match l with
              | [] => Forall_nil P
              | x :: r => Forall_cons x (IH x) (all r)
              end) items).
  - apply Hobject.
    exact ((fix all (l : list (jsstring * JSON))
              : Forall (fun m => P (snd m)) l :=
              match l with
              | [] => Forall_nil _
              | m :: r => Forall_cons m (IH (snd m)) (all r)
              end) members).
Qed.

(** *** Numbers *)

Lemma digits_all (ds rest : jsstring) :
  forallb isDigit ds = true -> ends rest = true ->
  digits (ds ++ rest) = (ds, rest).
Proof.
  intros Hds Hrest. induction ds as [|d ds IH].
  - destruct rest as [|c r]; [reflexivity|]. unfold ends in Hrest.
    cbn [app digits]. destruct (isDigit c); [discriminate | reflexivity].
  - simpl in Hds. apply andb_true_iff in Hds as [Hd Hds].
    cbn [app digits]. rewrite Hd, (IH Hds). reflexivity.
Qed.

Lemma fractionPart_ends (rest : jsstring) :
  ends rest = true -> fractionPart rest = Some ([], rest).
Proof.
  destruct rest as [|c r]; [reflexivity|]. unfold ends, fractionPart.
  destruct (c =? chr "."); [|reflexivity].
  rewrite andb_false_r. discriminate.
Qed.

Lemma exponentPart_ends (rest : jsstring) :
  ends rest = true -> exponentPart rest = Some ([], rest).
Proof.
  destruct rest as [|c r]; [reflexivity|]. unfold ends, exponentPart.
  destruct (c =? chr "e"); [rewrite andb_false_r; discriminate|].
  destruct (c =? chr "E"); [rewrite andb_false_r; discriminate|].
  reflexivity.
Qed.

Lemma integerPart_canonical (d : N) (ds rest : jsstring) :
  forallb isDigit (d :: ds) = true -> ends rest = true ->
  (if d =? chr "0" then ds = [] else True) ->
  integerPart ((d :: ds) ++ rest) = Some (d :: ds, rest).
Proof.
  intros Hds Hrest Hzero. simpl in Hds. apply andb_true_iff in Hds as [Hd Hds].
  unfold integerPart. cbn [app]. rewrite Hd. cbn [negb].
  destruct (d =? chr "0").
  - subst ds. reflexivity.
  - rewrite (digits_all ds rest Hds Hrest). reflexivity.
Qed.

Lemma parseNumber_canonical (lexeme rest : jsstring) :
  canonicalInteger lexeme = true -> ends rest = true ->
  parseNumber (lexeme ++ rest) = Some (lexeme, rest).
Proof.
  unfold canonicalInteger. intros Hlexeme Hrest.
  destruct lexeme as [|c r]; [discriminate|].
  unfold parseNumber, minusSign in *. cbn [app].
  destruct (c =? chr "-").
  - cbn [fst snd] in Hlexeme. destruct r as [|d ds]; [discriminate|].
    apply andb_true_iff in Hlexeme as [Hlexeme Hzero].
    apply andb_true_iff in Hlexeme as [Hds _].
    rewrite (integerPart_canonical d ds rest Hds Hrest).
    + rewrite (fractionPart_ends rest Hrest), (exponentPart_ends rest Hrest).
      rewrite !app_nil_r. reflexivity.
    + destruct (d =? chr "0"); [|exact I].
      destruct ds; discriminate.
  - cbn [fst snd] in Hlexeme.
    apply andb_true_iff in Hlexeme as [Hlexeme Hzero].
    apply andb_true_iff in Hlexeme as [Hds _].
    change (c :: r ++ rest) with ((c :: r) ++ rest).
    rewrite (integerPart_canonical c r rest Hds Hrest).
    + rewrite (fractionPart_ends rest Hrest), (exponentPart_ends rest Hrest).
      rewrite !app_nil_r. reflexivity.
    + destruct (c =? chr "0"); [|exact I].
      destruct r; [reflexivity | discriminate].
Qed.

(** The first code unit of a number tells [parseValue] what it reads. *)
Lemma canonical_head (c : N) (r : jsstring) :
  canonicalInteger (c :: r) = true -> c = chr "-" \/ isDigit c = true.
Proof.
  unfold canonicalInteger, minusSign.
  destruct (N.eqb_spec c (chr "-")) as [->|_]; [left; reflexivity|].
  cbn [snd]. intros H. right.
  apply andb_true_iff in H as [H _]. apply andb_true_iff in H as [H _].
  simpl in H. apply andb_true_iff in H as [H _]. exact H.
Qed.

Lemma number_head (c : N) :
  c = chr "-" \/ isDigit c = true ->
  isJsonWhiteSpace c = false /\ (c =? chr "{") = false /\
  (c =? chr "[") = false /\ (c =? QUOTE) = false /\ (c =? chr "t") = false /\
  (c =? chr "f") = false /\ (c =? chr "n") = false /\ (c =? chr "]") = false.
Proof.
  intros [->|H]; [repeat split; reflexivity|].
  unfold isDigit in H. apply andb_true_iff in H as [H1 H2].
  apply N.leb_le in H1, H2.
  change (chr "0") with 48 in H1. change (chr "9") with 57 in H2.
  assert (Hne : forall x, x < 48 \/ 57 < x -> (c =? x) = false)
    by (intros x Hx; apply N.eqb_neq; lia).
  unfold isJsonWhiteSpace, LF, CR, QUOTE.
  change (chr "{") with 123. change (chr "[") with 91. change (chr "t") with 116.
  change (chr "f") with 102. change (chr "n") with 110. change (chr "]") with 93.
  rewrite !Hne by lia. repeat split; reflexivity.
Qed.

Lemma parseValue_number (fuel : nat) (c : N) (text : jsstring) :
  c = chr "-" \/ isDigit c = true ->
  parseValue (S fuel) (c :: text) =
  match parseNumber (c :: text) with
  | Some (lexeme, r') => Parsed (JNumber lexeme) r'
  | None => Rejected
  end.
Proof.
  intros H. destruct (number_head c H) as [H0 [H1 [H2 [H3 [H4 [H5 [H6 _]]]]]]].
  cbn [parseValue skipWhiteSpace]. rewrite H0, H1, H2, H3, H4, H5, H6.
  reflexivity.
Qed.

(** *** What a text starts with *)

Lemma parseValue_string (fuel : nat) (text : jsstring) :
  parseValue (S fuel) (QUOTE :: text) =
  match parseString text [] with
  | Some (str, r') => Parsed (JString str) r'
  | None => Rejected
  end.
Proof. reflexivity. Qed.

Lemma parseValue_array (fuel : nat) (text : jsstring) :
  parseValue (S fuel) (chr "[" :: text) =
  match skipWhiteSpace text with
  | [] => Rejected
  | d :: r' =>
      if d =? chr "]" then Parsed (JArray []) r'
      else parseElements fuel (d :: r') []
  end.
Proof. reflexivity. Qed.

Lemma parseValue_object (fuel : nat) (text : jsstring) :
  parseValue (S fuel) (chr "{" :: text) =
  match skipWhiteSpace text with
  | [] => Rejected
  | d :: r' =>
      if d =? chr "}" then Parsed (JObject []) r'
      else parseMembers fuel (d :: r') []
  end.
Proof. reflexivity. Qed.

(** The text of a value starts with a code unit that is no white space
    and closes no array. *)
Lemma stringify_head (value : JSON) (rest : jsstring) :
  plain value = true ->
  exists c r,
    JSON_stringify value ++ rest = c :: r /\
    isJsonWhiteSpace c = false /\ (c =? chr "]") = false.
Proof.
  destruct value as [|[|]|lexeme|s|items|members]; intros H;
    try (eexists; eexists; split; [reflexivity | split; reflexivity]).
  simpl in H. destruct lexeme as [|c r]; [discriminate|].
  exists c, (r ++ rest). split; [reflexivity|].
  destruct (number_head c (canonical_head c r H)) as [H0 [_ [_ [_ [_ [_ [_ H7]]]]]]].
  split; assumption.
Qed.

Lemma skipWhiteSpace_stringify (value : JSON) (rest : jsstring) :
  plain value = true ->
  skipWhiteSpace (JSON_stringify value ++ rest) = JSON_stringify value ++ rest.
Proof.
  intros H. destruct (stringify_head value rest H) as [c [r [E [Hc _]]]].
  rewrite E. simpl. rewrite Hc. reflexivity.
Qed.
End ReadingBack.

Section ReadingBackValues.
Import JS.
Local Open Scope N_scope.

Lemma join_cons2 (sep x y : jsstring) (l : list jsstring) :
  join sep (x :: y :: l) = x ++ sep ++ join sep (y :: l).
Proof. reflexivity. Qed.

(** One element of an array, before a comma and before the bracket. *)
Lemma parseElements_step (fuel : nat) (v : JSON) (text r : jsstring)
  (acc : list JSON) :
  parseValue fuel text = Parsed v (chr "," :: r) ->
  parseElements (S fuel) text acc =
  parseElements fuel (skipWhiteSpace r) (v :: acc).
Proof. intros H. cbn [parseElements]. rewrite H. reflexivity. Qed.

Lemma parseElements_last (fuel : nat) (v : JSON) (text r : jsstring)
  (acc : list JSON) :
  parseValue fuel text = Parsed v (chr "]" :: r) ->
  parseElements (S fuel) text acc = Parsed (JArray (rev acc ++ [v])) r.
Proof. intros H. cbn [parseElements]. rewrite H. reflexivity. Qed.

Lemma skipWhiteSpace_items (item : JSON) (items : list JSON) (rest : jsstring) :
  plain item = true ->
  skipWhiteSpace (join [chr ","] (map JSON_stringify (item :: items)) ++ rest) =
  join [chr ","] (map JSON_stringify (item :: items)) ++ rest.
Proof.
  intros H. destruct items as [|next items].
  - cbn [map join]. apply skipWhiteSpace_stringify. exact H.
  - cbn [map]. rewrite join_cons2, <- app_assoc.
    apply skipWhiteSpace_stringify. exact H.
Qed.

Lemma parseElements_items (items : list JSON) :
  Forall readsBack items -> forallb plain items = true -> items <> [] ->
  forall acc fuel rest,
    (list_sum (map (fun item => S (size item)) items) <= fuel)%nat ->
    parseElements fuel
      (join [chr ","] (map JSON_stringify items) ++ chr "]" :: rest) acc =
    Parsed (JArray (rev acc ++ items)) rest.
Proof.
  induction 1 as [|item items Hitem Hitems IH]; [congruence|].
  intros Hplain _ acc fuel rest Hfuel.
  simpl in Hplain. apply andb_true_iff in Hplain as [Hp Hps].
  simpl in Hfuel. destruct fuel as [|fuel]; [lia|].
  destruct items as [|next items].
  - cbn [map join].
    apply parseElements_last, (Hitem Hp); [simpl in Hfuel; lia | reflexivity].
  - cbn [map]. rewrite join_cons2, <- !app_assoc. cbn [app].
    rewrite (parseElements_step fuel item _
               (join [chr ","] (map JSON_stringify (next :: items)) ++
                chr "]" :: rest))
      by (apply (Hitem Hp); [lia | reflexivity]).
    rewrite skipWhiteSpace_items
      by (simpl in Hps; apply andb_true_iff in Hps as [Hn _]; exact Hn).
    rewrite (IH Hps) by (discriminate || lia).
    simpl. rewrite <- app_assoc. reflexivity.
Qed.

(** One member of an object, before a comma and before the brace. *)
Lemma parseMembers_step (fuel : nat) (key : jsstring) (v : JSON)
  (text r2 r4 : jsstring) (acc : list (jsstring * JSON)) :
  parseString text [] = Some (key, chr ":" :: r2) ->
  parseValue fuel r2 = Parsed v (chr "," :: r4) ->
  parseMembers (S fuel) (QUOTE :: text) acc =
  parseMembers fuel (skipWhiteSpace r4) ((key, v) :: acc).
Proof.
  intros Hkey Hv. cbn [parseMembers]. change (negb (QUOTE =? QUOTE)) with false.
  cbn iota. rewrite Hkey. cbn [skipWhiteSpace].
  change (isJsonWhiteSpace (chr ":")) with false. cbn iota.
  change (negb (chr ":" =? chr ":")) with false. cbn iota.
  rewrite Hv. reflexivity.
Qed.

Lemma parseMembers_last (fuel : nat) (key : jsstring) (v : JSON)
  (text r2 r4 : jsstring) (acc : list (jsstring * JSON)) :
  parseString text [] = Some (key, chr ":" :: r2) ->
  parseValue fuel r2 = Parsed v (chr "}" :: r4) ->
  parseMembers (S fuel) (QUOTE :: text) acc =
  Parsed (JObject (rev acc ++ [(key, v)])) r4.
Proof.
  intros Hkey Hv. cbn [parseMembers]. change (negb (QUOTE =? QUOTE)) with false.
  cbn iota. rewrite Hkey. cbn [skipWhiteSpace].
  change (isJsonWhiteSpace (chr ":")) with false. cbn iota.
  change (negb (chr ":" =? chr ":")) with false. cbn iota.
  rewrite Hv. reflexivity.
Qed.

Lemma parseMembers_members (members : list (jsstring * JSON)) :
  Forall (fun m => readsBack (snd m)) members ->
  forallb (fun m => codeUnits (fst m) && plain (snd m)) members = true ->
  members <> [] ->
  forall acc fuel rest,
    (list_sum (map (fun m => S (size (snd m))) members) <= fuel)%nat ->
    parseMembers fuel
      (join [chr ","] (map memberText members) ++ chr "}" :: rest) acc =
    Parsed (JObject (rev acc ++ members)) rest.
Proof.
  induction 1 as [|[key v] members Hv Hmembers IH]; [congruence|].
  intros Hplain _ acc fuel rest Hfuel.
  simpl in Hplain. apply andb_true_iff in Hplain as [Hp Hps].
  apply andb_true_iff in Hp as [Hkey Hp].
  simpl in Hfuel. destruct fuel as [|fuel]; [lia|].
  cbn [snd] in Hv.
  destruct members as [|next members].
  - cbn [map join]. unfold memberText at 1. cbn [fst snd].
    rewrite <- app_comm_cons.
    apply (parseMembers_last fuel key v _
             (JSON_stringify v ++ chr "}" :: rest)).
    + rewrite <- app_assoc. cbn [app].
      apply parseString_quoteJSONString. exact Hkey.
    + apply (Hv Hp); [simpl in Hfuel; lia | reflexivity].
  - cbn [map]. rewrite join_cons2. unfold memberText at 1. cbn [fst snd].
    rewrite <- !app_assoc. rewrite <- app_comm_cons.
    rewrite (parseMembers_step fuel key v _
               (JSON_stringify v ++ chr "," ::
                join [chr ","] (map memberText (next :: members)) ++
                chr "}" :: rest)
               (join [chr ","] (map memberText (next :: members)) ++
                chr "}" :: rest)).
    + assert (Hhead : skipWhiteSpace
                        (join [chr ","] (map memberText (next :: members)) ++
                         chr "}" :: rest) =
                      join [chr ","] (map memberText (next :: members)) ++
                      chr "}" :: rest)
        by (destruct members; reflexivity).
      rewrite Hhead.
      rewrite (IH Hps) by (discriminate || lia).
      simpl. rewrite <- app_assoc. reflexivity.
    + rewrite <- app_assoc. cbn [app].
      apply parseString_quoteJSONString. exact Hkey.
    + apply (Hv Hp); [lia | reflexivity].
Qed.
End ReadingBackValues.

Section ReadingBackTexts.
Import JS.
Local Open Scope N_scope.

Lemma stringify_members (members : list (jsstring * JSON)) :
  JSON_stringify (JObject members) =
  chr "{" :: join [chr ","] (map memberText members) ++ [chr "}"].
Proof. reflexivity. Qed.

Lemma plain_members (members : list (jsstring * JSON)) :
  plain (JObject members) = true ->
  forallb (fun m => codeUnits (fst m) && plain (snd m)) members = true.
Proof.
  simpl. intros H. apply andb_true_iff in H as [H _].
  induction members as [|m members IH]; [reflexivity|].
  simpl in *. apply andb_true_iff in H as [Hm H].
  apply andb_true_iff in Hm as [Hm Hp]. apply andb_true_iff in Hm as [Hk _].
  rewrite Hk, Hp, (IH H). reflexivity.
Qed.

(** Every plain value is read back from its text. *)
Lemma parse_stringify (value : JSON) : readsBack value.
Proof.
  induction value as [|b|lexeme|s|items IH|members IH] using JSON_nested_ind;
    intros Hplain fuel rest Hfuel Hrest;
    (destruct fuel as [|fuel]; [simpl in Hfuel; lia|]).
  - reflexivity.
  - destruct b; reflexivity.
  - simpl in Hplain. destruct lexeme as [|c r]; [discriminate|].
    cbn [JSON_stringify app].
    rewrite parseValue_number by exact (canonical_head c r Hplain).
    change (c :: r ++ rest) with ((c :: r) ++ rest).
    rewrite (parseNumber_canonical (c :: r) rest Hplain Hrest). reflexivity.
  - cbn [JSON_stringify app]. rewrite parseValue_string.
    rewrite <- app_assoc. cbn [app].
    rewrite parseString_quoteJSONString by exact Hplain. reflexivity.
  - cbn [JSON_stringify app]. rewrite parseValue_array, <- app_assoc. cbn [app].
    destruct items as [|item items]; [reflexivity|].
    simpl in Hplain.
    rewrite skipWhiteSpace_items
      by (apply andb_true_iff in Hplain as [Hp _]; exact Hp).
    destruct (stringify_head item
                (match items with
                 | [] => chr "]" :: rest
                 | _ :: _ =>
                     [chr ","] ++ join [chr ","] (map JSON_stringify items) ++
                     chr "]" :: rest
                 end)) as [c [r [E [_ Hc]]]];
      [apply andb_true_iff in Hplain as [Hp _]; exact Hp|].
    assert (E' : join [chr ","] (map JSON_stringify (item :: items)) ++
                 chr "]" :: rest = c :: r).
    { rewrite <- E. destruct items as [|next items]; [reflexivity|].
      cbn [map]. rewrite join_cons2, <- !app_assoc. reflexivity. }
    rewrite E', Hc, <- E'.
    rewrite (parseElements_items (item :: items) IH)
      by (exact Hplain || discriminate || (simpl in Hfuel; simpl; lia)).
    reflexivity.
  - rewrite stringify_members. cbn [app].
    rewrite parseValue_object, <- app_assoc. cbn [app].
    destruct members as [|m members]; [reflexivity|].
    assert (Hhead : exists r,
               join [chr ","] (map memberText (m :: members)) ++ chr "}" :: rest =
               QUOTE :: r)
      by (destruct members; eexists; reflexivity).
    destruct Hhead as [r E]. rewrite E.
    change (skipWhiteSpace (QUOTE :: r)) with (QUOTE :: r).
    change (QUOTE =? chr "}") with false. cbn iota. rewrite <- E.
    rewrite (parseMembers_members (m :: members) IH)
      by (exact (plain_members _ Hplain) || discriminate ||
          (simpl in Hfuel; simpl; lia)).
    reflexivity.
Qed.

(** [JSON.parse] undoes [JSON.stringify]. *)
Lemma JSON_parse_stringify (value : JSON) :
  plain value = true -> JSON_parse (JSON_stringify value) = inr value.
Proof.
  intros Hplain. unfold JSON_parse.
  rewrite <- (JSON_parse_on_fuel
                (Nat.max (fuelFor (JSON_stringify value)) (size value)))
    by apply Nat.le_max_l.
  rewrite <- (app_nil_r (JSON_stringify value)) at 2.
  rewrite (parse_stringify value Hplain) by (apply Nat.le_max_r || reflexivity).
  reflexivity.
Qed.
End ReadingBackTexts.

(** ** The code units of a text that was written *)

Section WrittenTexts.
Import JS.
Local Open Scope N_scope.

Lemma hexDigitLower_ascii (n : N) :
  n < 16 -> 32 <= hexDigitLower n /\ hexDigitLower n < 128.
Proof.
  intros Hn. unfold hexDigitLower.
  change (chr "0") with 48. change (chr "a") with 97.
  destruct (n <? 10); lia.
Qed.

Ltac Zify.zify_post_hook ::= Z.to_euclidean_division_equations.

Lemma unicodeEscape_ascii (c : N) :
  c < 65536 -> Forall (fun d => 32 <= d /\ d < 128) (unicodeEscape c).
Proof.
  intros Hc. unfold unicodeEscape.
  repeat constructor; try (apply hexDigitLower_ascii; lia);
    unfold BACKSLASH; try (change (chr "u") with 117); lia.
Qed.

Lemma written_string (s : jsstring) :
  codeUnits s = true ->
  Forall (fun c => 32 <= c /\ (c < 128 \/ In c s)) (quoteJSONString s).
Proof.
  unfold codeUnits.
  assert (Hweak : forall (x : N) (r t : jsstring),
             Forall (fun c => 32 <= c /\ (c < 128 \/ In c r)) t ->
             Forall (fun c => 32 <= c /\ (c < 128 \/ In c (x :: r))) t).
  { intros x r t. apply Forall_impl. intros c [H1 [H2|H2]];
      (split; [exact H1|]); [left; exact H2 | right; right; exact H2]. }
  assert (Hescape : forall (x : N) (r : jsstring),
             x < 65536 ->
             Forall (fun c => 32 <= c /\ (c < 128 \/ In c r)) (unicodeEscape x)).
  { intros x r Hx. eapply Forall_impl; [|exact (unicodeEscape_ascii x Hx)].
    intros c [H1 H2]. split; [exact H1 | left; exact H2]. }
  functional induction (quoteJSONString s); intros Hs;
    try (simpl in Hs; apply andb_true_iff in Hs as [Hc Hs]; apply N.ltb_lt in Hc);
    try (constructor; [split; [|left]; now cbv|];
         constructor; [split; [|left]; now cbv|];
         apply Hweak, IHj; exact Hs).
  - constructor.
  - apply Forall_app. split; [apply Hescape; exact Hc | apply Hweak, IHj; exact Hs].
  - apply Hescape. exact Hc.
  - simpl in Hs. apply andb_true_iff in Hs as [Hd Hs].
    apply N.ltb_ge in e7.
    constructor; [split; [exact e7 | right; left; reflexivity]|].
    unfold URLSearchParams.isLowSurrogate in e10.
    apply andb_true_iff in e10 as [Hd1 _]. apply N.leb_le in Hd1.
    constructor; [split; [lia | right; right; left; reflexivity]|].
    apply Hweak, Hweak, IHj. exact Hs.
  - apply Forall_app. split; [apply Hescape; exact Hc | apply Hweak, IHj; exact Hs].
  - apply Forall_app. split; [apply Hescape; exact Hc | apply Hweak, IHj; exact Hs].
  - apply N.ltb_ge in e7.
    constructor; [split; [exact e7 | right; left; reflexivity]|].
    apply Hweak, IHj. exact Hs.
Qed.
End WrittenTexts.

Section WrittenValues.
Import JS.
Local Open Scope N_scope.

Lemma Forall_join (P : N -> Prop) (sep : jsstring) (pieces : list jsstring) :
  Forall P sep -> Forall (Forall P) pieces -> Forall P (join sep pieces).
Proof.
  intros Hsep. induction 1 as [|p pieces Hp Hpieces IH]; [constructor|].
  destruct pieces as [|q pieces]; [exact Hp|].
  change (join sep (p :: q :: pieces)) with (p ++ sep ++ join sep (q :: pieces)).
  apply Forall_app. split; [exact Hp|].
  apply Forall_app. split; [exact Hsep | exact IH].
Qed.

Lemma written_number (lexeme : jsstring) :
  canonicalInteger lexeme = true ->
  Forall (fun c => 32 <= c /\ c < 128) lexeme.
Proof.
  assert (Hdigits : forall ds, forallb isDigit ds = true ->
                               Forall (fun c => 32 <= c /\ c < 128) ds).
  { induction ds as [|d ds IH]; [constructor|].
    simpl. intros H. apply andb_true_iff in H as [Hd Hds].
    constructor; [|exact (IH Hds)].
    unfold isDigit in Hd. apply andb_true_iff in Hd as [H1 H2].
    apply N.leb_le in H1, H2.
    change (chr "0") with 48 in H1. change (chr "9") with 57 in H2. lia. }
  unfold canonicalInteger, minusSign.
  destruct lexeme as [|c r]; [discriminate|].
  destruct (N.eqb_spec c (chr "-")) as [->|_]; cbn [fst snd].
  - destruct r as [|d ds]; [discriminate|]. intros H.
    apply andb_true_iff in H as [H _]. apply andb_true_iff in H as [H _].
    constructor; [split; now cbv | exact (Hdigits _ H)].
  - intros H.
    apply andb_true_iff in H as [H _]. apply andb_true_iff in H as [H _].
    exact (Hdigits _ H).
Qed.

Lemma written_ascii (value : JSON) (text : jsstring) :
  Forall (fun c => 32 <= c /\ c < 128) text -> Forall (written value) text.
Proof.
  apply Forall_impl. intros c [H1 H2]. split; [exact H1 | left; exact H2].
Qed.

Lemma written_in (value : JSON) (s text : jsstring) :
  (forall c, In c s -> In c (codeUnitsOf value)) ->
  Forall (fun c => 32 <= c /\ (c < 128 \/ In c s)) text ->
  Forall (written value) text.
Proof.
  intros Hin. apply Forall_impl. intros c [H1 [H2|H2]];
    (split; [exact H1|]); [left; exact H2 | right; exact (Hin c H2)].
Qed.

Lemma written_within (outer inner : JSON) (text : jsstring) :
  (forall c, In c (codeUnitsOf inner) -> In c (codeUnitsOf outer)) ->
  Forall (written inner) text -> Forall (written outer) text.
Proof.
  intros Hin. apply Forall_impl. intros c [H1 [H2|H2]];
    (split; [exact H1|]); [left; exact H2 | right; exact (Hin c H2)].
Qed.

(** Every code unit of the text of a plain value is a printable character
    of ASCII or a code unit, no control character, of one of its
    strings. *)
Lemma written_text (value : JSON) :
  plain value = true -> Forall (written value) (JSON_stringify value).
Proof.
  induction value as [|b|lexeme|s|items IH|members IH] using JSON_nested_ind;
    intros Hplain.
  - apply written_ascii. repeat constructor; now cbv.
  - apply written_ascii. destruct b; repeat constructor; now cbv.
  - apply written_ascii, written_number. exact Hplain.
  - cbn [JSON_stringify].
    constructor; [split; [|left]; now cbv|].
    apply Forall_app. split.
    + apply (written_in (JString s) s); [auto|].
      apply written_string. exact Hplain.
    + repeat constructor; now cbv.
  - cbn [JSON_stringify].
    constructor; [split; [|left]; now cbv|].
    apply Forall_app. split; [|repeat constructor; now cbv].
    apply Forall_join; [repeat constructor; now cbv|].
    simpl in Hplain. rewrite forallb_forall in Hplain.
    rewrite Forall_forall in IH.
    apply Forall_forall. intros text Htext.
    apply in_map_iff in Htext as [item [<- Hitem]].
    apply (written_within (JArray items) item).
    + intros c Hc. cbn [codeUnitsOf]. apply in_flat_map.
      exists item. split; assumption.
    + apply (IH item Hitem), Hplain, Hitem.
  - rewrite stringify_members.
    constructor; [split; [|left]; now cbv|].
    apply Forall_app. split; [|repeat constructor; now cbv].
    apply Forall_join; [repeat constructor; now cbv|].
    pose proof (plain_members members Hplain) as Hm.
    rewrite forallb_forall in Hm. rewrite Forall_forall in IH.
    apply Forall_forall. intros text Htext.
    apply in_map_iff in Htext as [m [<- Hin]].
    specialize (Hm m Hin). apply andb_true_iff in Hm as [Hkey Hvalue].
    unfold memberText.
    constructor; [split; [|left]; now cbv|].
    apply Forall_app. split.
    + apply (written_in (JObject members) (fst m)).
      * intros c Hc. cbn [codeUnitsOf]. apply in_flat_map.
        exists m. split; [exact Hin | apply in_or_app; left; exact Hc].
      * apply written_string. exact Hkey.
    + constructor; [split; [|left]; now cbv|].
      constructor; [split; [|left]; now cbv|].
      apply (written_within (JObject members) (snd m)).
      * intros c Hc. cbn [codeUnitsOf]. apply in_flat_map.
        exists m. split; [exact Hin | apply in_or_app; right; exact Hc].
      * exact (IH m Hin Hvalue).
Qed.

(** The text of a plain value holds no line feed and no carriage return:
    nothing that ends a line for either variant. *)
Lemma stringify_lineFree (value : JSON) :
  plain value = true -> lineFree LF (JSON_stringify value) = true.
Proof.
  intros H. apply written_text in H. unfold lineFree.
  apply forallb_forall. intros c Hc.
  rewrite Forall_forall in H. destruct (H c Hc) as [H1 _].
  apply negb_true_iff, N.eqb_neq. unfold LF. lia.
Qed.

Lemma stringify_hasLineEnding (value : JSON) :
  plain value = true -> Readline.hasLineEnding (JSON_stringify value) = false.
Proof.
  intros H. apply written_text in H. unfold Readline.hasLineEnding.
  destruct (existsb Readline.isLineEnding (JSON_stringify value)) eqn:E;
    [|reflexivity].
  exfalso. apply existsb_exists in E as [c [Hc Hend]].
  rewrite Forall_forall in H. destruct (H c Hc) as [H1 _].
  unfold Readline.isLineEnding in Hend.
  apply orb_true_iff in Hend as [Hend|Hend];
    apply N.eqb_eq in Hend; unfold LF, CR in Hend; lia.
Qed.
End WrittenValues.

(** ** Events that are written and read back *)

Section EventsBack.
Import JS.

Lemma plain_frame (event : JSON * JSON) :
  plain (fst event) = true -> plain (snd event) = true ->
  plain (JObject [(js "type", fst event); (js "object", snd event)]) = true.
Proof.
  intros Ht Ho.
  change (plain (JObject [(js "type", fst event); (js "object", snd event)]))
    with ((true && plain (fst event) && (true && plain (snd event) && true)) &&
          true).
  rewrite Ht, Ho. reflexivity.
Qed.

Lemma contribution_frameOf (event : JSON * JSON) :
  plain (fst event) = true -> plain (snd event) = true ->
  contribution (frameOf event) = [eventOfFrame event].
Proof.
  intros Ht Ho. unfold contribution, eventOf, frameOf.
  rewrite JSON_parse_stringify by (apply plain_frame; assumption).
  reflexivity.
Qed.

Lemma contributions_frames (events : list (JSON * JSON)) :
  Forall (fun e => plain (fst e) = true /\ plain (snd e) = true) events ->
  flat_map contribution (map frameOf events) = map eventOfFrame events.
Proof.
  induction 1 as [|e events [Ht Ho] _ IH]; [reflexivity|].
  cbn [map flat_map]. rewrite (contribution_frameOf e Ht Ho), IH. reflexivity.
Qed.

End EventsBack.

(** X16.  With status 200, a body that holds one line for every event of a
    list, each line the [JSON.stringify] of an object with the [type] and
    the [object] of the event, joined by line feeds as the test servers
    write it, makes the whole-body variant yield these events, in this
    order, and end without a failure; and so does the streaming variant,
    however the body comes in chunks. *)
Theorem stringified_events_come_back
  (STATUS_CODES : Z -> option JS.jsstring)
  (cfg : WatchIterator.Configuration) (path : JS.jsstring)
  (options : WatchIterator.WatchOptions)
  (response : WatchIterator.ResponseContext)
  (new_URL : JS.jsstring -> JS.JsError + URL)
  (fetch : URL -> WatchApi.RequestInit -> rejection + WatchApi.Response)
  (number : Type) (Number_toString : number -> JS.jsstring)
  (this : WatchApi.WatchApi) (apiPath : JS.jsstring)
  (queryParams : WatchApi.entries number)
  (apiResponse : WatchApi.Response)
  (events : list (JS.JSON * JS.JSON)) :
  answersIterator cfg path options response ->
  WatchIterator.httpStatusCode response = 200%Z ->
  answersApi new_URL fetch Number_toString this apiPath queryParams apiResponse ->
  WatchApi.status apiResponse = 200%Z ->
  Forall (fun e => plain (fst e) = true /\ plain (snd e) = true) events ->
  WatchIterator.body_text response = JS.join [JS.LF] (map frameOf events) ->
  WatchApi.text apiResponse = JS.join [JS.LF] (map frameOf events) ->
  WatchIterator.watch STATUS_CODES cfg path options =
    (map eventOfFrame events, Gen.Return tt) /\
  WatchApi.watch STATUS_CODES new_URL fetch Number_toString this apiPath queryParams =
    (map eventOfFrame events, Gen.Return tt).
Proof.
  intros Hans H200 HansA H200A Hplain Hbody HbodyA. split.
  - rewrite (WatchIterator_watch_answered _ _ _ _ _ Hans).
    rewrite WatchIterator_consume_200 by exact H200.
    rewrite Hbody. destruct events as [|e events]; [reflexivity|].
    rewrite linesOfText_join.
    + rewrite contributions_frames by exact Hplain. reflexivity.
    + discriminate.
    + apply Forall_forall. intros line Hline.
      apply in_map_iff in Hline as [e' [<- Hin]].
      rewrite Forall_forall in Hplain. destruct (Hplain e' Hin) as [Ht Ho].
      apply stringify_lineFree, plain_frame; assumption.
  - rewrite (WatchApi_watch_answered _ _ _ _ _ _ _ _ _ HansA).
    rewrite WatchApi_consume_200 by exact H200A.
    destruct events as [|e events].
    + unfold linesOfStream.
      change (List.concat (WatchApi.response_body apiResponse))
        with (WatchApi.text apiResponse).
      rewrite HbodyA. reflexivity.
    + rewrite (linesOfStream_join _ (map frameOf (e :: events))).
      * rewrite contributions_frames by exact Hplain. reflexivity.
      * discriminate.
      * apply Forall_forall. intros line Hline.
        apply in_map_iff in Hline as [e' [<- Hin]].
        rewrite Forall_forall in Hplain. destruct (Hplain e' Hin) as [Ht Ho].
        apply stringify_hasLineEnding, plain_frame; assumption.
      * exact HbodyA.
Qed.

(** A witness of X16: the three events of the tests, whose body is the
    one the tests send. *)
Lemma stringified_events_come_back_witness :
  Fixtures.runIterator Fixtures.threeEvents 200 WatchIterator.noOptions =
    (map eventOfFrame Fixtures.testEvents, Gen.Return tt) /\
  Fixtures.runApi (Fixtures.inChunks Fixtures.threeEvents) 200 [] =
    (map eventOfFrame Fixtures.testEvents, Gen.Return tt).
Proof.
  destruct (stringified_events_come_back Fixtures.STATUS_CODES
              (Fixtures.createMockConfiguration Fixtures.server Fixtures.threeEvents 200)
              Fixtures.pods WatchIterator.noOptions
              (WatchIterator.mkResponseContext 200 Fixtures.threeEvents)
              Fixtures.new_URL
              (Fixtures.createTestServer (Fixtures.inChunks Fixtures.threeEvents) 200)
              Z Fixtures.Number_toString
              (Fixtures.makeApiClient
                 (Fixtures.createKubeConfigForServer Fixtures.server))
              Fixtures.pods []
              (WatchApi.mkResponse 200 [] (Fixtures.inChunks Fixtures.threeEvents))
              Fixtures.testEvents) as [Hwhole Hstream].
  - eexists. split; reflexivity.
  - reflexivity.
  - eexists. eexists. split; reflexivity.
  - reflexivity.
  - repeat constructor.
  - vm_compute. reflexivity.
  - vm_compute. reflexivity.
  - split; [exact Hwhole | exact Hstream].
Defined.

(** ** The filter of blank lines *)

(** X17.  In the whole-body variant with status 200, the filter that
    drops the lines whose [trim()] is empty changes nothing of the run:
    the loop over all the pieces of the body between line feeds yields the
    same events and ends the same way, because [JSON.parse] throws on a
    blank line and the loop skips the lines on which it throws. *)
Theorem blank_filter_changes_nothing
  (STATUS_CODES : Z -> option JS.jsstring)
  (response : WatchIterator.ResponseContext) :
  WatchIterator.httpStatusCode response = 200%Z ->
  WatchIterator.consume STATUS_CODES response =
  Gen.for_of (JS.split JS.LF (WatchIterator.body_text response))
    WatchIterator.frame.
Proof.
  intros H200. rewrite WatchIterator_consume_200 by exact H200.
  rewrite (for_of_yields _ _ contribution) by apply WatchIterator_frame.
  reflexivity.
Qed.

(** A witness of X17: the body of the tests with a line of spaces and an
    empty line. *)
Lemma blank_filter_changes_nothing_witness :
  WatchIterator.consume Fixtures.STATUS_CODES
    (WatchIterator.mkResponseContext 200 Fixtures.withBlank) =
  Gen.for_of [Fixtures.added; JS.js "   "; []; Fixtures.added] WatchIterator.frame.
Proof.
  apply (blank_filter_changes_nothing Fixtures.STATUS_CODES
           (WatchIterator.mkResponseContext 200 Fixtures.withBlank)).
  reflexivity.
Defined.

(** ** The lines that a part of the body completes *)

Section Completed.
Import JS.
Local Open Scope N_scope.

(** The pieces of a text that comes in two parts: those that the first
    part completes, and those of its last piece with the second part. *)
Lemma split_parts (sep : N) (a b : jsstring) :
  split sep (a ++ b) =
  removelast (split sep a) ++ split sep (last (split sep a) [] ++ b).
Proof.
  induction a as [|c a IH]; [reflexivity|].
  cbn [app split]. rewrite IH.
  destruct (split sep a) as [|p ps] eqn:E;
    [exfalso; exact (split_not_nil sep a E)|].
  destruct (c =? sep) eqn:Ec.
  - reflexivity.
  - destruct ps as [|q qs].
    + cbn [removelast last app split]. rewrite Ec. reflexivity.
    + reflexivity.
Qed.
End Completed.

(** X18.  With status 200, the lines that a first part of the body
    completes give their events first, in both variants, whatever the rest
    of the body holds: what follows can add events after them and cannot
    change, drop or reorder them.  The lines that a part completes are its
    pieces but the last, between line feeds in the whole-body variant and
    between line endings in the streaming one. *)
Theorem completed_lines_come_first
  (STATUS_CODES : Z -> option JS.jsstring)
  (cfg : WatchIterator.Configuration) (path : JS.jsstring)
  (options : WatchIterator.WatchOptions)
  (response : WatchIterator.ResponseContext)
  (new_URL : JS.jsstring -> JS.JsError + URL)
  (fetch : URL -> WatchApi.RequestInit -> rejection + WatchApi.Response)
  (number : Type) (Number_toString : number -> JS.jsstring)
  (this : WatchApi.WatchApi) (apiPath : JS.jsstring)
  (queryParams : WatchApi.entries number)
  (apiResponse : WatchApi.Response)
  (first rest : JS.jsstring) :
  answersIterator cfg path options response ->
  WatchIterator.httpStatusCode response = 200%Z ->
  answersApi new_URL fetch Number_toString this apiPath queryParams apiResponse ->
  WatchApi.status apiResponse = 200%Z ->
  WatchIterator.body_text response = first ++ rest ->
  WatchApi.text apiResponse = first ++ rest ->
  (exists later,
     Gen.yielded (WatchIterator.watch STATUS_CODES cfg path options) =
     flat_map contribution (removelast (JS.split JS.LF first)) ++ later) /\
  (exists later,
     Gen.yielded (WatchApi.watch STATUS_CODES new_URL fetch Number_toString
                    this apiPath queryParams) =
     flat_map contribution (removelast (Readline.splitLines first)) ++ later).
Proof.
  intros Hans H200 HansA H200A Hbody HbodyA. split.
  - rewrite (WatchIterator_watch_answered _ _ _ _ _ Hans).
    rewrite WatchIterator_consume_200 by exact H200.
    unfold linesOfText. rewrite Hbody, split_parts, contributions_app.
    eexists. reflexivity.
  - rewrite (WatchApi_watch_answered _ _ _ _ _ _ _ _ _ HansA).
    rewrite WatchApi_consume_200 by exact H200A.
    unfold linesOfStream.
    change (List.concat (WatchApi.response_body apiResponse))
      with (WatchApi.text apiResponse).
    rewrite HbodyA, splitLines_app, contributions_app.
    eexists. reflexivity.
Qed.

(** A witness of X18: a body that is cut in the middle of its third
    line. *)
Lemma completed_lines_come_first_witness :
  (exists later,
     Gen.yielded
       (Fixtures.runIterator (firstn 200 Fixtures.threeEvents) 200
          WatchIterator.noOptions) =
     flat_map contribution [Fixtures.added; Fixtures.modified] ++ later) /\
  (exists later,
     Gen.yielded
       (Fixtures.runApi [firstn 200 Fixtures.threeEvents] 200 []) =
     flat_map contribution [Fixtures.added; Fixtures.modified] ++ later).
Proof.
  apply (completed_lines_come_first Fixtures.STATUS_CODES
           (Fixtures.createMockConfiguration Fixtures.server
              (firstn 200 Fixtures.threeEvents) 200)
           Fixtures.pods WatchIterator.noOptions
           (WatchIterator.mkResponseContext 200 (firstn 200 Fixtures.threeEvents))
           Fixtures.new_URL
           (Fixtures.createTestServer [firstn 200 Fixtures.threeEvents] 200)
           Z Fixtures.Number_toString
           (Fixtures.makeApiClient (Fixtures.createKubeConfigForServer Fixtures.server))
           Fixtures.pods []
           (WatchApi.mkResponse 200 [] [firstn 200 Fixtures.threeEvents])
           (Fixtures.added ++ JS.LF :: Fixtures.modified ++ [JS.LF])
           (skipn 175 (firstn 200 Fixtures.threeEvents))).
  - eexists. split; reflexivity.
  - reflexivity.
  - eexists. eexists. split; reflexivity.
  - reflexivity.
  - vm_compute. reflexivity.
  - vm_compute. reflexivity.
Defined.

(** ** The streaming variant before its request *)

(** X19.  In the streaming variant, when the URL constructor throws on the
    server of the cluster followed by the path, or when
    [applyToFetchOptions] rejects, [watch] yields nothing and fails with
    that error itself, not with an [ApiException]; [fetch] has no part in
    the run.  The URL is built, and the query parameters are set, before
    [applyToFetchOptions] is asked. *)
Theorem request_failures_propagate
  (STATUS_CODES : Z -> option JS.jsstring)
  (new_URL : JS.jsstring -> JS.JsError + URL)
  (number : Type) (Number_toString : number -> JS.jsstring)
  (this : WatchApi.WatchApi) (path : JS.jsstring)
  (queryParams : WatchApi.entries number)
  (kubeConfig : WatchApi.KubeConfig) (cluster : WatchApi.Cluster) :
  WatchApi.authMethods_default (WatchApi.configuration this) =
    Some (WatchApi.IsKubeConfig kubeConfig) ->
  WatchApi.getCurrentCluster kubeConfig = Some cluster ->
  forall fetch : URL -> WatchApi.RequestInit -> rejection + WatchApi.Response,
    (forall e,
       new_URL (WatchApi.server cluster ++ path) = inl e ->
       WatchApi.watch STATUS_CODES new_URL fetch Number_toString this path
         queryParams =
       ([], Gen.Throw (WatchApi.ThrowJs e))) /\
    (forall base reason,
       new_URL (WatchApi.server cluster ++ path) = inr base ->
       WatchApi.applyToFetchOptions kubeConfig (WatchApi.mkRequestInit [] None None) =
         inl reason ->
       WatchApi.watch STATUS_CODES new_URL fetch Number_toString this path
         queryParams =
       ([], Gen.Throw (WatchApi.ThrowForeign reason))).
Proof.
  intros Hauth Hcluster fetch.
  unfold WatchApi.watch, WatchApi.outbound. rewrite Hauth. simpl.
  rewrite Hcluster. simpl. split.
  - intros e He. rewrite He. reflexivity.
  - intros base reason Hbase Hreject. rewrite Hbase. simpl.
    rewrite Hreject. reflexivity.
Qed.

(** A witness of X19: a server name that is no URL, and a token that has
    expired, before a server that would answer. *)
Lemma request_failures_propagate_witness :
  WatchApi.watch Fixtures.STATUS_CODES Fixtures.new_URL_invalid
    (Fixtures.createTestServer [Fixtures.added] 200) Fixtures.Number_toString
    (Fixtures.makeApiClient (Fixtures.createKubeConfigForServer (JS.js "not a url")))
    Fixtures.pods [] =
  ([], Gen.Throw (WatchApi.ThrowJs JS.TypeError)) /\
  WatchApi.watch Fixtures.STATUS_CODES Fixtures.new_URL
    (Fixtures.createTestServer [Fixtures.added] 200) Fixtures.Number_toString
    (Fixtures.makeApiClient (Fixtures.createExpiredKubeConfig Fixtures.server))
    Fixtures.pods [] =
  ([], Gen.Throw (WatchApi.ThrowForeign Fixtures.expired)).
Proof.
  split.
  - destruct (request_failures_propagate Fixtures.STATUS_CODES
                Fixtures.new_URL_invalid Z Fixtures.Number_toString
                (Fixtures.makeApiClient
                   (Fixtures.createKubeConfigForServer (JS.js "not a url")))
                Fixtures.pods []
                (Fixtures.createKubeConfigForServer (JS.js "not a url"))
                (WatchApi.mkCluster (JS.js "not a url"))
                eq_refl eq_refl
                (Fixtures.createTestServer [Fixtures.added] 200)) as [Hthrown _].
    apply Hthrown. reflexivity.
  - destruct (request_failures_propagate Fixtures.STATUS_CODES
                Fixtures.new_URL Z Fixtures.Number_toString
                (Fixtures.makeApiClient
                   (Fixtures.createExpiredKubeConfig Fixtures.server))
                Fixtures.pods []
                (Fixtures.createExpiredKubeConfig Fixtures.server)
                (WatchApi.mkCluster Fixtures.server)
                eq_refl eq_refl
                (Fixtures.createTestServer [Fixtures.added] 200)) as [_ Hrejected].
    apply (Hrejected (mkURL (Fixtures.server ++ Fixtures.pods) []) Fixtures.expired);
      reflexivity.
Defined.

(** ** The whole-body variant before its request *)

(** X20.  In the whole-body variant, a timeout that is no delay of 0 to
    4 294 967 295 ms stops the watch once the request is built and
    authentication, if any, has accepted it: [AbortSignal.timeout] throws,
    so [watch] yields nothing and fails with a RangeError, not with a
    [WatchError], and the HTTP library has no part in the run. *)
Theorem invalid_timeout_stops_the_watch
  (STATUS_CODES : Z -> option JS.jsstring)
  (cfg : WatchIterator.Configuration) (path : JS.jsstring)
  (options : WatchIterator.WatchOptions)
  (base authenticated : WatchIterator.RequestContext) (ms : Z) :
  WatchIterator.timeoutMs options = Some ms ->
  ~ (0 <= ms <= 4294967295)%Z ->
  WatchIterator.makeRequestContext (WatchIterator.baseServer cfg) path
    WatchIterator.GET = inr base ->
  match WatchIterator.authMethods_default cfg with
  | Some auth =>
      WatchIterator.applySecurityAuthentication auth
        (WatchIterator.addQuery options
           match WatchIterator.allowWatchBookmarks options with
           | Some b => b
           | None => true
           end base)
  | None =>
      inr (WatchIterator.addQuery options
             match WatchIterator.allowWatchBookmarks options with
             | Some b => b
             | None => true
             end base)
  end = inr authenticated ->
  forall httpApi : WatchIterator.HttpLibrary,
    WatchIterator.watch STATUS_CODES
      (WatchIterator.mkConfiguration (WatchIterator.baseServer cfg)
         (WatchIterator.authMethods_default cfg) httpApi)
      path options =
    ([], Gen.Throw (WatchIterator.ThrowJs JS.RangeError)).
Proof.
  intros Hms Hinvalid Hbase Hauth httpApi.
  unfold WatchIterator.watch, WatchIterator.outbound. simpl.
  rewrite Hbase, Hms, (WatchIterator_timeout_invalid ms Hinvalid). simpl.
  destruct (WatchIterator.authMethods_default cfg) as [auth|].
  - rewrite Hauth. reflexivity.
  - reflexivity.
Qed.

(** A witness of X20: a timeout of minus one millisecond, before a library
    that would answer. *)
Lemma invalid_timeout_stops_the_watch_witness :
  WatchIterator.watch Fixtures.STATUS_CODES
    (Fixtures.createMockConfiguration Fixtures.server Fixtures.added 200)
    Fixtures.pods
    (WatchIterator.mkWatchOptions None None None (Some (-1)%Z) None) =
  ([], Gen.Throw (WatchIterator.ThrowJs JS.RangeError)).
Proof.
  apply (invalid_timeout_stops_the_watch Fixtures.STATUS_CODES
           (Fixtures.createMockConfiguration Fixtures.server Fixtures.added 200)
           Fixtures.pods
           (WatchIterator.mkWatchOptions None None None (Some (-1)%Z) None)
           (WatchIterator.mkRequestContext
              (mkURL (Fixtures.server ++ Fixtures.pods) []) WatchIterator.GET [] None)
           (WatchIterator.mkRequestContext
              (mkURL (Fixtures.server ++ Fixtures.pods)
                 [(JS.js "watch", JS.js "true");
                  (JS.js "allowWatchBookmarks", JS.js "true")])
              WatchIterator.GET [] None)
           (-1)%Z).
  - reflexivity.
  - lia.
  - reflexivity.
  - reflexivity.
Defined.
